(** * Cypress runner: run orchestration engine

    A shallow embedding of the three servers of the repository

    - [Basic]     server/index.js           (the server the Dockerfile starts),
    - [Fixed]     the revision of index.js with a try/catch around /start,
    - [Improved]  server/index-improved.js  (logging, 404 on unknown streams,
                  an 'error' listener on the child process, retention sweep),

    over a common model of the JavaScript values they manipulate: strings
    of code units, the file system below the application directory, run
    objects on a heap (the registry and the closures of a supervision task
    alias the same object), and the [clients] map of Server-Sent-Event
    subscribers. *)

From Stdlib Require Import ZArith Lia Ascii String.
From stdpp Require Import base option list strings gmap pretty sorting.

(** ** Insertion-ordered maps with string keys

    A JavaScript [Map] keeps its entries in insertion order, and so does a
    directory listing here: [set] on a key that is present keeps its
    place, [set] on a new key appends. *)

Module Assoc.
Section Assoc.
Context {V : Type}.

Fixpoint get (k : string) (l : list (string * V)) : option V :=
  match l with
  | [] => None
  | (k', v) :: rest => if decide (k' = k) then Some v else get k rest
  end.

Definition has (k : string) (l : list (string * V)) : bool :=
  match get k l with Some _ => true | None => false end.

Fixpoint set (k : string) (v : V) (l : list (string * V)) : list (string * V) :=
  match l with
  | [] => [(k, v)]
  | (k', v') :: rest =>
      if decide (k' = k) then (k, v) :: rest else (k', v') :: set k v rest
  end.

Fixpoint delete (k : string) (l : list (string * V)) : list (string * V) :=
  match l with
  | [] => []
  | (k', v') :: rest =>
      if decide (k' = k) then delete k rest else (k', v') :: delete k rest
  end.

End Assoc.
End Assoc.

(** ** The file system below the application directory *)

Module Fs.

(** A path is the list of its segments below the application directory,
    [path.join(__dirname, '..')]; [path.join] is list concatenation. *)
Definition path := list string.

Local Unset Elimination Schemes.
Inductive node : Type :=
| File (content : string)
| Dir (entries : list (string * node)).
Local Set Elimination Schemes.

Definition set_entry (name : string) (o : option node)
    (es : list (string * node)) : list (string * node) :=
  match o with
  | Some c => Assoc.set name c es
  | None => Assoc.delete name es
  end.

Definition child (name : string) (n : option node) : option node :=
  match n with
  | Some (Dir es) => Assoc.get name es
  | _ => None
  end.

(** What is found at a path, [None] when nothing is there. *)
Fixpoint lookup (p : path) (n : option node) : option node :=
  match p with
  | [] => n
  | name :: rest => lookup rest (child name n)
  end.

(** Every mutation walks down to a path and rewrites what it finds there.
    The outer [None] is a thrown error: ENOTDIR when a file stands in the
    way, ENOENT when a directory is missing and [mk] is off, or whatever
    the edit [f] refuses. With [mk] the missing directories are created on
    the way down, as [{ recursive: true }] does. *)
Fixpoint update_at (mk : bool) (p : path)
    (f : option node -> option (option node)) (n : option node)
  : option (option node) :=
  match p with
  | [] => f n
  | name :: rest =>
      match n with
      | Some (Dir es) =>
          c ← update_at mk rest f (Assoc.get name es);
          Some (Some (Dir (set_entry name c es)))
      | Some (File _) => None
      | None =>
          if mk
          then c ← update_at mk rest f None;
               Some (Some (Dir (set_entry name c [])))
          else None
      end
  end.

Definition apply_at (mk : bool) (p : path)
    (f : option node -> option (option node)) (d : node) : option node :=
  match update_at mk p f (Some d) with
  | Some (Some d') => Some d'
  | _ => None
  end.

Definition existsSync (p : path) (d : node) : bool :=
  match lookup p (Some d) with Some _ => true | None => false end.

(** [fs.statSync(p).isDirectory()], for a path that exists. *)
Definition isDirectory (n : node) : bool :=
  match n with Dir _ => true | File _ => false end.

(** [fs.mkdirSync(p, { recursive: true })]: EEXIST on a file. *)
Definition mkdirSync (p : path) (d : node) : option node :=
  apply_at true p
    (fun o => match o with
              | None => Some (Some (Dir []))
              | Some (Dir es) => Some (Some (Dir es))
              | Some (File _) => None
              end) d.

(** [fs.writeFileSync(p, content)]: EISDIR on a directory, ENOENT when the
    parent directory is missing. *)
Definition writeFileSync (p : path) (content : string) (d : node)
  : option node :=
  apply_at false p
    (fun o => match o with
              | Some (Dir _) => None
              | _ => Some (Some (File content))
              end) d.

(** [fs.rmSync(p, { recursive: true, force: true })] on a file system that
    lets the caller remove what is there; [force] makes a missing path a
    success. *)
Definition rmSync (p : path) (d : node) : option node :=
  match lookup p (Some d) with
  | None => Some d
  | Some _ => apply_at false p (fun _ => Some None) d
  end.

(** [fs.readdirSync(p)]: the names of a directory, ENOTDIR or ENOENT
    otherwise. *)
Definition readdirSync (p : path) (d : node) : option (list string) :=
  match lookup p (Some d) with
  | Some (Dir es) => Some (es.*1)
  | _ => None
  end.

(** [fs.cpSync(src, dst, { recursive: true, force: true })] merges the
    source tree into the destination: files overwrite files, directories
    merge into directories, and a file meeting a directory (either way
    round) is an error. *)
Fixpoint merge (s : node) (o : option node) : option node :=
  match s with
  | File c => match o with Some (Dir _) => None | _ => Some (File c) end
  | Dir es =>
      let into :=
        fix into (es ds : list (string * node)) : option (list (string * node)) :=
          match es with
          | [] => Some ds
          | (name, c) :: rest =>
              c' ← merge c (Assoc.get name ds); into rest (Assoc.set name c' ds)
          end in
      match o with
      | Some (File _) => None
      | Some (Dir ds) => Dir <$> into es ds
      | None => Dir <$> into es []
      end
  end.

Definition cpSync (src dst : path) (d : node) : option node :=
  match lookup src (Some d) with
  | None => None
  | Some s => apply_at true dst (fun o => Some <$> merge s o) d
  end.

(** Two paths diverge when they part at some segment: neither lies below
    the other. *)
Fixpoint diverge (p q : path) : bool :=
  match p, q with
  | a :: p', b :: q' => if decide (a = b) then diverge p' q' else true
  | _, _ => false
  end.

(** The absolute name of a path, as [path.join] prints it below the
    application directory. *)
Definition show (p : path) : string :=
  foldr (fun seg acc => "/" +:+ seg +:+ acc) "" p.

End Fs.

(** ** JavaScript strings and the regular expressions of the servers

    A string is its sequence of code units; multer hands file names over
    as latin1, one unit per byte. *)

Module Js.

Definition ESC : ascii := "027"%char.
Definition LF : ascii := "010"%char.

Definition between (lo hi : N) (c : ascii) : bool :=
  ((lo <=? N_of_ascii c) && (N_of_ascii c <=? hi))%N.

Definition is_upper : ascii -> bool := between 65 90.
Definition is_lower : ascii -> bool := between 97 122.
Definition is_digit : ascii -> bool := between 48 57.

(** [[a-zA-Z]] *)
Definition is_letter (c : ascii) : bool := is_lower c || is_upper c.

(** [[0-9;]] *)
Definition is_param (c : ascii) : bool := is_digit c || bool_decide (c = ";"%char).

Definition lower (c : ascii) : ascii :=
  if is_upper c then ascii_of_N (N_of_ascii c + 32) else c.

(** The case folding of [toLowerCase] and of the [/i] flag, on the letters
    A to Z. No other code unit folds to a unit below 128, and the suffixes
    tested below are made of such units only. *)
Fixpoint toLowerCase (s : string) : string :=
  match s with
  | EmptyString => EmptyString
  | String c t => String (lower c) (toLowerCase t)
  end.

(** [s.endsWith(suffix)] *)
Definition endsWith (s suffix : string) : bool :=
  let n := String.length s in
  let k := String.length suffix in
  (k <=? n)%nat && bool_decide (substring (n - k) k s = suffix).

(** [/\.cy\.(js|ts|mjs)$/i.test(name)] *)
Definition isSpecName (name : string) : bool :=
  let l := toLowerCase name in
  endsWith l ".cy.js" || endsWith l ".cy.ts" || endsWith l ".cy.mjs".

(** [file.match(/\.mp4$/i)] *)
Definition matches_mp4 (file : string) : bool :=
  endsWith (toLowerCase file) ".mp4".

(** [file.match(/\.(png|jpg|jpeg)$/i)] *)
Definition matches_image (file : string) : bool :=
  let l := toLowerCase file in
  endsWith l ".png" || endsWith l ".jpg" || endsWith l ".jpeg".

(** [s.replace(/[:.]/g, '-')] *)
Fixpoint dashed (s : string) : string :=
  match s with
  | EmptyString => EmptyString
  | String c t =>
      String (if bool_decide (c = ":"%char) || bool_decide (c = "."%char)
              then "-"%char else c) (dashed t)
  end.

(** [path.join] of segments, and the URL built by the template literals
    [`${baseUrl}/${file}`]. *)
Definition slash (a b : string) : string := a +:+ "/" +:+ b.

(** *** The two escape-sequence patterns of [broadcast]

    [/\x1B\[[0-9;]*[a-zA-Z]/] and [/\x1B\[[\?]?[0-9;]*[a-zA-Z]/]: ESC, an
    opening bracket, with [q] an optional question mark, the longest run
    of digits and semicolons, one letter. The classes are disjoint, so the
    greedy star never has to give a unit back; giving the question mark
    back leaves it in front of the letter class, which rejects it. *)

Fixpoint skip_params (s : string) : string :=
  match s with
  | String c t => if is_param c then skip_params t else s
  | EmptyString => EmptyString
  end.

(** [[\?]?] when [q]: take the question mark if it is there. *)
Definition optional_question (q : bool) (t : string) : string :=
  match t with
  | String c t' => if q && bool_decide (c = "?"%char) then t' else t
  | EmptyString => t
  end.

(** A match anchored at the head of [s]: what follows it. *)
Definition match_csi (q : bool) (s : string) : option string :=
  match s with
  | String e (String b t) =>
      if bool_decide (e = ESC) && bool_decide (b = "["%char) then
        match skip_params (optional_question q t) with
        | String l r => if is_letter l then Some r else None
        | EmptyString => None
        end
      else None
  | _ => None
  end.

(** [s.replace(pattern, '')] with the [g] flag: scan from the left, drop
    each match and resume right after it. A match is never empty, so
    [length s] rounds are enough. *)
Fixpoint replace_go (q : bool) (fuel : nat) (s : string) : string :=
  match fuel with
  | O => s
  | S fuel' =>
      match s with
      | EmptyString => EmptyString
      | String c t =>
          match match_csi q s with
          | Some r => replace_go q fuel' r
          | None => String c (replace_go q fuel' t)
          end
      end
  end.

Definition replace_csi (q : bool) (s : string) : string :=
  replace_go q (String.length s) s.

(** [array.sort(compare)]: the sort is stable, and an element goes in
    front of another when [compare] does not put it after; insertion from
    the right into the sorted rest does exactly that. *)
Section Sort.
Context {A : Type} (compare : A -> A -> Z).

Fixpoint insert (x : A) (l : list A) : list A :=
  match l with
  | [] => [x]
  | y :: rest => if (compare x y <=? 0)%Z then x :: l else y :: insert x rest
  end.

Definition sort (l : list A) : list A := foldr insert [] l.

End Sort.

(** [array.slice(start)]: a negative [start] counts from the end. *)
Definition slice {A} (start : Z) (l : list A) : list A :=
  let len := Z.of_nat (length l) in
  let k := if (start <? 0)%Z then Z.max (len + start) 0 else Z.min start len in
  drop (Z.to_nat k) l.

(** [Number.prototype.toString()] of an integer. *)
Definition toString (n : Z) : string := pretty n.

End Js.

(** ** Runs, subscribers and the state of a server process *)

Inductive Status : Type := queued | running | done | failed.

Global Instance Status_eq_dec : EqDecision Status.
Proof. solve_decision. Defined.

Definition status_name (st : Status) : string :=
  match st with
  | queued => "queued"
  | running => "running"
  | done => "done"
  | failed => "failed"
  end.

Record Paths : Type := { runPath : Fs.path; workPath : Fs.path }.

(** The object stored by [runs.set(runId, { id, createdAt, status, baseUrl,
    filename, paths })]. [createdAt] is the [Date] in milliseconds. *)
Record Run : Type := {
  id : string;
  createdAt : Z;
  status : Status;
  baseUrl : option string;
  filename : string;
  paths : Paths
}.

Global Instance Run_inhabited : Inhabited Run :=
  populate {| id := ""; createdAt := 0; status := queued; baseUrl := None;
              filename := ""; paths := {| runPath := []; workPath := [] |} |}.

Definition with_status (st : Status) (r : Run) : Run :=
  {| id := id r; createdAt := createdAt r; status := st;
     baseUrl := baseUrl r; filename := filename r; paths := paths r |}.

(** [req.file] as multer's memory storage leaves it. [archive] is what
    [new AdmZip(file.buffer)] reads in the buffer: the files of the
    archive by their path inside it, or nothing when the constructor
    throws on bytes that are no archive. *)
Record Upload : Type := {
  originalname : string;
  buffer : string;
  archive : option (list (Fs.path * string))
}.

(** A POST /start as the handler sees it, with the three things it asks
    the runtime for: [new Date().toISOString()], [nanoid(6)] and the second
    [new Date()] stored as [createdAt]. *)
Record StartReq : Type := {
  file : option Upload;
  body_baseUrl : option string;
  isoNow : string;
  nonce : string;
  now : Z
}.

Record RunView : Type := {
  v_id : string;
  v_createdAt : Z;
  v_status : Status;
  v_baseUrl : option string;
  v_filename : string;
  v_videos : list string;
  v_screenshots : list string;
  v_resultsJson : option string
}.

(** JSON bodies of the replies. *)
Inductive Body : Type :=
| Started (runId stream : string)
| OneRun (v : RunView)
| AllRuns (vs : list RunView)
| NotOk (error : string).

(** What a handler did to a response object, in order; [ErrorPage] is
    the page of the framework's own error handler. *)
Inductive Chunk : Type :=
| Json (code : nat) (body : Body)
| ErrorPage (code : nat)
| Head (code : nat)
| Data (text : string)
| End.

(** The outcome of [spawn('cypress', ...)]: a child process, an 'error'
    event queued by the runtime (ENOENT, EACCES and the like), or an
    exception thrown by the call itself. *)
Inductive SpawnResult : Type :=
| Spawned
| SpawnError (message : string)
| SpawnThrows (message : string).

(** Where one invocation of [runCypress] stands: suspended at
    [await findConfigFile], supervising a live child, holding an 'error'
    event that has not been delivered yet, waiting for the 'close' that
    follows a delivered 'error', or over. *)
Inductive Phase : Type :=
| Probing
| Live
| ErrorPending (message : string)
| ErrorEmitted
| Exited.

(** The closure of one invocation: [runId], the [run] object it got from
    the registry, and [cypressCommand]. *)
Record Task : Type := {
  t_runId : string;
  t_run : nat;
  t_cmd : list string;
  t_phase : Phase
}.

Definition with_phase (ph : Phase) (t : Task) : Task :=
  {| t_runId := t_runId t; t_run := t_run t; t_cmd := t_cmd t; t_phase := ph |}.

Definition with_cmd (cmd : list string) (t : Task) : Task :=
  {| t_runId := t_runId t; t_run := t_run t; t_cmd := cmd; t_phase := t_phase t |}.

(** The state of the process: the heap of run objects, the two module
    level maps [runs] and [clients] (response objects are numbered), the
    disk, what went out on each response, the invocations of [runCypress]
    with the calls still to be made ([pending]), and the armed 250 ms
    timers. *)
Record Server : Type := {
  heap : list Run;
  runs : list (string * nat);
  clients : gmap string (list nat);
  disk : Fs.node;
  wire : gmap nat (list Chunk);
  tasks : list Task;
  pending : list string;
  timers : list string
}.

Definition boot (d : Fs.node) : Server :=
  {| heap := []; runs := []; clients := ∅; disk := d; wire := ∅;
     tasks := []; pending := []; timers := [] |}.

Definition on_heap (f : list Run -> list Run) (s : Server) : Server :=
  {| heap := f (heap s); runs := runs s; clients := clients s; disk := disk s;
     wire := wire s; tasks := tasks s; pending := pending s; timers := timers s |}.
Definition on_runs (f : list (string * nat) -> list (string * nat)) (s : Server) : Server :=
  {| heap := heap s; runs := f (runs s); clients := clients s; disk := disk s;
     wire := wire s; tasks := tasks s; pending := pending s; timers := timers s |}.
Definition on_clients (f : gmap string (list nat) -> gmap string (list nat)) (s : Server) : Server :=
  {| heap := heap s; runs := runs s; clients := f (clients s); disk := disk s;
     wire := wire s; tasks := tasks s; pending := pending s; timers := timers s |}.
Definition on_disk (f : Fs.node -> Fs.node) (s : Server) : Server :=
  {| heap := heap s; runs := runs s; clients := clients s; disk := f (disk s);
     wire := wire s; tasks := tasks s; pending := pending s; timers := timers s |}.
Definition on_wire (f : gmap nat (list Chunk) -> gmap nat (list Chunk)) (s : Server) : Server :=
  {| heap := heap s; runs := runs s; clients := clients s; disk := disk s;
     wire := f (wire s); tasks := tasks s; pending := pending s; timers := timers s |}.
Definition on_tasks (f : list Task -> list Task) (s : Server) : Server :=
  {| heap := heap s; runs := runs s; clients := clients s; disk := disk s;
     wire := wire s; tasks := f (tasks s); pending := pending s; timers := timers s |}.
Definition on_pending (f : list string -> list string) (s : Server) : Server :=
  {| heap := heap s; runs := runs s; clients := clients s; disk := disk s;
     wire := wire s; tasks := tasks s; pending := f (pending s); timers := timers s |}.
Definition on_timers (f : list string -> list string) (s : Server) : Server :=
  {| heap := heap s; runs := runs s; clients := clients s; disk := disk s;
     wire := wire s; tasks := tasks s; pending := pending s; timers := f (timers s) |}.

(** ** Handlers: state passing with exceptions

    A handler either returns or throws; what it did to the state before
    throwing stays done. *)

Inductive Outcome (A : Type) : Type :=
| Returned (a : A) (s : Server)
| Thrown (err : string) (s : Server).
Arguments Returned {A} a s.
Arguments Thrown {A} err s.

Definition Act (A : Type) : Type := Server -> Outcome A.

Global Instance Act_ret : MRet Act := fun A a s => Returned a s.
Global Instance Act_bind : MBind Act := fun A B f m s =>
  match m s with
  | Returned a s' => f a s'
  | Thrown e s' => Thrown e s'
  end.

Definition throw {A} (err : string) : Act A := fun s => Thrown err s.
Definition gets {A} (f : Server -> A) : Act A := fun s => Returned (f s) s.
Definition modify (f : Server -> Server) : Act () := fun s => Returned () (f s).

(** [try { body } catch (error) { handler(error.message) }] *)
Definition try_catch {A} (body : Act A) (handler : string -> Act A) : Act A :=
  fun s => match body s with
           | Returned a s' => Returned a s'
           | Thrown e s' => handler e s'
           end.

Fixpoint forEach {A} (l : list A) (f : A -> Act ()) : Act () :=
  match l with
  | [] => mret ()
  | x :: rest => f x;; forEach rest f
  end.

(** A synchronous call of [fs]. *)
Definition fs (op : Fs.node -> option Fs.node) (err : string) : Act () :=
  fun s => match op (disk s) with
           | Some d => Returned () (on_disk (fun _ => d) s)
           | None => Thrown err s
           end.

(** [res.write], [res.end], [res.json], [res.writeHead] on response [res]. *)
Definition send (res : nat) (c : Chunk) : Act () :=
  modify (on_wire (fun w => <[res := default [] (w !! res) ++ [c]]> w)).

(** [run.status = st] on the object behind a reference. *)
Definition set_status (r : nat) (st : Status) : Act () :=
  modify (on_heap (alter (with_status st) r)).

Definition deref (r : nat) : Act Run := gets (fun s => heap s !!! r).

(** A new object literal. *)
Definition alloc (run : Run) : Act nat :=
  r ← gets (fun s => length (heap s));
  modify (on_heap (fun h => h ++ [run]));;
  mret r.

Definition set_phase (t : nat) (ph : Phase) : Act () :=
  modify (on_tasks (alter (with_phase ph) t)).

(** [if (run.baseUrl)]: a string is truthy unless it is empty. *)
Definition truthy (o : option string) : bool :=
  match o with
  | Some s => negb (bool_decide (s = ""))
  | None => false
  end.

Definition pathsOf (runId : string) : Paths :=
  {| runPath := ["runs"; runId]; workPath := ["runs"; runId; "work"] |}.

(** [`${new Date().toISOString().replace(/[:.]/g, '-')}-${nanoid(6)}`] *)
Definition newRunId (req : StartReq) : string :=
  Js.dashed (isoNow req) +:+ "-" +:+ nonce req.

Definition invalidFileType : string :=
  "Invalid file type. Please upload a .zip or a .cy.{js,ts,mjs} file.".

(** [zip.extractAllTo(workPath, true)]: every file of the archive is
    written below [workPath], directories made as needed, existing files
    overwritten. *)
Definition extractAllTo (entries : list (Fs.path * string)) (target : Fs.path)
  : Act () :=
  forEach entries (fun e =>
    fs (Fs.apply_at true (target ++ e.1)
          (fun o => match o with
                    | Some (Fs.Dir _) => None
                    | _ => Some (Some (Fs.File e.2))
                    end))
       "extractAllTo").

(** The ordered list probed by [findConfigFile]. *)
Definition configFiles : list string :=
  ["cypress.config.mjs"; "cypress.config.ts"; "cypress.config.js";
   "cypress.config.cjs"; "cypress.json"].

(** [findConfigFile(workPath)]: the first of [configFiles] that [glob]
    finds below [workPath], [None] for [null]. *)
Definition findConfigFile (workPath : Fs.path) (d : Fs.node) : option string :=
  Fs.show <$> find (fun p => Fs.existsSync p d)
                   ((fun f => workPath ++ [f]) <$> configFiles).

(** The recursive walk shared by [getRunVideos] and [getRunScreenshots]:
    [walkDir(dir, baseUrl)] pushes [`${baseUrl}/${file}`] for every entry
    that is no directory and whose name [keep] accepts, and descends into
    the directories. The node is what [dir] holds; the walk is only ever
    started on a directory that [readdirSync] can read. *)
Fixpoint walkDir (keep : string -> bool) (n : Fs.node) (baseUrl : string)
  : list string :=
  match n with
  | Fs.File _ => []
  | Fs.Dir es =>
      (fix each (es : list (string * Fs.node)) : list string :=
         match es with
         | [] => []
         | (file, c) :: rest =>
             (if Fs.isDirectory c then walkDir keep c (Js.slash baseUrl file)
              else if keep file then [Js.slash baseUrl file] else [])
             ++ each rest
         end) es
  end.

(** ** server/index.js *)

Module Basic.

(** [clients.get(runId) || []] *)
Definition runClients (runId : string) (s : Server) : list nat :=
  default [] (clients s !! runId).

(** [data.replace(/\x1B\[[0-9;]*[a-zA-Z]/g, '')
         .replace(/\x1B\[[\?]?[0-9;]*[a-zA-Z]/g, '')] *)
Definition cleanData (data : string) : string :=
  Js.replace_csi true (Js.replace_csi false data).

(** [`data: ${cleanData}\n\n`] *)
Definition sse (text : string) : string :=
  "data: " +:+ text +:+ String Js.LF (String Js.LF "").

Definition broadcast (runId data : string) : Act () :=
  cs ← gets (runClients runId);
  forEach cs (fun client => send client (Data (sse (cleanData data)))).

(** The template literal that POST /start writes to cypress.config.cjs,
    from the backquote that opens it to the one that closes it: the line
    break it starts with and the indentation of the source are part of
    it. *)
Definition cypressConfigContent : string :=
  "
                        const { defineConfig } = require('cypress');
            
                        module.exports = defineConfig({
                            e2e: {
                                specPattern: 'cypress/e2e/**/*.cy.*',
                    supportFile: false,
                    video: true,
                            },
                        });
                    ".

(** POST /start. The handler ends on the call [runCypress(runId)], which
    runs on the spot up to its first [await]: the call is left in
    [pending] and is the only thing the process does next. *)
Definition start (req : StartReq) (res : nat) : Act () :=
  f ← match file req with
      | Some f => mret f
      | None => throw "TypeError: Cannot read properties of undefined"
      end;
  let runId := newRunId req in
  let runPath := ["runs"; runId] in
  let workPath := runPath ++ ["work"] in
  fs (Fs.mkdirSync runPath) "mkdirSync";;
  fs (Fs.mkdirSync workPath) "mkdirSync";;
  let isZip := Js.endsWith (originalname f) ".zip" in
  let isSpec := Js.isSpecName (originalname f) in
  if isZip || isSpec then
    (if isZip then
       match archive f with
       | Some entries => extractAllTo entries workPath
       | None => throw "Invalid or unsupported zip format"
       end
     else
       let specPath := workPath ++ ["cypress"; "e2e"] in
       fs (Fs.mkdirSync specPath) "mkdirSync";;
       fs (Fs.writeFileSync (specPath ++ [originalname f]) (buffer f)) "writeFileSync";;
       fs (Fs.writeFileSync (workPath ++ ["cypress.config.cjs"]) cypressConfigContent)
          "writeFileSync");;
    r ← alloc {| id := runId; createdAt := now req; status := queued;
                 baseUrl := body_baseUrl req; filename := originalname f;
                 paths := {| runPath := runPath; workPath := workPath |} |};
    modify (on_runs (Assoc.set runId r));;
    send res (Json 200 (Started runId ("/runs/" +:+ runId +:+ "/stream")));;
    modify (on_pending (fun _ => [runId]))
  else
    send res (Json 400 (NotOk invalidFileType)).

(** GET /runs/:id/stream, and the ['close'] listener it puts on the
    request. *)
Definition stream (runId : string) (res : nat) : Act () :=
  send res (Head 200);;
  modify (on_clients (fun c => <[runId := default [] (c !! runId) ++ [res]]> c)).

Definition stream_closed (runId : string) (res : nat) : Act () :=
  cs ← gets (runClients runId);
  modify (on_clients (fun c => <[runId := filter (fun c => c ≠ res) cs]> c)).

(** [runCypress(runId)] up to [await findConfigFile(...)]. *)
Definition runCypress (runId : string) : Act () :=
  r ← (o ← gets (fun s => Assoc.get runId (runs s));
       match o with
       | Some r => mret r
       | None => throw "TypeError: Cannot set properties of undefined"
       end);
  set_status r running;;
  run ← deref r;
  let videosFolder := runPath (paths run) ++ ["cypress"; "videos"] in
  let screenshotsFolder := runPath (paths run) ++ ["cypress"; "screenshots"] in
  let resultsFolder := runPath (paths run) ++ ["results"] in
  fs (Fs.mkdirSync videosFolder) "mkdirSync";;
  fs (Fs.mkdirSync screenshotsFolder) "mkdirSync";;
  fs (Fs.mkdirSync resultsFolder) "mkdirSync";;
  let cypressCommand :=
    ["run"; "--project"; Fs.show (workPath (paths run));
     "--browser"; "chrome"; "--headless";
     "--config"; "videosFolder=" +:+ Fs.show videosFolder
                 +:+ ",screenshotsFolder=" +:+ Fs.show screenshotsFolder;
     "--reporter"; "json";
     "--reporter-options";
     "output=" +:+ Fs.show (resultsFolder ++ ["results.json"])]
    ++ (if truthy (baseUrl run)
        then ["--config"; "baseUrl=" +:+ default "" (baseUrl run)]
        else []) in
  modify (on_tasks (fun ts => ts ++ [{| t_runId := runId; t_run := r;
                                        t_cmd := cypressCommand;
                                        t_phase := Probing |}])).

(** The rest of [runCypress], once [findConfigFile] has answered:
    the last arguments, then [spawn]. The listeners on stdout, stderr and
    'close' are the handlers below; there is no listener for 'error'. *)
Definition runCypress_resumed (t : nat) (task : Task) (sp : SpawnResult)
  : Act () :=
  run ← deref (t_run task);
  configFile ← gets (fun s => findConfigFile (workPath (paths run)) (disk s));
  let cypressCommand :=
    t_cmd task ++
    match configFile with
    | Some f => ["--config-file"; f]
    | None => ["--spec"; Fs.show (workPath (paths run) ++ ["cypress"; "e2e"; "**"; "*.cy.*"])]
    end in
  modify (on_tasks (alter (with_cmd cypressCommand) t));;
  match sp with
  | Spawned => set_phase t Live
  | SpawnError m => set_phase t (ErrorPending m)
  | SpawnThrows m => throw m
  end.

(** [cypressProcess.stdout.on('data', ...)] and the same on stderr. *)
Definition on_data (task : Task) (data : string) : Act () :=
  broadcast (t_runId task) data.

(** [cypressProcess.on('close', (code) => ...)]; [code] is [null] when a
    signal ended the child. *)
Definition on_close (t : nat) (task : Task) (code : option Z) : Act () :=
  set_status (t_run task) (if bool_decide (code = Some 0%Z) then done else failed);;
  run ← deref (t_run task);
  text ← match code with
         | Some c => mret (Js.toString c)
         | None => throw "TypeError: Cannot read properties of null"
         end;
  fs (Fs.writeFileSync (runPath (paths run) ++ ["exit-code.txt"]) text) "writeFileSync";;
  let workVideos := workPath (paths run) ++ ["cypress"; "videos"] in
  let workScreenshots := workPath (paths run) ++ ["cypress"; "screenshots"] in
  let targetVideos := runPath (paths run) ++ ["cypress"; "videos"] in
  let targetScreenshots := runPath (paths run) ++ ["cypress"; "screenshots"] in
  d1 ← gets disk;
  (if Fs.existsSync workVideos d1
   then fs (Fs.cpSync workVideos targetVideos) "cpSync" else mret ());;
  d2 ← gets disk;
  (if Fs.existsSync workScreenshots d2
   then fs (Fs.cpSync workScreenshots targetScreenshots) "cpSync" else mret ());;
  broadcast (t_runId task)
    ("RUN_DONE status=" +:+ status_name (status run) +:+ " code=" +:+ text);;
  modify (on_timers (fun l => l ++ [t_runId task]));;
  set_phase t Exited.

(** The callback of [setTimeout(..., 250)]. *)
Definition on_timeout (runId : string) : Act () :=
  cs ← gets (runClients runId);
  forEach cs (fun client => send client End);;
  modify (on_clients (delete runId)).

(** The three artifact queries. *)
Definition getRunVideos (runId : string) : Act (list string) :=
  o ← gets (fun s => Assoc.get runId (runs s));
  match o with
  | None => mret []
  | Some r =>
      run ← deref r;
      let videosPath := runPath (paths run) ++ ["cypress"; "videos"] in
      d ← gets disk;
      match Fs.lookup videosPath (Some d) with
      | None => mret []
      | Some (Fs.File _) => throw "ENOTDIR: not a directory, scandir"
      | Some n =>
          mret (walkDir Js.matches_mp4 n ("/videos/" +:+ runId +:+ "/cypress/videos"))
      end
  end.

Definition getRunScreenshots (runId : string) : Act (list string) :=
  o ← gets (fun s => Assoc.get runId (runs s));
  match o with
  | None => mret []
  | Some r =>
      run ← deref r;
      let screenshotsPath := runPath (paths run) ++ ["cypress"; "screenshots"] in
      d ← gets disk;
      match Fs.lookup screenshotsPath (Some d) with
      | None => mret []
      | Some (Fs.File _) => throw "ENOTDIR: not a directory, scandir"
      | Some n =>
          mret (walkDir Js.matches_image n
                  ("/screenshots/" +:+ runId +:+ "/cypress/screenshots"))
      end
  end.

Definition getRunResults (runId : string) : Act (option string) :=
  o ← gets (fun s => Assoc.get runId (runs s));
  match o with
  | None => mret None
  | Some r =>
      run ← deref r;
      let resultsPath := runPath (paths run) ++ ["results"; "results.json"] in
      d ← gets disk;
      if Fs.existsSync resultsPath d
      then mret (Some ("/results/" +:+ runId +:+ "/results/results.json"))
      else mret None
  end.

Definition view (run : Run) : Act RunView :=
  videos ← getRunVideos (id run);
  screenshots ← getRunScreenshots (id run);
  resultsJson ← getRunResults (id run);
  mret {| v_id := id run; v_createdAt := createdAt run; v_status := status run;
          v_baseUrl := baseUrl run; v_filename := filename run;
          v_videos := videos; v_screenshots := screenshots;
          v_resultsJson := resultsJson |}.

Fixpoint views (l : list Run) : Act (list RunView) :=
  match l with
  | [] => mret []
  | run :: rest => v ← view run; vs ← views rest; mret (v :: vs)
  end.

(** GET /runs and GET /runs/:id *)
Definition list_runs (res : nat) : Act () :=
  runList ← gets (fun s =>
    Js.sort (fun a b => (createdAt b - createdAt a)%Z)
            ((fun e => heap s !!! e.2) <$> runs s));
  vs ← views runList;
  send res (Json 200 (AllRuns vs)).

Definition get_run (runId : string) (res : nat) : Act () :=
  o ← gets (fun s => Assoc.get runId (runs s));
  match o with
  | None => send res (Json 404 (NotOk "Run not found"))
  | Some r => run ← deref r; v ← view run; send res (Json 200 (OneRun v))
  end.

(** *** The process as a transition system

    One event is one turn of the event loop. [Call] is the pending
    synchronous call of [runCypress]; [Resume] is the continuation after
    [await], with what [spawn] then does; the [Child] events are those the
    runtime emits on the child process of an invocation. *)
Inductive Event : Type :=
| PostStart (req : StartReq) (res : nat)
| Call
| Resume (t : nat) (sp : SpawnResult)
| ChildData (t : nat) (data : string)
| ChildError (t : nat)
| ChildClose (t : nat) (code : option Z)
| Timeout (runId : string)
| GetStream (runId : string) (res : nat)
| StreamClosed (runId : string) (res : nat)
| GetRuns (res : nat)
| GetRun (runId : string) (res : nat).

(** What becomes of the process: it goes on, it dies on an uncaught
    exception, or the event cannot occur in that state. *)
Inductive Next : Type :=
| Continue (s : Server)
| Crash
| Impossible.

(** An exception that leaves a listener or a timer callback is uncaught;
    so is the rejection of the promise of [runCypress], which nobody
    awaits. *)
Definition uncaught (o : Outcome ()) : Next :=
  match o with
  | Returned _ s => Continue s
  | Thrown _ _ => Crash
  end.

(** An exception in a synchronous route handler goes to the error page of
    the framework. *)
Definition guarded (res : nat) (o : Outcome ()) : Next :=
  match o with
  | Returned _ s => Continue s
  | Thrown _ s =>
      match send res (ErrorPage 500) s with
      | Returned _ s' | Thrown _ s' => Continue s'
      end
  end.

(** The /start handler is an [async] function that the framework calls
    without looking at the promise it returns: an exception in it rejects
    that promise, nobody handles the rejection, and the runtime the
    repository asks for ends the process on it. *)
Definition rejected (o : Outcome ()) : Next :=
  match o with
  | Returned _ s => Continue s
  | Thrown _ _ => Crash
  end.

Fixpoint remove_first (x : string) (l : list string) : option (list string) :=
  match l with
  | [] => None
  | y :: rest =>
      if decide (y = x) then Some rest else cons y <$> remove_first x rest
  end.

Definition step (ev : Event) (s : Server) : Next :=
  match pending s with
  | runId :: _ =>
      match ev with
      | Call => uncaught (runCypress runId (on_pending (fun _ => []) s))
      | _ => Impossible
      end
  | [] =>
      match ev with
      | PostStart req res => rejected (start req res s)
      | Call => Impossible
      | Resume t sp =>
          match tasks s !! t with
          | Some task =>
              match t_phase task with
              | Probing => uncaught (runCypress_resumed t task sp s)
              | _ => Impossible
              end
          | None => Impossible
          end
      | ChildData t data =>
          match tasks s !! t with
          | Some task =>
              match t_phase task with
              | Live => uncaught (on_data task data s)
              | _ => Impossible
              end
          | None => Impossible
          end
      | ChildError t =>
          match tasks s !! t with
          | Some task =>
              match t_phase task with
              | ErrorPending _ => Crash
              | _ => Impossible
              end
          | None => Impossible
          end
      | ChildClose t code =>
          match tasks s !! t with
          | Some task =>
              match t_phase task with
              | Live => uncaught (on_close t task code s)
              | _ => Impossible
              end
          | None => Impossible
          end
      | Timeout runId =>
          match remove_first runId (timers s) with
          | Some rest => uncaught (on_timeout runId (on_timers (fun _ => rest) s))
          | None => Impossible
          end
      | GetStream runId res => uncaught (stream runId res s)
      | StreamClosed runId res => uncaught (stream_closed runId res s)
      | GetRuns res => guarded res (list_runs res s)
      | GetRun runId res => guarded res (get_run runId res s)
      end
  end.

(** The process after a sequence of events. *)
Fixpoint after (evs : list Event) (s : Server) : Next :=
  match evs with
  | [] => Continue s
  | ev :: rest =>
      match step ev s with
      | Continue s' => after rest s'
      | Crash => Crash
      | Impossible => Impossible
      end
  end.

(** The states the process can be in, started on a disk [d]. *)
Inductive reachable (d : Fs.node) : Server -> Prop :=
| reach_boot : reachable d (boot d)
| reach_step s ev s' :
    reachable d s -> step ev s = Continue s' -> reachable d s'.

End Basic.

(** ** The revision of index.js with guarded start-up *)

Module Fixed.

Definition cypressConfigContent : string :=
  "const { defineConfig } = require('cypress');

module.exports = defineConfig({
    e2e: {
        specPattern: 'cypress/e2e/**/*.cy.*',
        supportFile: false,
        video: true,
    },
});".

(** POST /start. Everything sits in a [try] whose [catch] answers 500
    with the message; the two [mkdirSync] have a [try] of their own that
    rethrows under a longer message. [setImmediate(() => runCypress(runId))]
    queues the call. *)
Definition start (req : StartReq) (res : nat) : Act () :=
  try_catch
    (match file req with
     | None => send res (Json 400 (NotOk "No file uploaded"))
     | Some f =>
         let runId := newRunId req in
         let runPath := ["runs"; runId] in
         let workPath := runPath ++ ["work"] in
         try_catch
           (fs (Fs.mkdirSync runPath) "mkdirSync";;
            fs (Fs.mkdirSync workPath) "mkdirSync")
           (fun m => throw ("Failed to create run directories: " +:+ m));;
         let isZip := Js.endsWith (Js.toLowerCase (originalname f)) ".zip" in
         let isSpec := Js.isSpecName (originalname f) in
         if isZip || isSpec then
           (if isZip then
              match archive f with
              | Some entries => extractAllTo entries workPath
              | None => throw "Invalid or unsupported zip format"
              end
            else
              let specPath := workPath ++ ["cypress"; "e2e"] in
              fs (Fs.mkdirSync specPath) "mkdirSync";;
              fs (Fs.writeFileSync (specPath ++ [originalname f]) (buffer f))
                 "writeFileSync";;
              fs (Fs.writeFileSync (workPath ++ ["cypress.config.cjs"])
                    cypressConfigContent) "writeFileSync");;
           r ← alloc {| id := runId; createdAt := now req; status := queued;
                        baseUrl := body_baseUrl req; filename := originalname f;
                        paths := {| runPath := runPath; workPath := workPath |} |};
           modify (on_runs (Assoc.set runId r));;
           send res (Json 200 (Started runId ("/runs/" +:+ runId +:+ "/stream")));;
           modify (on_pending (fun l => l ++ [runId]))
         else
           send res (Json 400 (NotOk invalidFileType))
     end)
    (fun m => send res (Json 500 (NotOk (if bool_decide (m = "")
                                         then "Internal server error" else m)))).

End Fixed.

(** ** server/index-improved.js *)

(** The part of config.js the supervisor and the sweeper read. *)
Record Config : Type := {
  browser : string;
  videoEnabled : bool;
  maxRunsRetention : Z
}.

(** The values of config.js when the environment sets nothing. *)
Definition defaults : Config :=
  {| browser := "chrome"; videoEnabled := true; maxRunsRetention := 50 |}.

Module Improved.

Definition runClients (runId : string) (s : Server) : list nat :=
  default [] (clients s !! runId).

Definition sse (text : string) : string :=
  "data: " +:+ text +:+ String Js.LF (String Js.LF "").

(** [broadcast] writes the data as it comes; the child is started with
    [NO_COLOR=1] instead. *)
Definition broadcast (runId data : string) : Act () :=
  cs ← gets (runClients runId);
  forEach cs (fun client =>
    try_catch (send client (Data (sse data))) (fun _ => mret ())).

(** GET /runs/:id/stream *)
Definition stream (runId : string) (res : nat) : Act () :=
  known ← gets (fun s => Assoc.has runId (runs s));
  if negb known then
    send res (Json 404 (NotOk "Run not found"))
  else
    send res (Head 200);;
    modify (on_clients (fun c => <[runId := default [] (c !! runId) ++ [res]]> c)).

Definition stream_closed (runId : string) (res : nat) : Act () :=
  cs ← gets (runClients runId);
  modify (on_clients (fun c => <[runId := filter (fun c => c ≠ res) cs]> c)).

(** The [catch] of [runCypress]. *)
Definition runCypress_failed (runId : string) (r : nat) (message : string)
  : Act () :=
  set_status r failed;;
  broadcast runId ("ERROR: " +:+ message).

(** [runCypress(runId)] up to [await findConfigFile(...)]. *)
Definition runCypress (cfg : Config) (runId : string) : Act () :=
  o ← gets (fun s => Assoc.get runId (runs s));
  match o with
  | None => mret ()
  | Some r =>
      try_catch
        (set_status r running;;
         run ← deref r;
         let videosFolder := runPath (paths run) ++ ["cypress"; "videos"] in
         let screenshotsFolder := runPath (paths run) ++ ["cypress"; "screenshots"] in
         let resultsFolder := runPath (paths run) ++ ["results"] in
         fs (Fs.mkdirSync videosFolder) "mkdirSync";;
         fs (Fs.mkdirSync screenshotsFolder) "mkdirSync";;
         fs (Fs.mkdirSync resultsFolder) "mkdirSync";;
         let cypressCommand :=
           ["run"; "--project"; Fs.show (workPath (paths run));
            "--browser"; browser cfg; "--headless"; "--config"]
           ++ (if truthy (baseUrl run)
               then ["baseUrl=" +:+ default "" (baseUrl run) +:+ ","]
               else [])
           ++ ["videosFolder=" +:+ Fs.show videosFolder
               +:+ ",screenshotsFolder=" +:+ Fs.show screenshotsFolder;
               "--reporter"; "json";
               "--reporter-options";
               "output=" +:+ Fs.show (resultsFolder ++ ["results.json"])] in
         modify (on_tasks (fun ts => ts ++ [{| t_runId := runId; t_run := r;
                                               t_cmd := cypressCommand;
                                               t_phase := Probing |}])))
        (runCypress_failed runId r)
  end.

(** The rest of [runCypress], still inside its [try]. *)
Definition runCypress_resumed (t : nat) (task : Task) (sp : SpawnResult)
  : Act () :=
  try_catch
    (run ← deref (t_run task);
     configFile ← gets (fun s => findConfigFile (workPath (paths run)) (disk s));
     let cypressCommand :=
       t_cmd task ++
       match configFile with
       | Some f => ["--config-file"; f]
       | None => ["--spec"; Fs.show (workPath (paths run) ++ ["cypress"; "e2e"; "**"; "*.cy.*"])]
       end in
     modify (on_tasks (alter (with_cmd cypressCommand) t));;
     match sp with
     | Spawned => set_phase t Live
     | SpawnError m => set_phase t (ErrorPending m)
     | SpawnThrows m => throw m
     end)
    (fun m => set_phase t Exited;; runCypress_failed (t_runId task) (t_run task) m).

Definition on_data (task : Task) (message : string) : Act () :=
  broadcast (t_runId task) message.

(** [cypressProcess.on('error', (error) => ...)] *)
Definition on_error (t : nat) (task : Task) (message : string) : Act () :=
  set_status (t_run task) failed;;
  broadcast (t_runId task) ("ERROR: " +:+ message);;
  set_phase t ErrorEmitted.

(** [cypressProcess.on('close', (code) => ...)] *)
Definition on_close (t : nat) (task : Task) (code : option Z) : Act () :=
  set_status (t_run task) (if bool_decide (code = Some 0%Z) then done else failed);;
  run ← deref (t_run task);
  text ← match code with
         | Some c => mret (Js.toString c)
         | None => throw "TypeError: Cannot read properties of null"
         end;
  fs (Fs.writeFileSync (runPath (paths run) ++ ["exit-code.txt"]) text) "writeFileSync";;
  broadcast (t_runId task)
    ("RUN_DONE status=" +:+ status_name (status run) +:+ " code=" +:+ text);;
  modify (on_timers (fun l => l ++ [t_runId task]));;
  set_phase t Exited.

Definition on_timeout (runId : string) : Act () :=
  cs ← gets (runClients runId);
  forEach cs (fun client => try_catch (send client End) (fun _ => mret ()));;
  modify (on_clients (delete runId)).

(** [fs.rmSync(p, { recursive: true, force: true })] under an operating
    system that refuses some removals (EACCES, EPERM, EBUSY); what it
    refuses is its own business, [refuses]. *)
Definition rmSync (refuses : Fs.path -> bool) (p : Fs.path) : Act () :=
  if refuses p then throw "EACCES: permission denied, rm"
  else fs (Fs.rmSync p) "rmSync".

(** [Array.from(runs.entries()).sort((a, b) => b[1].createdAt - a[1].createdAt)] *)
Definition runsArray (s : Server) : list (string * nat) :=
  Js.sort (fun a b => (createdAt (heap s !!! b.2) - createdAt (heap s !!! a.2))%Z)
          (runs s).

Definition toDelete (cfg : Config) (s : Server) : list (string * nat) :=
  if (maxRunsRetention cfg <? Z.of_nat (length (runsArray s)))%Z
  then Js.slice (maxRunsRetention cfg) (runsArray s)
  else [].

(** The body of [toDelete.forEach(([runId, run]) => ...)], with its own
    [try] and [catch]. *)
Definition removeRun (refuses : Fs.path -> bool) (e : string * nat) : Act () :=
  try_catch
    (run ← deref e.2;
     rmSync refuses (runPath (paths run));;
     modify (on_runs (Assoc.delete e.1)))
    (fun _ => mret ()).

(** [cleanupOldRuns()] *)
Definition cleanupOldRuns (cfg : Config) (refuses : Fs.path -> bool) : Act () :=
  try_catch
    (doomed ← gets (toDelete cfg);
     forEach doomed (removeRun refuses))
    (fun _ => mret ()).

(** The artifact queries of index-improved.js. [getRunVideos] reads the
    one directory and keeps the names that end in .mp4; [getRunScreenshots]
    walks the tree; both turn an exception of the reading into the empty
    list. *)
Definition getRunVideos (runId : string) : Act (list string) :=
  o ← gets (fun s => Assoc.get runId (runs s));
  match o with
  | None => mret []
  | Some r =>
      run ← deref r;
      let videosPath := runPath (paths run) ++ ["cypress"; "videos"] in
      d ← gets disk;
      if negb (Fs.existsSync videosPath d) then mret []
      else
        try_catch
          (match Fs.readdirSync videosPath d with
           | Some files =>
               mret ((fun file => "/videos/" +:+ runId +:+ "/cypress/videos/" +:+ file)
                     <$> List.filter (fun file => Js.endsWith file ".mp4") files)
           | None => throw "ENOTDIR: not a directory, scandir"
           end)
          (fun _ => mret [])
  end.

Definition getRunScreenshots (runId : string) : Act (list string) :=
  o ← gets (fun s => Assoc.get runId (runs s));
  match o with
  | None => mret []
  | Some r =>
      run ← deref r;
      let screenshotsPath := runPath (paths run) ++ ["cypress"; "screenshots"] in
      d ← gets disk;
      match Fs.lookup screenshotsPath (Some d) with
      | None => mret []
      | Some n =>
          try_catch
            (match n with
             | Fs.File _ => throw "ENOTDIR: not a directory, scandir"
             | Fs.Dir _ =>
                 mret (walkDir Js.matches_image n
                         ("/screenshots/" +:+ runId +:+ "/cypress/screenshots"))
             end)
            (fun _ => mret [])
      end
  end.

Definition getRunResults (runId : string) : Act (option string) :=
  o ← gets (fun s => Assoc.get runId (runs s));
  match o with
  | None => mret None
  | Some r =>
      run ← deref r;
      let resultsPath := runPath (paths run) ++ ["results"; "results.json"] in
      d ← gets disk;
      if Fs.existsSync resultsPath d
      then mret (Some ("/results/" +:+ runId +:+ "/results/results.json"))
      else mret None
  end.

Definition cypressConfigContent (cfg : Config) : string :=
  "const { defineConfig } = require('cypress');

module.exports = defineConfig({
    e2e: {
        specPattern: 'cypress/e2e/**/*.cy.*',
        supportFile: false,
        video: " +:+ (if videoEnabled cfg then "true" else "false") +:+ ",
    },
});
".

(** POST /start, for a request that multer's [fileFilter] has let
    through. [isValidUrl] is the verdict of the platform's URL parser on
    [baseUrl] (an http or https URL). The handler queues the call of
    [runCypress] with [setImmediate] and sweeps before it returns; its
    [catch] answers 500. *)
Definition start (cfg : Config) (isValidUrl : string -> bool)
    (refuses : Fs.path -> bool) (req : StartReq) (res : nat) : Act () :=
  try_catch
    (match file req with
     | None => send res (Json 400 (NotOk "No file uploaded"))
     | Some f =>
         if truthy (body_baseUrl req) && negb (isValidUrl (default "" (body_baseUrl req)))
         then send res (Json 400 (NotOk "Invalid baseUrl format. Must be a valid HTTP(S) URL."))
         else
           let runId := newRunId req in
           let runPath := ["runs"; runId] in
           let workPath := runPath ++ ["work"] in
           fs (Fs.mkdirSync runPath) "mkdirSync";;
           fs (Fs.mkdirSync workPath) "mkdirSync";;
           let isZip := Js.endsWith (Js.toLowerCase (originalname f)) ".zip" in
           let isSpec := Js.isSpecName (originalname f) in
           if isZip || isSpec then
             (if isZip then
                match archive f with
                | Some entries => extractAllTo entries workPath
                | None => throw "Invalid or unsupported zip format"
                end
              else
                let specPath := workPath ++ ["cypress"; "e2e"] in
                fs (Fs.mkdirSync specPath) "mkdirSync";;
                fs (Fs.writeFileSync (specPath ++ [originalname f]) (buffer f))
                   "writeFileSync";;
                fs (Fs.writeFileSync (workPath ++ ["cypress.config.cjs"])
                      (cypressConfigContent cfg)) "writeFileSync");;
             r ← alloc {| id := runId; createdAt := now req; status := queued;
                          baseUrl := body_baseUrl req; filename := originalname f;
                          paths := {| runPath := runPath; workPath := workPath |} |};
             modify (on_runs (Assoc.set runId r));;
             send res (Json 200 (Started runId ("/runs/" +:+ runId +:+ "/stream")));;
             modify (on_pending (fun l => l ++ [runId]));;
             cleanupOldRuns cfg refuses
           else
             send res (Json 400 (NotOk invalidFileType))
     end)
    (fun _ => send res (Json 500 (NotOk "Failed to start Cypress run"))).

End Improved.

(** ** Vocabulary of the statements *)

(** The moves of a status that the life cycle allows. *)
Definition advance (a b : Status) : Prop :=
  (a = queued /\ b = running) \/ (a = running /\ (b = done \/ b = failed)).

Definition terminal (a : Status) : Prop := a = done \/ a = failed.

(** A text without the ESC code unit. *)
Fixpoint esc_free (s : string) : bool :=
  match s with
  | EmptyString => true
  | String c t => negb (bool_decide (c = Js.ESC)) && esc_free t
  end.

(** A chunk of output cut into its pieces: a code unit that is not ESC,
    or one complete sequence ESC [ (?) parameters letter. *)
Inductive Piece : Type :=
| Plain (c : ascii)
| Csi (q : bool) (params : string) (final : ascii).

Fixpoint all_params (s : string) : bool :=
  match s with
  | EmptyString => true
  | String c t => Js.is_param c && all_params t
  end.

Definition piece_ok (p : Piece) : bool :=
  match p with
  | Plain c => negb (bool_decide (c = Js.ESC))
  | Csi _ params final => all_params params && Js.is_letter final
  end.

Definition piece_text (p : Piece) : string :=
  match p with
  | Plain c => String c ""
  | Csi q params final =>
      String Js.ESC (String "[" ((if q then "?" else "") +:+ params +:+ String final ""))
  end.

(** The chunk the pieces spell, and what is left of it without the
    sequences. *)
Definition spell (ps : list Piece) : string :=
  foldr (fun p acc => piece_text p +:+ acc) "" ps.

Definition plain_text (ps : list Piece) : string :=
  foldr (fun p acc => match p with Plain c => String c acc | Csi _ _ _ => acc end) "" ps.

(** What ties the invocations of [runCypress] to the run objects in
    server/index.js: an invocation holds an object of the heap, no two
    hold the same, the object of an invocation that is not over is
    [running], and a call that is still to be made is for a registered
    [queued] object that no invocation holds. *)
Definition supervised (ph : Phase) : Prop :=
  ph = Probing \/ ph = Live \/ (exists m, ph = ErrorPending m).

Record Basic_inv (s : Server) : Prop := {
  inv_refs : forall t task, tasks s !! t = Some task -> (t_run task < length (heap s))%nat;
  inv_nodup : NoDup (t_run <$> tasks s);
  inv_running : forall t task, tasks s !! t = Some task -> supervised (t_phase task) ->
                status (heap s !!! t_run task) = running;
  inv_pending : match pending s with
                | [] => True
                | [runId] => exists r, Assoc.get runId (runs s) = Some r /\
                                       (r < length (heap s))%nat /\
                                       status (heap s !!! r) = queued /\
                                       r ∉ (t_run <$> tasks s)
                | _ => False
                end
}.


(** What C10 says of a /start handler on a request: it answers 400 with
    the message for a wrong file type, registers nothing, and the run
    directory and its work directory are on the disk afterwards. *)
Definition refused_with_orphans (start : StartReq -> nat -> Act ())
    (req : StartReq) (res : nat) (s : Server) : Prop :=
  exists s',
    start req res s = Returned () s' /\
    wire s' !! res = Some (default [] (wire s !! res)
                           ++ [Json 400 (NotOk invalidFileType)]) /\
    runs s' = runs s /\ heap s' = heap s /\ pending s' = pending s /\
    (exists es, Fs.lookup ["runs"; newRunId req] (Some (disk s')) = Some (Fs.Dir es)) /\
    (exists es, Fs.lookup ["runs"; newRunId req; "work"] (Some (disk s'))
                = Some (Fs.Dir es)).

(** ** Sample inputs *)

Definition upload_txt : Upload :=
  {| originalname := "notes.txt"; buffer := "hello"; archive := None |}.

Definition start_txt : StartReq :=
  {| file := Some upload_txt; body_baseUrl := None;
     isoNow := "2024-01-01T10:00:00.000Z"; nonce := "abc123"; now := 1000 |}.

Definition disk0 : Fs.node := Fs.Dir [("runs", Fs.Dir [])].


Definition upload_spec : Upload :=
  {| originalname := "demo.cy.js"; buffer := "it('works', () => {})"; archive := None |}.

Definition start_A : StartReq :=
  {| file := Some upload_spec; body_baseUrl := Some "https://example.com";
     isoNow := "2024-01-01T10:00:00.000Z"; nonce := "abc123"; now := 1000 |}.

Definition start_B : StartReq :=
  {| file := Some upload_spec; body_baseUrl := None;
     isoNow := "2024-01-01T10:00:05.000Z"; nonce := "xyz789"; now := 6000 |}.

Definition id_A : string := Eval vm_compute in newRunId start_A.
Definition id_B : string := Eval vm_compute in newRunId start_B.

(** The server of index.js after these events, [boot disk0] if they
    cannot happen. *)
Definition Basic_state (evs : list Basic.Event) : Server :=
  match Basic.after evs (boot disk0) with
  | Basic.Continue s => s
  | _ => boot disk0
  end.

(** Run A has been accepted; [runCypress] has not been entered. *)
Definition s_accepted : Server :=
  Eval vm_compute in Basic_state [Basic.PostStart start_A 0%nat].

(** Run A is supervised, with one subscriber. *)
Definition s_live : Server :=
  Eval vm_compute in
    Basic_state [Basic.PostStart start_A 0%nat; Basic.Call;
                 Basic.Resume 0%nat Spawned; Basic.GetStream id_A 1%nat].

(** The same, and run B has been accepted but there is no [cypress] to
    spawn for it: the runtime holds the 'error' event. *)
Definition s_live_and_failing : Server :=
  Eval vm_compute in
    Basic_state [Basic.PostStart start_A 0%nat; Basic.Call;
                 Basic.Resume 0%nat Spawned; Basic.GetStream id_A 1%nat;
                 Basic.PostStart start_B 2%nat; Basic.Call;
                 Basic.Resume 1%nat (SpawnError "spawn cypress ENOENT")].

(** What [forEach] over subscribers [cs] with one chunk [x] does to the
    responses. *)
Definition deliver (x : Chunk) (cs : list nat) (w : gmap nat (list Chunk))
  : gmap nat (list Chunk) :=
  foldl (fun w c => <[c := default [] (w !! c) ++ [x]]> w) w cs.

(** A piece that the pattern with or without the question mark leaves
    in place. *)
Definition survives (q : bool) (p : Piece) : bool :=
  match p with
  | Plain _ => true
  | Csi q' _ _ => q' && negb q
  end.

(** ESC c, the reset of the terminal. *)
Definition reset_terminal : string := String Js.ESC "c".

(** The part of the state the supervision of runs lives in, apart from
    the disk, the subscribers, the responses and the timers. *)
Definition control (s : Server)
  : list Run * list (string * nat) * list Task * list string :=
  (heap s, runs s, tasks s, pending s).

(** An action that leaves that part alone, whether it returns or throws. *)
Definition quiet {A} (m : Act A) : Prop :=
  forall s, match m s with
            | Returned _ s' | Thrown _ s' => control s' = control s
            end.

(** How the statuses of the run objects may differ between a state and
    the next: the objects stay, each keeps its status or makes one move of
    the life cycle, and an object that is new is [queued]. *)
Definition moves (s s' : Server) : Prop :=
  (length (heap s) <= length (heap s'))%nat /\
  (forall r, (r < length (heap s))%nat ->
     status (heap s' !!! r) = status (heap s !!! r) \/
     advance (status (heap s !!! r)) (status (heap s' !!! r))) /\
  (forall r, (length (heap s) <= r < length (heap s'))%nat ->
     status (heap s' !!! r) = queued).

(** The run object made by POST /start. *)
Definition newRun (req : StartReq) (f : Upload) : Run :=
  {| id := newRunId req; createdAt := now req; status := queued;
     baseUrl := body_baseUrl req; filename := originalname f;
     paths := {| runPath := ["runs"; newRunId req];
                 workPath := ["runs"; newRunId req; "work"] |} |}.

(** The invocation of [runCypress] for run A in [s_live]. *)
Definition task_A : Task :=
  Eval vm_compute in
    match tasks s_live with
    | task :: _ => task
    | [] => {| t_runId := ""; t_run := 0; t_cmd := []; t_phase := Exited |}
    end.

(** Run A has ended on exit code 0. *)
Definition s_closed : Server :=
  Eval vm_compute in
    match Basic.on_close 0%nat task_A (Some 0%Z) s_live with
    | Returned _ s' | Thrown _ s' => s'
    end.

(** *** index-improved.js at work

    The retention is set to one run; the platform accepts every base URL
    and removes what it is asked to remove. *)
Definition keep_one : Config :=
  {| browser := "chrome"; videoEnabled := true; maxRunsRetention := 1 |}.

Definition state_of (o : Outcome ()) : Server :=
  match o with Returned _ s | Thrown _ s => s end.

(** Run A has been accepted. *)
Definition i_accepted : Server :=
  Eval vm_compute in
    state_of (Improved.start keep_one (fun _ => true) (fun _ => false) start_A 0%nat
                (boot disk0)).

(** A subscriber has arrived. *)
Definition i_subscribed : Server :=
  Eval vm_compute in state_of (Improved.stream id_A 1%nat i_accepted).

(** [runCypress] has been entered for A. *)
Definition i_entered : Server :=
  Eval vm_compute in state_of (Improved.runCypress keep_one id_A i_subscribed).

Definition i_task : Task :=
  Eval vm_compute in
    match tasks i_entered with
    | task :: _ => task
    | [] => {| t_runId := ""; t_run := 0; t_cmd := []; t_phase := Exited |}
    end.

(** There is no [cypress] to spawn. *)
Definition enoent : string := "spawn cypress ENOENT".

Definition i_unspawned : Server :=
  Eval vm_compute in
    state_of (Improved.runCypress_resumed 0%nat i_task (SpawnError enoent) i_entered).

Definition i_errored : Server :=
  Eval vm_compute in
    state_of (Improved.on_error 0%nat (with_phase (ErrorPending enoent) i_task) enoent
                i_unspawned).

Definition i_over : Server :=
  Eval vm_compute in
    state_of (Improved.on_close 0%nat (with_phase ErrorEmitted i_task) (Some (-2)%Z)
                i_errored).

(** The exit code file of a run. *)
Definition exit_code_file (run : Run) : Fs.path := runPath (paths run) ++ ["exit-code.txt"].

(** The three directories [runCypress] makes for the artifacts of a run,
    in its order, on a disk [d]: the disk with them, or [None] as soon as
    one of them cannot be made. *)
Definition makeFolders (run : Run) (d : Fs.node) : option Fs.node :=
  d1 ← Fs.mkdirSync (runPath (paths run) ++ ["cypress"; "videos"]) d;
  d2 ← Fs.mkdirSync (runPath (paths run) ++ ["cypress"; "screenshots"]) d1;
  Fs.mkdirSync (runPath (paths run) ++ ["results"]) d2.

(** What [runCypress] leaves when it returns in server/index.js: the
    registered object is [running] and a new invocation waits for
    [findConfigFile]. *)
Definition runCypress_post (runId : string) (s : Server) (o : Outcome ()) : Prop :=
  match o with
  | Thrown _ _ => True
  | Returned _ s' =>
      exists r cmd,
        Assoc.get runId (runs s) = Some r /\
        control s' = (alter (with_status running) r (heap s), runs s,
                      tasks s ++ [{| t_runId := runId; t_run := r; t_cmd := cmd;
                                     t_phase := Probing |}],
                      pending s)
  end.

Definition resumed_post (t : nat) (s : Server) (o : Outcome ()) : Prop :=
  match o with
  | Thrown _ _ => True
  | Returned _ s' =>
      exists cmd ph,
        (ph = Live \/ exists m, ph = ErrorPending m) /\
        control s' = (heap s, runs s,
                      alter (with_phase ph) t (alter (with_cmd cmd) t (tasks s)),
                      pending s)
  end.

Definition close_post (t : nat) (task : Task) (code : option Z) (s : Server)
    (o : Outcome ()) : Prop :=
  match o with
  | Thrown _ _ => True
  | Returned _ s' =>
      exists c, code = Some c /\
        control s' = (alter (with_status (if bool_decide (c = 0%Z) then done else failed))
                            (t_run task) (heap s),
                      runs s, alter (with_phase Exited) t (tasks s), pending s) /\
        Fs.lookup (exit_code_file (alter (with_status (if bool_decide (c = 0%Z) then done else failed))
                            (t_run task) (heap s) !!! t_run task)) (Some (disk s'))
        = Some (Fs.File (Js.toString c))
  end.

Definition start_post (req : StartReq) (s : Server) (o : Outcome ()) : Prop :=
  match o with
  | Thrown _ s' => control s' = control s
  | Returned _ s' =>
      control s' = control s \/
      exists f, file req = Some f /\
        control s' = (heap s ++ [newRun req f],
                      Assoc.set (newRunId req) (length (heap s)) (runs s),
                      tasks s, [newRunId req])
  end.

(** The two lines a failed spawn puts on a stream in index-improved.js. *)
Definition error_line (message : string) : Chunk :=
  Data (Improved.sse ("ERROR: " +:+ message)).

Definition marker_line (st : Status) (code : Z) : Chunk :=
  Data (Improved.sse ("RUN_DONE status=" +:+ status_name st +:+ " code=" +:+ Js.toString code)).

(** One round of the loop of [cleanupOldRuns]: the directory of the run
    goes and then its registry entry, or the removal throws and the round
    is over. *)
Definition evict (refuses : Fs.path -> bool) (s : Server) (e : string * nat) : Server :=
  let p := runPath (paths (heap s !!! e.2)) in
  if refuses p then s
  else match Fs.rmSync p (disk s) with
       | Some d => on_runs (Assoc.delete e.1) (on_disk (fun _ => d) s)
       | None => s
       end.

(** The entries the sweep does not go after. *)
Definition kept (cfg : Config) (s : Server) : list (string * nat) :=
  take (length (Improved.runsArray s) - length (Improved.toDelete cfg s))
       (Improved.runsArray s).

Definition age (s : Server) (e : string * nat) : Z := createdAt (heap s !!! e.2).

(** Run B is accepted while A is running, the retention being one run:
    the sweep at the end of POST /start takes A. *)
Definition i_swept : Server :=
  Eval vm_compute in
    state_of (Improved.start keep_one (fun _ => true) (fun _ => false) start_B 2%nat
                i_entered).

(** The same under an operating system that refuses every removal. *)
Definition i_refused : Server :=
  Eval vm_compute in
    state_of (Improved.start keep_one (fun _ => true) (fun _ => true) start_B 2%nat
                i_entered).


(** The directory of a registry entry. *)
Definition directory (s : Server) (e : string * nat) : Fs.path :=
  runPath (paths (heap s !!! e.2)).

(** ** Further vocabulary *)

(** Whether a code unit occurs in a string. *)
Fixpoint has_unit (c : ascii) (s : string) : bool :=
  match s with
  | EmptyString => false
  | String x t => bool_decide (x = c) || has_unit c t
  end.

(** An action that changes nothing at all, whether it returns or throws. *)
Definition reads_only {A} (m : Act A) : Prop :=
  forall s, match m s with
            | Returned _ s' | Thrown _ s' => s' = s
            end.

(** The last code unit of a string. *)
Fixpoint last_unit (s : string) : option ascii :=
  match s with
  | EmptyString => None
  | String c EmptyString => Some c
  | String _ t => last_unit t
  end.

(** A tree as a file system holds it: no directory has two entries of
    one name. *)
Fixpoint tidy (n : Fs.node) : bool :=
  match n with
  | Fs.File _ => true
  | Fs.Dir es => bool_decide (NoDup es.*1) && forallb (fun e => tidy e.2) es
  end.

(** What one entry of a directory adds to the walk. *)
Definition walkEntry (keep : string -> bool) (baseUrl file : string) (c : Fs.node)
  : list string :=
  if Fs.isDirectory c then walkDir keep c (Js.slash baseUrl file)
  else if keep file then [Js.slash baseUrl file] else [].

(** [`${baseUrl}/${a}/${b}/...`] *)
Definition url (baseUrl : string) (p : Fs.path) : string := foldl Js.slash baseUrl p.

(** The child of a run leaves a file on the disk. *)
Definition with_file (p : Fs.path) (content : string) (s : Server) : Server :=
  on_disk (fun d => default d (Fs.apply_at true p (fun _ => Some (Some (Fs.File content))) d)) s.

(** Run A is live and has recorded one video at the top of its videos
    directory, another one, named in capitals, below a directory of
    that, and a screenshot two directories down. *)
Definition s_recorded : Server :=
  Eval vm_compute in
    with_file ["runs"; id_A; "cypress"; "screenshots"; "demo.cy.js"; "works"; "failed.png"] "png"
      (with_file ["runs"; id_A; "cypress"; "videos"; "nested"; "DEEP.MP4"] "mp4"
         (with_file ["runs"; id_A; "cypress"; "videos"; "demo.cy.js.mp4"] "mp4" s_live)).

(** Run A has been accepted and something has put a file where its
    videos directory is to be. *)
Definition s_blocked : Server :=
  Eval vm_compute in with_file ["runs"; id_A; "cypress"; "videos"] "no directory" s_accepted.

(** What has gone out on a response. *)
Definition sent (res : nat) (s : Server) : list Chunk := default [] (wire s !! res).

(** How many times a response is in a list of subscribers. *)
Definition times (res : nat) (cs : list nat) : nat :=
  length (filter (fun c => c = res) cs).

(** What the 'close' listener of index.js does to the disk: the exit
    code file, then the two copies out of the work directory, each made
    when its source is there. [None] is an exception of one of the three. *)
Definition close_disk (run : Run) (text : string) (d : Fs.node) : option Fs.node :=
  d0 ← Fs.writeFileSync (runPath (paths run) ++ ["exit-code.txt"]) text d;
  d1 ← (if Fs.existsSync (workPath (paths run) ++ ["cypress"; "videos"]) d0
        then Fs.cpSync (workPath (paths run) ++ ["cypress"; "videos"])
                       (runPath (paths run) ++ ["cypress"; "videos"]) d0
        else Some d0);
  if Fs.existsSync (workPath (paths run) ++ ["cypress"; "screenshots"]) d1
  then Fs.cpSync (workPath (paths run) ++ ["cypress"; "screenshots"])
                 (runPath (paths run) ++ ["cypress"; "screenshots"]) d1
  else Some d1.

(** The status the 'close' listener assigns. *)
Definition verdict (c : Z) : Status := if bool_decide (c = 0%Z) then done else failed.

(** The last line of a stream. *)
Definition run_done (st : Status) (c : Z) : string :=
  "RUN_DONE status=" +:+ status_name st +:+ " code=" +:+ Js.toString c.

(** A list of chunks goes out to the subscribers [cs], one after the
    other. *)
Definition deliver_all (xs : list Chunk) (cs : list nat) (w : gmap nat (list Chunk))
  : gmap nat (list Chunk) :=
  foldl (fun w x => deliver x cs w) w xs.

(** Each chunk of a list as many times as a response is subscribed. *)
Definition each_times (k : nat) (xs : list Chunk) : list Chunk :=
  xs ≫= replicate k.

(** The chunk a 'data' event puts on the streams of index.js. *)
Definition data_chunk (data : string) : Chunk := Data (Basic.sse (Basic.cleanData data)).

(** Two chunks of output, the second one in colour. *)
Definition output_A : list string :=
  ["Running: demo.cy.js";
   String Js.ESC "[32m" +:+ "1 passing" +:+ String Js.ESC "[0m"].

(** The registry and the invocations of [runCypress] agree with the
    objects: no id is registered twice, an entry of the registry refers to
    an object of the heap that carries the key as its id and the
    directories of that id, and so does an invocation with the id in its
    closure. *)
Definition names (s : Server) (runId : string) (r : nat) : Prop :=
  (r < length (heap s))%nat /\
  id (heap s !!! r) = runId /\
  paths (heap s !!! r) = pathsOf runId.

Definition registry_ok (s : Server) : Prop :=
  NoDup (runs s).*1 /\
  (forall runId r, (runId, r) ∈ runs s -> names s runId r) /\
  (forall t task, tasks s !! t = Some task -> names s (t_runId task) (t_run task)).

(** A view shows a run object with what the artifact queries answer for
    its id in a state. *)
Definition shows (s : Server) (run : Run) (v : RunView) : Prop :=
  v_id v = id run /\ v_createdAt v = createdAt run /\ v_status v = status run /\
  v_baseUrl v = baseUrl run /\ v_filename v = filename run /\
  Basic.getRunVideos (id run) s = Returned (v_videos v) s /\
  Basic.getRunScreenshots (id run) s = Returned (v_screenshots v) s /\
  Basic.getRunResults (id run) s = Returned (v_resultsJson v) s.

(** An artifact query of index.js throws for the id. *)
Definition query_throws (s : Server) (runId : string) : Prop :=
  (exists e, Basic.getRunVideos runId s = Thrown e s) \/
  (exists e, Basic.getRunScreenshots runId s = Thrown e s).

(** One more chunk on a response. *)
Definition reply (res : nat) (c : Chunk) (s : Server) : Server :=
  on_wire (fun w => <[res := default [] (w !! res) ++ [c]]> w) s.

(** The process has been started on [disk0] and has come to this state. *)
Definition s_live_events : list Basic.Event :=
  [Basic.PostStart start_A 0%nat; Basic.Call; Basic.Resume 0%nat Spawned;
   Basic.GetStream id_A 1%nat].

(** The disk is ready for a run of that id: runs is a directory and has
    no entry of that name. *)
Definition vacant (runId : string) (d : Fs.node) : bool :=
  match Fs.lookup ["runs"] (Some d) with
  | Some (Fs.Dir _) => negb (Fs.existsSync ["runs"; runId] d)
  | _ => false
  end.

(** What the upload of one spec leaves of run [runId] on the disk [d']
    when it found [d]: the spec, the generated configuration, nothing else
    in the work directory and nothing but the work directory in the run
    directory; what is outside the run directory is as it was. *)
Record uploaded (runId name buf content : string) (d d' : Fs.node) : Prop := {
  up_spec : Fs.lookup ["runs"; runId; "work"; "cypress"; "e2e"; name] (Some d')
            = Some (Fs.File buf);
  up_config : Fs.lookup ["runs"; runId; "work"; "cypress.config.cjs"] (Some d')
              = Some (Fs.File content);
  up_work : forall c, c ≠ "cypress" -> c ≠ "cypress.config.cjs" ->
            Fs.lookup ["runs"; runId; "work"; c] (Some d') = None;
  up_run : forall c, c ≠ "work" -> Fs.lookup ["runs"; runId; c] (Some d') = None;
  up_frame : forall q, Fs.diverge ["runs"; runId] q = true ->
             Fs.lookup q (Some d') = Fs.lookup q (Some d)
}.

(** The state POST /start leaves when it accepts an upload and the disk
    has become [d']. *)
Definition accepted (req : StartReq) (f : Upload) (res : nat) (d' : Fs.node)
    (s : Server) : Server :=
  {| heap := heap s ++ [newRun req f];
     runs := Assoc.set (newRunId req) (length (heap s)) (runs s);
     clients := clients s;
     disk := d';
     wire := wire (reply res (Json 200 (Started (newRunId req)
                                  ("/runs/" +:+ newRunId req +:+ "/stream"))) s);
     tasks := tasks s;
     pending := [newRunId req];
     timers := timers s |}.

(** The arguments index.js starts cypress with for a run of one
    uploaded spec. *)
Definition spec_command (req : StartReq) : list string :=
  let run := ["runs"; newRunId req] in
  ["run"; "--project"; Fs.show (run ++ ["work"]);
   "--browser"; "chrome"; "--headless";
   "--config"; "videosFolder=" +:+ Fs.show (run ++ ["cypress"; "videos"])
               +:+ ",screenshotsFolder=" +:+ Fs.show (run ++ ["cypress"; "screenshots"]);
   "--reporter"; "json";
   "--reporter-options"; "output=" +:+ Fs.show (run ++ ["results"; "results.json"])]
  ++ (if truthy (body_baseUrl req)
      then ["--config"; "baseUrl=" +:+ default "" (body_baseUrl req)]
      else [])
  ++ ["--config-file"; Fs.show (run ++ ["work"; "cypress.config.cjs"])].

(** The first arguments of cypress, as [runCypress] of index.js builds
    them before it looks for a configuration file. *)
Definition first_arguments (runId : string) (base : option string) : list string :=
  let run := ["runs"; runId] in
  ["run"; "--project"; Fs.show (run ++ ["work"]);
   "--browser"; "chrome"; "--headless";
   "--config"; "videosFolder=" +:+ Fs.show (run ++ ["cypress"; "videos"])
               +:+ ",screenshotsFolder=" +:+ Fs.show (run ++ ["cypress"; "screenshots"]);
   "--reporter"; "json";
   "--reporter-options"; "output=" +:+ Fs.show (run ++ ["results"; "results.json"])]
  ++ (if truthy base then ["--config"; "baseUrl=" +:+ default "" base] else []).

(** The state [runCypress] of index.js leaves at its [await] when the
    disk has become [d']. *)
Definition entered (runId : string) (r : nat) (d' : Fs.node) (s : Server) : Server :=
  {| heap := alter (with_status running) r (heap s);
     runs := runs s; clients := clients s; disk := d'; wire := wire s;
     tasks := tasks s ++ [{| t_runId := runId; t_run := r;
                             t_cmd := first_arguments runId (baseUrl (heap s !!! r));
                             t_phase := Probing |}];
     pending := pending s; timers := timers s |}.

(** The three artifact directories of a run are there, empty, on [d'],
    which is [d] outside them. *)
Record prepared (runId : string) (d d' : Fs.node) : Prop := {
  pr_videos : Fs.lookup ["runs"; runId; "cypress"; "videos"] (Some d') = Some (Fs.Dir []);
  pr_screenshots : Fs.lookup ["runs"; runId; "cypress"; "screenshots"] (Some d')
                   = Some (Fs.Dir []);
  pr_results : Fs.lookup ["runs"; runId; "results"] (Some d') = Some (Fs.Dir []);
  pr_frame : forall q, Fs.diverge ["runs"; runId; "cypress"] q = true ->
                       Fs.diverge ["runs"; runId; "results"] q = true ->
                       Fs.lookup q (Some d') = Fs.lookup q (Some d)
}.

(** An action that changes nothing but the disk, whether it returns or
    throws. *)
Definition disk_only {A} (m : Act A) : Prop :=
  forall s, match m s with
            | Returned _ s' | Thrown _ s' => exists d, s' = on_disk (fun _ => d) s
            end.

(** The answers of POST /start. *)
Definition started (req : StartReq) : Chunk :=
  Json 200 (Started (newRunId req) ("/runs/" +:+ newRunId req +:+ "/stream")).

Definition refusal (c : Chunk) : Prop :=
  c = Json 400 (NotOk "No file uploaded") \/
  c = Json 400 (NotOk invalidFileType) \/
  exists m, c = Json 500 (NotOk m).

(** A request without a file. *)
Definition start_empty : StartReq :=
  {| file := None; body_baseUrl := None;
     isoNow := "2024-01-01T10:00:00.000Z"; nonce := "abc123"; now := 1000 |}.

(** POST /start has answered: the handler returned, the response got
    one chunk and no other response got any, nothing happened to the
    subscribers, the invocations and the timers, and either the chunk is
    the 200 and the run of the request is registered and queued for
    [runCypress], or it is a refusal and the registry is as it was. *)
Definition answered (req : StartReq) (res : nat) (s : Server) (o : Outcome ()) : Prop :=
  exists c s',
    o = Returned () s' /\
    sent res s' = sent res s ++ [c] /\
    (forall other, other ≠ res -> sent other s' = sent other s) /\
    clients s' = clients s /\ tasks s' = tasks s /\ timers s' = timers s /\
    ((c = started req /\
      exists f, file req = Some f /\
        heap s' = heap s ++ [newRun req f] /\
        runs s' = Assoc.set (newRunId req) (length (heap s)) (runs s) /\
        pending s' = pending s ++ [newRunId req]) \/
     (refusal c /\ control s' = control s)).

(** An upload named as an archive whose bytes are none. *)
Definition upload_corrupt : Upload :=
  {| originalname := "suite.zip"; buffer := "not a zip"; archive := None |}.

Definition start_corrupt : StartReq :=
  {| file := Some upload_corrupt; body_baseUrl := None;
     isoNow := "2024-01-01T10:00:00.000Z"; nonce := "abc123"; now := 1000 |}.

(** A request with a base URL that is none. *)
Definition start_bad_url : StartReq :=
  {| file := Some upload_spec; body_baseUrl := Some "example";
     isoNow := "2024-01-01T10:00:00.000Z"; nonce := "abc123"; now := 1000 |}.

(** What POST /start leaves when it throws or refuses after it has made
    the directories: the server as it was but for the disk. *)
Definition only_disk_changed (s s' : Server) : Prop :=
  exists d, s' = on_disk (fun _ => d) s.

(** The state index-improved.js is in when POST /start has accepted an
    upload and is about to sweep. *)
Definition queued_up (req : StartReq) (f : Upload) (res : nat) (d' : Fs.node)
    (s : Server) : Server :=
  on_pending (fun _ => pending s ++ [newRunId req]) (accepted req f res d' s).

Global Instance Paths_eq_dec : EqDecision Paths.
Proof. solve_decision. Defined.

(** The registry of a server that is ready for a request: no id twice,
    the id of the request not among them, every entry an object of the
    heap with the directories of its id, created before the request. *)
Definition ready (req : StartReq) (s : Server) : bool :=
  bool_decide (NoDup (runs s).*1)
  && negb (Assoc.has (newRunId req) (runs s))
  && forallb (fun e : string * nat =>
                (e.2 <? length (heap s))%nat
                && bool_decide (paths (heap s !!! e.2) = pathsOf e.1)
                && (createdAt (heap s !!! e.2) <? now req)%Z)
             (runs s).

(** The base URL of a request passes the test of index-improved.js. *)
Definition url_passes (isValidUrl : string -> bool) (req : StartReq) : bool :=
  negb (truthy (body_baseUrl req) && negb (isValidUrl (default "" (body_baseUrl req)))).

(** A retention of no run at all. *)
Definition keep_none : Config :=
  {| browser := "chrome"; videoEnabled := true; maxRunsRetention := 0 |}.

(** The loop of [Fs.merge] over the entries of the source directory. *)
Definition merge_into : list (string * Fs.node) -> list (string * Fs.node)
                        -> option (list (string * Fs.node)) :=
  fix into (es ds : list (string * Fs.node)) : option (list (string * Fs.node)) :=
    match es with
    | [] => Some ds
    | (name, c) :: rest =>
        c' ← Fs.merge c (Assoc.get name ds); into rest (Assoc.set name c' ds)
    end.

(** Run A is live and cypress has left a video and a screenshot in the
    work directory. *)
Definition s_in_work : Server :=
  Eval vm_compute in
    with_file ["runs"; id_A; "work"; "cypress"; "screenshots"; "demo.cy.js"; "failed.png"] "png"
      (with_file ["runs"; id_A; "work"; "cypress"; "videos"; "demo.cy.js.mp4"] "mp4" s_live).

(** The disk after the 'close' listener has run on it with exit code 1. *)
Definition d_collected : Fs.node :=
  Eval vm_compute in
    default disk0 (close_disk (heap s_in_work !!! 0%nat) (Js.toString 1) (disk s_in_work)).

(** POST /start of index-improved.js has answered: the handler returned,
    the response got one chunk and no other response got any, nothing
    happened to the subscribers, the invocations and the timers, and either
    the chunk is the 200, the run object is made and its [runCypress]
    queued, or it is a 400 or a 500 and the objects, the registry and the
    queue are as they were. *)
Definition answered_and_swept (req : StartReq) (res : nat) (s : Server)
    (o : Outcome ()) : Prop :=
  exists c s',
    o = Returned () s' /\
    sent res s' = sent res s ++ [c] /\
    (forall other, other ≠ res -> sent other s' = sent other s) /\
    clients s' = clients s /\ tasks s' = tasks s /\ timers s' = timers s /\
    ((c = started req /\
      exists f, file req = Some f /\
        heap s' = heap s ++ [newRun req f] /\
        pending s' = pending s ++ [newRunId req]) \/
     ((exists m, c = Json 400 (NotOk m) \/ c = Json 500 (NotOk m)) /\
      control s' = control s)).

(** An archive with a configuration file and one spec. *)
Definition upload_zip : Upload :=
  {| originalname := "suite.zip"; buffer := "PK";
     archive := Some [(["cypress.config.js"], "module.exports = {}");
                      (["cypress"; "e2e"; "login.cy.js"], "it('logs in', () => {})")] |}.

Definition start_zip : StartReq :=
  {| file := Some upload_zip; body_baseUrl := None;
     isoNow := "2024-01-01T10:00:00.000Z"; nonce := "abc123"; now := 1000 |}.

(** An entry of an archive that no later entry overwrites or displaces:
    every later path parts from its path at some segment. *)
Definition stays (entries : list (Fs.path * string)) (i : nat) (e : Fs.path * string)
  : Prop :=
  entries !! i = Some e /\
  forall j e', (i < j)%nat -> entries !! j = Some e' -> Fs.diverge e'.1 e.1 = true.

(** A response that is subscribed to no run. *)
Definition unsubscribed (c : nat) (s : Server) : Prop :=
  forall runId, c ∉ Basic.runClients runId s.

(** An action that, where the response [c] is subscribed to no run,
    writes nothing to it and subscribes it to nothing, whether it returns
    or throws. *)
Definition leaves (c : nat) {A} (m : Act A) : Prop :=
  forall s, unsubscribed c s ->
    match m s with
    | Returned _ s' | Thrown _ s' => sent c s' = sent c s /\ unsubscribed c s'
    end.

(** The event is a request that came with the response [c], or the
    closing of its connection. *)
Definition names_response (c : nat) (ev : Basic.Event) : bool :=
  match ev with
  | Basic.PostStart _ res | Basic.GetStream _ res | Basic.StreamClosed _ res
  | Basic.GetRuns res | Basic.GetRun _ res => bool_decide (res = c)
  | _ => false
  end.

(** * Properties *)

(** ** Insertion-ordered maps *)

Section AssocFacts.
Context {V : Type}.
Implicit Types (k : string) (v : V) (l : list (string * V)).

Lemma get_set_eq k v l : Assoc.get k (Assoc.set k v l) = Some v.
Proof.
  induction l as [|[k' v'] l IH]; simpl.
  - by rewrite decide_True.
  - destruct (decide (k' = k)) as [->|Hne]; simpl.
    + by rewrite decide_True.
    + by rewrite decide_False.
Qed.

Lemma get_set_ne k k' v l : k ≠ k' -> Assoc.get k' (Assoc.set k v l) = Assoc.get k' l.
Proof.
  intros Hne. induction l as [|[k0 v0] l IH]; simpl.
  - by rewrite decide_False.
  - destruct (decide (k0 = k)) as [->|Hne0]; simpl.
    + by rewrite !decide_False.
    + destruct (decide (k0 = k')); [done | apply IH].
Qed.

Lemma get_delete_eq k l : Assoc.get k (Assoc.delete k l) = None.
Proof.
  induction l as [|[k0 v0] l IH]; simpl; [done|].
  destruct (decide (k0 = k)); simpl; [done|]. by rewrite decide_False.
Qed.

Lemma get_delete_ne k k' l : k ≠ k' -> Assoc.get k' (Assoc.delete k l) = Assoc.get k' l.
Proof.
  intros Hne. induction l as [|[k0 v0] l IH]; simpl; [done|].
  destruct (decide (k0 = k)) as [->|Hne0]; simpl.
  - by rewrite decide_False.
  - by destruct (decide (k0 = k')).
Qed.

Lemma get_None_keys k l : Assoc.get k l = None <-> k ∉ l.*1.
Proof.
  induction l as [|[k0 v0] l IH]; simpl.
  - split; [intros _; apply not_elem_of_nil | done].
  - rewrite not_elem_of_cons. destruct (decide (k0 = k)) as [->|Hne].
    + split; [done | intros [? _]; done].
    + rewrite IH. split; [intros ?; split; [congruence | done] | intros [_ ?]; done].
Qed.

Lemma elem_get_nodup k v l : NoDup l.*1 -> (k, v) ∈ l -> Assoc.get k l = Some v.
Proof.
  induction l as [|[k0 v0] l IH]; simpl; intros Hnd Hin.
  - by apply elem_of_nil in Hin.
  - apply NoDup_cons in Hnd as [Hk Hnd]. apply elem_of_cons in Hin as [Heq|Hin].
    + injection Heq as -> ->. by rewrite decide_True.
    + destruct (decide (k0 = k)) as [->|Hne]; [|by apply IH].
      exfalso. apply Hk. apply list_elem_of_fmap. by exists (k, v).
Qed.

End AssocFacts.

(** ** The file system *)

Section FsFacts.
Import Fs.
Implicit Types (p q : path) (n : option node) (d : node).

Lemma get_set_entry_eq name o es : Assoc.get name (set_entry name o es) = o.
Proof. destruct o; simpl; [apply get_set_eq | apply get_delete_eq]. Qed.

Lemma get_set_entry_ne name name' o es :
  name ≠ name' -> Assoc.get name' (set_entry name o es) = Assoc.get name' es.
Proof. intros ?. destruct o; simpl; [by apply get_set_ne | by apply get_delete_ne]. Qed.

Lemma lookup_None p : lookup p None = None.
Proof. induction p; simpl; auto. Qed.

Lemma lookup_app p q n : lookup (p ++ q) n = lookup q (lookup p n).
Proof. revert n. induction p; simpl; auto. Qed.

Lemma lookup_file p c : p ≠ [] -> lookup p (Some (File c)) = None.
Proof. destruct p; [done|]. intros _. simpl. apply lookup_None. Qed.

(** Something below a path means a directory at the path. *)
Lemma lookup_below p q n x :
  q ≠ [] -> lookup (p ++ q) n = Some x -> exists es, lookup p n = Some (Dir es).
Proof.
  intros Hq. rewrite lookup_app. destruct (lookup p n) as [[c|es]|] eqn:E.
  - by rewrite lookup_file.
  - eauto.
  - by rewrite lookup_None.
Qed.

Lemma update_at_same mk p f n r :
  update_at mk p f n = Some r ->
  exists v, f (lookup p n) = Some v /\ lookup p r = v.
Proof.
  revert n r. induction p as [|a p IH]; simpl; intros n r H.
  - eauto.
  - destruct n as [[c|es]|]; [done| |].
    + destruct (update_at mk p f (Assoc.get a es)) as [c|] eqn:E; [|done].
      injection H as <-. simpl. rewrite get_set_entry_eq. eauto.
    + destruct mk; [|done].
      destruct (update_at true p f None) as [c|] eqn:E; [|done].
      injection H as <-. simpl. rewrite get_set_entry_eq.
      apply IH in E. by rewrite lookup_None in *.
Qed.

Lemma update_at_diverge mk p q f n r :
  update_at mk p f n = Some r -> diverge p q = true -> lookup q r = lookup q n.
Proof.
  revert q n r. induction p as [|a p IH]; intros [|b q] n r H Hd; try done.
  simpl in *. destruct n as [[c|es]|]; [done| |].
  - destruct (update_at mk p f (Assoc.get a es)) as [c|] eqn:E; [|done].
    injection H as <-. simpl. destruct (decide (a = b)) as [->|Hne].
    + rewrite get_set_entry_eq. eauto.
    + by rewrite get_set_entry_ne.
  - destruct mk; [|done].
    destruct (update_at true p f None) as [c|] eqn:E; [|done].
    injection H as <-. simpl. destruct (decide (a = b)) as [->|Hne].
    + rewrite get_set_entry_eq, lookup_None. erewrite IH; eauto. apply lookup_None.
    + rewrite get_set_entry_ne by done. done.
Qed.

Lemma apply_at_same mk p f d d' :
  apply_at mk p f d = Some d' ->
  f (lookup p (Some d)) = Some (lookup p (Some d')).
Proof.
  unfold apply_at. destruct (update_at mk p f (Some d)) as [[r|]|] eqn:E; [|done..].
  intros [= <-]. apply update_at_same in E as (v & Hf & Hv). by rewrite Hf, Hv.
Qed.

Lemma apply_at_diverge mk p q f d d' :
  apply_at mk p f d = Some d' -> diverge p q = true ->
  lookup q (Some d') = lookup q (Some d).
Proof.
  unfold apply_at. destruct (update_at mk p f (Some d)) as [[r|]|] eqn:E; [|done..].
  intros [= <-]. eapply update_at_diverge; eauto.
Qed.

Lemma diverge_app p a b q1 q2 : a ≠ b -> diverge (p ++ a :: q1) (p ++ b :: q2) = true.
Proof.
  intros Hne. induction p as [|x p IH]; simpl.
  - by rewrite decide_False.
  - by rewrite decide_True.
Qed.

Lemma mkdirSync_dir p d d' :
  mkdirSync p d = Some d' -> exists es, lookup p (Some d') = Some (Dir es).
Proof.
  intros H. apply apply_at_same in H.
  destruct (lookup p (Some d)) as [[c|es]|]; [done| |]; injection H as <-; eauto.
Qed.

Lemma writeFileSync_file p c d d' :
  writeFileSync p c d = Some d' -> lookup p (Some d') = Some (File c).
Proof.
  intros H. apply apply_at_same in H.
  destruct (lookup p (Some d)) as [[c0|es]|]; [|done|]; by injection H as <-.
Qed.

Lemma cpSync_diverge src dst q d d' :
  cpSync src dst d = Some d' -> diverge dst q = true ->
  lookup q (Some d') = lookup q (Some d).
Proof.
  unfold cpSync. destruct (lookup src (Some d)); [|done].
  apply apply_at_diverge.
Qed.

(** Removing never brings anything back. *)
Lemma unlink_absent p q n r :
  update_at false p (fun _ => Some None) n = Some r ->
  lookup q n = None -> lookup q r = None.
Proof.
  revert q n r. induction p as [|a p IH]; simpl; intros q n r H Hq.
  - injection H as <-. apply lookup_None.
  - destruct n as [[c|es]|]; [done| |done].
    destruct (update_at false p _ (Assoc.get a es)) as [c|] eqn:E; [|done].
    injection H as <-. destruct q as [|b q]; [done|]. simpl in *.
    destruct (decide (a = b)) as [->|Hne].
    + rewrite get_set_entry_eq. eauto.
    + by rewrite get_set_entry_ne.
Qed.

Lemma unlink_defined p n x :
  lookup p n = Some x ->
  exists r, update_at false p (fun _ => Some None) n = Some r /\ (p ≠ [] -> is_Some r).
Proof.
  revert n. induction p as [|a p IH]; simpl; intros n H.
  - eexists; split; [done | done].
  - destruct n as [[c|es]|]; simpl in H.
    + by rewrite lookup_None in H.
    + apply IH in H as (r & -> & _). simpl. eauto.
    + by rewrite lookup_None in H.
Qed.

Lemma rmSync_defined p d : p ≠ [] -> is_Some (rmSync p d).
Proof.
  intros Hp. unfold rmSync, apply_at.
  destruct (lookup p (Some d)) eqn:E; [|eauto].
  apply unlink_defined in E as (r & -> & Hr). destruct (Hr Hp) as [d' ->]. eauto.
Qed.

Lemma rmSync_gone p d d' : rmSync p d = Some d' -> existsSync p d' = false.
Proof.
  unfold rmSync, existsSync. destruct (lookup p (Some d)) eqn:E.
  - intros H. apply apply_at_same in H. injection H as <-. done.
  - intros [= <-]. by rewrite E.
Qed.

Lemma rmSync_absent p q d d' :
  rmSync p d = Some d' -> existsSync q d = false -> existsSync q d' = false.
Proof.
  unfold rmSync, existsSync, apply_at. destruct (lookup p (Some d)) eqn:E.
  - destruct (update_at false p _ (Some d)) as [[r|]|] eqn:U; [|done..].
    intros [= <-] Hq. destruct (lookup q (Some d)) eqn:Q; [done|].
    by rewrite (unlink_absent _ _ _ _ U Q).
  - by intros [= <-].
Qed.

End FsFacts.

(** ** Handlers *)

Ltac act :=
  cbv beta iota delta
    [mbind Act_bind mret Act_ret gets modify send deref alloc set_status
     set_phase throw try_catch fs] in *.

(** ** POST /start on a file that is neither an archive nor a spec *)

Lemma rejected_upload_Basic req res s f d1 d2 :
  file req = Some f ->
  Js.endsWith (originalname f) ".zip" = false ->
  Js.isSpecName (originalname f) = false ->
  Fs.mkdirSync ["runs"; newRunId req] (disk s) = Some d1 ->
  Fs.mkdirSync ["runs"; newRunId req; "work"] d1 = Some d2 ->
  Basic.start req res s =
  Returned () (on_wire (fun w => <[res := default [] (w !! res)
                                          ++ [Json 400 (NotOk invalidFileType)]]> w)
                 (on_disk (fun _ => d2) s)).
Proof.
  intros Hf Hz Hs H1 H2. unfold Basic.start. act. rewrite Hf. simpl.
  rewrite H1. simpl. rewrite H2. simpl. rewrite Hz, Hs. reflexivity.
Qed.

Lemma rejected_upload_Fixed req res s f d1 d2 :
  file req = Some f ->
  Js.endsWith (Js.toLowerCase (originalname f)) ".zip" = false ->
  Js.isSpecName (originalname f) = false ->
  Fs.mkdirSync ["runs"; newRunId req] (disk s) = Some d1 ->
  Fs.mkdirSync ["runs"; newRunId req; "work"] d1 = Some d2 ->
  Fixed.start req res s =
  Returned () (on_wire (fun w => <[res := default [] (w !! res)
                                          ++ [Json 400 (NotOk invalidFileType)]]> w)
                 (on_disk (fun _ => d2) s)).
Proof.
  intros Hf Hz Hs H1 H2. unfold Fixed.start. act. rewrite Hf. simpl.
  rewrite H1. simpl. rewrite H2. simpl. rewrite Hz, Hs. reflexivity.
Qed.

Lemma orphans_left req d1 d2 :
  Fs.mkdirSync ["runs"; newRunId req; "work"] d1 = Some d2 ->
  (exists es, Fs.lookup ["runs"; newRunId req] (Some d2) = Some (Fs.Dir es)) /\
  (exists es, Fs.lookup ["runs"; newRunId req; "work"] (Some d2) = Some (Fs.Dir es)).
Proof.
  intros H. apply mkdirSync_dir in H as [es H]. split; [|eauto].
  apply (lookup_below ["runs"; newRunId req] ["work"] _ (Fs.Dir es)); done.
Qed.

(** C10. POST /start with a file whose name is neither that of an archive
    nor that of a spec, in server/index.js and in its revision (which
    lowers the name before it looks for .zip): once the run directory and
    its work directory are made, the handler answers 400, leaves the
    registry, the heap of runs and the calls to make as they were, and the
    two directories are on the disk it leaves behind. *)
Theorem start_rejects_other_files req res f s d1 d2 :
  file req = Some f ->
  Js.isSpecName (originalname f) = false ->
  Fs.mkdirSync ["runs"; newRunId req] (disk s) = Some d1 ->
  Fs.mkdirSync ["runs"; newRunId req; "work"] d1 = Some d2 ->
  (Js.endsWith (originalname f) ".zip" = false ->
   refused_with_orphans Basic.start req res s) /\
  (Js.endsWith (Js.toLowerCase (originalname f)) ".zip" = false ->
   refused_with_orphans Fixed.start req res s).
Proof.
  intros Hf Hs H1 H2.
  destruct (orphans_left req d1 d2 H2) as [Ha Hb].
  split; intros Hz; eexists; (split;
    [ first [eapply rejected_upload_Basic | eapply rejected_upload_Fixed]; eauto
    | simpl; rewrite lookup_insert_eq; auto 10 ]).
Qed.

Lemma start_rejects_other_files_witness :
  refused_with_orphans Basic.start start_txt 0%nat (boot disk0).
Proof.
  apply (start_rejects_other_files start_txt 0%nat upload_txt (boot disk0)
           (Fs.Dir [("runs", Fs.Dir [(newRunId start_txt, Fs.Dir [])])])
           (Fs.Dir [("runs", Fs.Dir [(newRunId start_txt, Fs.Dir [("work", Fs.Dir [])])])]));
    reflexivity.
Defined.

(** ** Artifact queries *)

(** C9. For a run of the registry, each artifact query of server/index.js
    returns the empty list ([null] for the results) without throwing and
    without touching the state when its directory is not there:
    cypress/videos, cypress/screenshots, results below the run's
    directory. *)
Theorem artifact_queries_without_directory s runId r :
  Assoc.get runId (runs s) = Some r ->
  let root := runPath (paths (heap s !!! r)) in
  (Fs.existsSync (root ++ ["cypress"; "videos"]) (disk s) = false ->
   Basic.getRunVideos runId s = Returned [] s) /\
  (Fs.existsSync (root ++ ["cypress"; "screenshots"]) (disk s) = false ->
   Basic.getRunScreenshots runId s = Returned [] s) /\
  (Fs.existsSync (root ++ ["results"]) (disk s) = false ->
   Basic.getRunResults runId s = Returned None s).
Proof.
  intros Hr root. unfold Fs.existsSync. repeat split.
  - intros H. unfold Basic.getRunVideos. act. rewrite Hr. simpl. fold root.
    by destruct (Fs.lookup (root ++ ["cypress"; "videos"]) (Some (disk s))).
  - intros H. unfold Basic.getRunScreenshots. act. rewrite Hr. simpl. fold root.
    by destruct (Fs.lookup (root ++ ["cypress"; "screenshots"]) (Some (disk s))).
  - intros H. unfold Basic.getRunResults, Fs.existsSync. act. rewrite Hr. simpl.
    fold root.
    destruct (Fs.lookup (root ++ ["results"; "results.json"]) (Some (disk s))) eqn:E;
      [|done].
    replace (root ++ ["results"; "results.json"])
      with ((root ++ ["results"]) ++ ["results.json"]) in E by by rewrite <- app_assoc.
    apply lookup_below in E as [es E]; [|done]. by rewrite E in H.
Qed.

Lemma artifact_queries_without_directory_witness :
  Basic.getRunVideos id_A s_accepted = Returned [] s_accepted /\
  Basic.getRunScreenshots id_A s_accepted = Returned [] s_accepted /\
  Basic.getRunResults id_A s_accepted = Returned None s_accepted.
Proof.
  destruct (artifact_queries_without_directory s_accepted id_A 0%nat eq_refl)
    as (Hv & Hs & Hr).
  split; [apply Hv; reflexivity | split; [apply Hs; reflexivity | apply Hr; reflexivity]].
Defined.

(** ** Subscribing *)

(** server/index.js opens the stream for any id. *)
Lemma Basic_stream_opens runId res s :
  Basic.stream runId res s =
  Returned () (on_clients (fun c => <[runId := default [] (c !! runId) ++ [res]]> c)
                 (on_wire (fun w => <[res := default [] (w !! res) ++ [Head 200]]> w) s)).
Proof. reflexivity. Qed.

(** server/index-improved.js answers 404 for an id that is not in the
    registry and subscribes nobody. *)
Lemma Improved_stream_unknown runId res s :
  Assoc.get runId (runs s) = None ->
  Improved.stream runId res s =
  Returned () (on_wire (fun w => <[res := default [] (w !! res)
                                          ++ [Json 404 (NotOk "Run not found")]]> w) s).
Proof.
  intros H. unfold Improved.stream, Assoc.has. act. by rewrite H.
Qed.

(** It opens the stream for an id of the registry, whatever the status
    of the run. *)
Lemma Improved_stream_known runId res s r :
  Assoc.get runId (runs s) = Some r ->
  Improved.stream runId res s =
  Returned () (on_clients (fun c => <[runId := default [] (c !! runId) ++ [res]]> c)
                 (on_wire (fun w => <[res := default [] (w !! res) ++ [Head 200]]> w) s)).
Proof.
  intros H. unfold Improved.stream, Assoc.has. act. by rewrite H.
Qed.

(** C6, on server/index.js: GET /runs/no-such-run/stream on a server that
    has no run at all is answered 200 and the response becomes a
    subscriber of that id. *)
Theorem stream_of_unknown_run_opens :
  Assoc.get "no-such-run" (runs (boot disk0)) = None /\
  exists s',
    Basic.stream "no-such-run" 7%nat (boot disk0) = Returned () s' /\
    wire s' !! 7%nat = Some [Head 200] /\
    clients s' !! "no-such-run" = Some [7%nat].
Proof.
  split; [reflexivity|]. rewrite Basic_stream_opens. eexists. split; [reflexivity|].
  simpl. by rewrite !lookup_insert_eq.
Qed.

(** ** One failing run and the others *)

(** In server/index.js nothing listens to the 'error' event of the child
    process: when the runtime delivers it, the process ends. *)
Lemma Basic_error_event_crashes s t task m :
  pending s = [] -> tasks s !! t = Some task -> t_phase task = ErrorPending m ->
  Basic.step (Basic.ChildError t) s = Basic.Crash.
Proof.
  intros Hp Ht Hph. unfold Basic.step. by rewrite Hp, Ht, Hph.
Qed.

(** C8, on server/index.js: run A is live with a subscriber, run B cannot
    be spawned. Without B, A's output reaches its subscriber and A ends
    [done]; with B, the 'error' event of B's child ends the process, and
    run A and its subscriber with it. *)
Theorem spawn_failure_takes_the_server_down :
  (exists s', Basic.after [Basic.ChildData 0%nat "1 passing";
                           Basic.ChildClose 0%nat (Some 0%Z)] s_live = Basic.Continue s' /\
              status (heap s' !!! 0%nat) = done) /\
  tasks s_live_and_failing !! 0%nat = tasks s_live !! 0%nat /\
  heap s_live_and_failing !! 0%nat = heap s_live !! 0%nat /\
  clients s_live_and_failing !! id_A = clients s_live !! id_A /\
  Basic.step (Basic.ChildError 1%nat) s_live_and_failing = Basic.Crash.
Proof.
  split; [eexists; split; [vm_compute; reflexivity | reflexivity] |].
  repeat split; reflexivity.
Qed.

(** ** Broadcasting *)

Lemma forEach_send cs x s :
  forEach cs (fun c => send c x) s = Returned () (on_wire (deliver x cs) s).
Proof.
  revert s. induction cs as [|c cs IH]; intros s.
  - by destruct s.
  - simpl. act. rewrite IH. by destruct s.
Qed.

Lemma deliver_other x cs w c : c ∉ cs -> deliver x cs w !! c = w !! c.
Proof.
  unfold deliver. revert w. induction cs as [|c0 cs IH]; intros w Hc; [done|].
  apply not_elem_of_cons in Hc as [Hne Hc]. simpl.
  rewrite IH by done. by rewrite lookup_insert_ne.
Qed.

(** Every subscriber of the list got the chunk, once for each time it is
    in the list, and nothing else. *)
Lemma deliver_to x cs w c :
  exists k, default [] (deliver x cs w !! c) = default [] (w !! c) ++ replicate k x /\
            (c ∈ cs -> (0 < k)%nat).
Proof.
  unfold deliver. revert w. induction cs as [|c0 cs IH]; intros w.
  - exists 0%nat. simpl. split; [by rewrite app_nil_r | by intros ?%elem_of_nil].
  - simpl. destruct (IH (<[c0 := default [] (w !! c0) ++ [x]]> w)) as (k & Hk & Hpos).
    destruct (decide (c0 = c)) as [->|Hne].
    + exists (S k). rewrite Hk, lookup_insert_eq. simpl.
      rewrite <- app_assoc. split; [done | lia].
    + exists k. rewrite Hk, lookup_insert_ne by done. split; [done|].
      intros [?|?]%elem_of_cons; [congruence | auto].
Qed.

Lemma Basic_broadcast_eq runId data s :
  Basic.broadcast runId data s =
  Returned () (on_wire (deliver (Data (Basic.sse (Basic.cleanData data)))
                                (Basic.runClients runId s)) s).
Proof. unfold Basic.broadcast. act. apply forEach_send. Qed.

Lemma Improved_broadcast_eq runId data s :
  Improved.broadcast runId data s =
  Returned () (on_wire (deliver (Data (Improved.sse data))
                                (Improved.runClients runId s)) s).
Proof.
  unfold Improved.broadcast. act.
  rewrite <- forEach_send. generalize (Improved.runClients runId s) as cs. clear.
  intros cs. revert s. induction cs as [|c cs IH]; intros s; [done|].
  simpl. act. apply IH.
Qed.

(** *** The two passes over a chunk made of complete sequences *)

Lemma is_param_not_letter c : Js.is_param c = true -> Js.is_letter c = false.
Proof.
  destruct c as [[] [] [] [] [] [] [] []]; vm_compute; congruence.
Qed.

Lemma skip_params_run params rest :
  all_params params = true ->
  Js.skip_params (params +:+ rest) = Js.skip_params rest.
Proof.
  induction params as [|c t IH]; simpl; [done|].
  intros [Hc Ht]%andb_prop. rewrite Hc. auto.
Qed.

Lemma skip_params_letter l rest :
  Js.is_letter l = true -> Js.skip_params (String l rest) = String l rest.
Proof.
  intros Hl. simpl. destruct (Js.is_param l) eqn:E; [|done].
  apply is_param_not_letter in E. congruence.
Qed.

Lemma append_cons c (a b : string) : String c a +:+ b = String c (a +:+ b).
Proof. reflexivity. Qed.

Lemma append_nil (b : string) : "" +:+ b = b.
Proof. reflexivity. Qed.

Lemma length_append (a b : string) :
  String.length (a +:+ b) = (String.length a + String.length b)%nat.
Proof.
  induction a as [|c a IH]; [done|]. rewrite append_cons. simpl. by rewrite IH.
Qed.

Lemma append_assoc (a b c : string) : (a +:+ b) +:+ c = a +:+ (b +:+ c).
Proof.
  induction a as [|x a IH]; [done|]. rewrite !append_cons. by rewrite IH.
Qed.

Lemma esc_free_append a b : esc_free (a +:+ b) = esc_free a && esc_free b.
Proof.
  induction a as [|c a IH]; [done|]. rewrite append_cons. simpl.
  by rewrite IH, andb_assoc.
Qed.

Lemma match_csi_plain q c t : c ≠ Js.ESC -> Js.match_csi q (String c t) = None.
Proof.
  intros Hc. unfold Js.match_csi. destruct t; [done|].
  by rewrite (bool_decide_eq_false_2 _ Hc).
Qed.

Lemma skip_params_shorter s : (String.length (Js.skip_params s) <= String.length s)%nat.
Proof.
  induction s as [|c t IH]; simpl; [done|]. destruct (Js.is_param c); simpl; lia.
Qed.

Lemma optional_question_shorter q t :
  (String.length (Js.optional_question q t) <= String.length t)%nat.
Proof.
  destruct t as [|c t]; simpl; [done|].
  destruct (q && bool_decide (c = "?"%char)); simpl; lia.
Qed.

(** A match is never empty. *)
Lemma match_csi_shorter q s r :
  Js.match_csi q s = Some r -> (String.length r < String.length s)%nat.
Proof.
  unfold Js.match_csi. destruct s as [|e [|b t]]; try done.
  destruct (bool_decide (e = Js.ESC) && bool_decide (b = "["%char)); [|done].
  pose proof (skip_params_shorter (Js.optional_question q t)) as H1.
  pose proof (optional_question_shorter q t) as H2.
  destruct (Js.skip_params (Js.optional_question q t)) as [|l r']; [done|].
  destruct (Js.is_letter l); [|done]. intros [= <-]. simpl in *. lia.
Qed.

(** The rounds given to the scan are enough: more of them change
    nothing. *)
Lemma replace_go_enough q f1 : forall f2 s,
  (String.length s <= f1)%nat -> (String.length s <= f2)%nat ->
  Js.replace_go q f1 s = Js.replace_go q f2 s.
Proof.
  induction f1 as [|f1 IH]; intros f2 s H1 H2.
  - destruct s; [by destruct f2 | simpl in H1; lia].
  - destruct f2 as [|f2]; [destruct s; [done | simpl in H2; lia]|].
    destruct s as [|c t]; [done|]. cbn [Js.replace_go].
    destruct (Js.match_csi q (String c t)) as [r|] eqn:E.
    + apply match_csi_shorter in E. simpl in *. apply IH; lia.
    + simpl in *. f_equal. apply IH; lia.
Qed.

(** A stretch without ESC is copied as it is. *)
Lemma replace_go_copy q pre rest fuel :
  esc_free pre = true -> (String.length pre <= fuel)%nat ->
  Js.replace_go q fuel (pre +:+ rest)
  = pre +:+ Js.replace_go q (fuel - String.length pre) rest.
Proof.
  revert fuel. induction pre as [|c pre IH]; intros fuel Hf Hlen.
  - rewrite !append_nil. simpl. by rewrite Nat.sub_0_r.
  - simpl in Hf, Hlen. apply andb_prop in Hf as [Hc Hf].
    apply negb_true_iff, bool_decide_eq_false in Hc.
    destruct fuel as [|fuel]; [lia|]. rewrite !append_cons. cbn [Js.replace_go].
    rewrite match_csi_plain by done. rewrite IH by (done || lia). done.
Qed.

Lemma all_params_esc_free params : all_params params = true -> esc_free params = true.
Proof.
  induction params as [|c t IH]; simpl; [done|].
  intros [Hc Ht]%andb_prop. rewrite IH by done.
  destruct (bool_decide (c = Js.ESC)) eqn:E; [|done].
  apply bool_decide_eq_true in E. subst c. done.
Qed.

Lemma letter_not_ESC l : Js.is_letter l = true -> l ≠ Js.ESC.
Proof. intros H ->. done. Qed.

Lemma optional_question_other q c t :
  c ≠ "?"%char -> Js.optional_question q (String c t) = String c t.
Proof.
  intros Hc. unfold Js.optional_question.
  by rewrite (bool_decide_eq_false_2 _ Hc), andb_false_r.
Qed.

Lemma sequence_tail_no_question q params final rest :
  all_params params = true -> Js.is_letter final = true ->
  Js.optional_question q ((params +:+ String final "") +:+ rest)
  = (params +:+ String final "") +:+ rest.
Proof.
  intros Hp Hl. destruct params as [|c t].
  - rewrite append_nil, append_cons. apply optional_question_other.
    intros ->. done.
  - rewrite !append_cons. apply optional_question_other.
    intros ->. done.
Qed.

(** On a complete sequence the pattern matches exactly the sequence,
    unless the sequence has the question mark and the pattern has not. *)
Lemma match_csi_piece q q' params final rest :
  all_params params = true -> Js.is_letter final = true ->
  Js.match_csi q (piece_text (Csi q' params final) +:+ rest)
  = if survives q (Csi q' params final) then None else Some rest.
Proof.
  intros Hp Hl. unfold piece_text, Js.match_csi. rewrite !append_cons.
  rewrite !bool_decide_eq_true_2 by done. cbn [andb].
  assert (Hrun : Js.skip_params ((params +:+ String final "") +:+ rest) = String final rest).
  { rewrite append_assoc, skip_params_run by done. by apply skip_params_letter. }
  destruct q'; cbn [survives andb negb]; rewrite ?append_cons, ?append_nil.
  - destruct q; cbn [andb negb].
    + unfold Js.optional_question. rewrite bool_decide_eq_true_2 by done.
      cbn [andb]. by rewrite Hrun, Hl.
    + done.
  - rewrite sequence_tail_no_question, Hrun, Hl by done. by destruct q.
Qed.

Lemma piece_text_tail_esc_free (q : bool) params final :
  all_params params = true -> Js.is_letter final = true ->
  esc_free (String "[" ((if q then "?" else "") +:+ params +:+ String final "")) = true.
Proof.
  intros Hp Hl. cbn [esc_free]. rewrite !esc_free_append.
  rewrite (all_params_esc_free params) by done.
  cbn [esc_free]. rewrite (bool_decide_eq_false_2 _ (letter_not_ESC _ Hl)).
  by destruct q.
Qed.

(** One pass drops the sequences its pattern matches and copies the
    rest. *)
Lemma replace_go_spell q ps fuel :
  forallb piece_ok ps = true -> (String.length (spell ps) <= fuel)%nat ->
  Js.replace_go q fuel (spell ps) = spell (List.filter (survives q) ps).
Proof.
  revert fuel. induction ps as [|p ps IH]; intros fuel Hok Hlen.
  - by destruct fuel.
  - cbn [forallb] in Hok. apply andb_prop in Hok as [Hp Hok].
    cbn [spell foldr] in *. fold (spell ps) in *. rewrite length_append in Hlen.
    destruct p as [c|q' params final].
    + cbn [piece_ok] in Hp. cbn [List.filter survives spell foldr].
      fold (spell (List.filter (survives q) ps)).
      rewrite replace_go_copy; cbn [piece_text esc_free String.length] in *.
      * rewrite IH by (done || lia). done.
      * by rewrite Hp.
      * lia.
    + cbn [piece_ok] in Hp. apply andb_prop in Hp as [Hpar Hfin].
      destruct fuel as [|fuel]; [cbn [piece_text String.length] in Hlen; lia|].
      pose proof (match_csi_piece q q' params final (spell ps) Hpar Hfin) as Hm.
      cbn [List.filter]. destruct (survives q (Csi q' params final)) eqn:Hsv.
      * cbn [spell foldr]. fold (spell (List.filter (survives q) ps)).
        unfold piece_text in *. rewrite append_cons in *.
        cbn [Js.replace_go]. rewrite Hm.
        cbn [String.length] in Hlen.
        rewrite replace_go_copy.
        -- rewrite IH; [by rewrite (append_cons Js.ESC) | done |].
           cbn [String.length] in *. lia.
        -- by apply piece_text_tail_esc_free.
        -- cbn [String.length] in *. lia.
      * unfold piece_text in *. rewrite append_cons in *.
        cbn [Js.replace_go]. rewrite Hm. apply IH; [done|].
        cbn [String.length] in Hlen. lia.
Qed.

Lemma survivors_ok q ps :
  forallb piece_ok ps = true -> forallb piece_ok (List.filter (survives q) ps) = true.
Proof.
  induction ps as [|p ps IH]; [done|]. cbn [forallb List.filter].
  intros [Hp Hok]%andb_prop. destruct (survives q p); cbn [forallb]; [|auto].
  by rewrite Hp, IH.
Qed.

Lemma survivors_plain ps :
  spell (List.filter (survives true) (List.filter (survives false) ps)) = plain_text ps.
Proof.
  induction ps as [|[c|[] params final] ps IH]; cbn; [done| | |]; try done.
  unfold spell, plain_text in *. cbn. by rewrite IH.
Qed.

Lemma plain_text_esc_free ps : forallb piece_ok ps = true -> esc_free (plain_text ps) = true.
Proof.
  induction ps as [|[c|q params final] ps IH]; [done| |]; cbn [forallb plain_text foldr];
    intros [Hp Hok]%andb_prop; fold (plain_text ps).
  - cbn [esc_free]. cbn [piece_ok] in Hp. by rewrite Hp, IH.
  - auto.
Qed.

Lemma cleanData_spell ps :
  forallb piece_ok ps = true -> Basic.cleanData (spell ps) = plain_text ps.
Proof.
  intros Hok. unfold Basic.cleanData, Js.replace_csi.
  rewrite (replace_go_spell false) by done.
  rewrite (replace_go_spell true) by (by apply survivors_ok || done).
  apply survivors_plain.
Qed.

(** What the two patterns of [broadcast] do remove in server/index.js:
    when every ESC of a chunk begins a complete sequence
    ESC [ (?) digits-and-semicolons letter, [broadcast] writes to the
    subscribers of the run, and to nobody else, the chunk without these
    sequences, and what it writes has no ESC in it. In
    server/index-improved.js [broadcast] writes every chunk as it comes. *)
Theorem broadcast_strips_complete_sequences ps runId s :
  forallb piece_ok ps = true ->
  let line := Basic.sse (plain_text ps) in
  esc_free line = true /\
  (exists s',
     Basic.broadcast runId (spell ps) s = Returned () s' /\
     (forall c, c ∉ Basic.runClients runId s -> wire s' !! c = wire s !! c) /\
     (forall c, exists k,
         default [] (wire s' !! c) = default [] (wire s !! c) ++ replicate k (Data line) /\
         (c ∈ Basic.runClients runId s -> (0 < k)%nat))) /\
  (forall data,
     Improved.broadcast runId data s
     = Returned () (on_wire (deliver (Data (Improved.sse data))
                                     (Improved.runClients runId s)) s)).
Proof.
  intros Hok line. split; [|split].
  - unfold line, Basic.sse. rewrite !esc_free_append, plain_text_esc_free by done. done.
  - rewrite Basic_broadcast_eq, cleanData_spell by done. eexists. split; [done|].
    split; intros c; simpl; [apply deliver_other | apply deliver_to].
  - intros data. apply Improved_broadcast_eq.
Qed.

Lemma broadcast_strips_complete_sequences_witness :
  let ps := [Csi false "31" "m"; Plain "o"; Plain "k"; Csi false "0" "m"; Csi true "25" "l"]%char in
  let line := Basic.sse (plain_text ps) in
  esc_free line = true /\
  (exists s',
     Basic.broadcast id_A (spell ps) s_live = Returned () s' /\
     (forall c, c ∉ Basic.runClients id_A s_live -> wire s' !! c = wire s_live !! c) /\
     (forall c, exists k,
         default [] (wire s' !! c) = default [] (wire s_live !! c) ++ replicate k (Data line) /\
         (c ∈ Basic.runClients id_A s_live -> (0 < k)%nat))) /\
  (forall data,
     Improved.broadcast id_A data s_live
     = Returned () (on_wire (deliver (Data (Improved.sse data))
                                     (Improved.runClients id_A s_live)) s_live)).
Proof.
  intros ps. apply (broadcast_strips_complete_sequences ps id_A s_live). reflexivity.
Defined.

(** C7, where server/index.js falls short of it: the two patterns of
    [broadcast] cover the sequences that begin ESC [ and end on a letter,
    and no other. On the reset sequence ESC c the subscriber of the live
    run is sent the two code units as they came, the ESC among them; and
    a sequence that the end of the chunk cuts short, ESC [ 3 1 with its m
    in the next chunk, passes as it is. *)
Lemma broadcast_passes_reset_sequence :
  (exists s',
     Basic.broadcast id_A reset_terminal s_live = Returned () s' /\
     wire s' !! 1%nat = Some [Head 200; Data (Basic.sse reset_terminal)] /\
     esc_free (Basic.sse reset_terminal) = false) /\
  Basic.cleanData (String Js.ESC "[31") = String Js.ESC "[31".
Proof.
  split; [|reflexivity].
  rewrite Basic_broadcast_eq. eexists. split; [reflexivity|]. split; reflexivity.
Qed.

(** ** Actions that only touch the disk, the subscribers, the responses *)

Create HintDb quiet.

Lemma quiet_ret {A} (a : A) : quiet (mret a).
Proof. by intros s. Qed.

Lemma quiet_throw {A} e : quiet (@throw A e).
Proof. by intros s. Qed.

Lemma quiet_gets {A} (f : Server -> A) : quiet (gets f).
Proof. by intros s. Qed.

Lemma quiet_bind {A B} (m : Act A) (f : A -> Act B) :
  quiet m -> (forall a, quiet (f a)) -> quiet (m ≫= f).
Proof.
  intros Hm Hf s. unfold mbind, Act_bind. specialize (Hm s).
  destruct (m s) as [a s1|e s1]; [|done].
  specialize (Hf a s1). destruct (f a s1); congruence.
Qed.

Lemma quiet_try_catch {A} (m : Act A) h :
  quiet m -> (forall e, quiet (h e)) -> quiet (try_catch m h).
Proof.
  intros Hm Hh s. unfold try_catch. specialize (Hm s).
  destruct (m s) as [a s1|e s1]; [done|].
  specialize (Hh e s1). destruct (h e s1); congruence.
Qed.

Lemma quiet_fs op e : quiet (fs op e).
Proof. intros s. unfold fs. by destruct (op (disk s)). Qed.

Lemma quiet_send res c : quiet (send res c).
Proof. by intros s. Qed.

Lemma quiet_on_clients f : quiet (modify (on_clients f)).
Proof. by intros s. Qed.

Lemma quiet_on_timers f : quiet (modify (on_timers f)).
Proof. by intros s. Qed.

Lemma quiet_forEach {A} (l : list A) f : (forall x, quiet (f x)) -> quiet (forEach l f).
Proof.
  intros Hf. induction l as [|x l IH]; simpl; [apply quiet_ret|].
  apply quiet_bind; auto.
Qed.

Lemma quiet_if {A} (b : bool) (m1 m2 : Act A) :
  quiet m1 -> quiet m2 -> quiet (if b then m1 else m2).
Proof. by destruct b. Qed.

Lemma quiet_deref r : quiet (deref r).
Proof. by intros s. Qed.

#[local] Hint Resolve quiet_ret quiet_throw quiet_gets quiet_fs quiet_send
  quiet_on_clients quiet_on_timers quiet_deref : quiet.
#[local] Hint Extern 2 (quiet (_ ≫= _)) => apply quiet_bind; [|intros ?] : quiet.
#[local] Hint Extern 2 (quiet (try_catch _ _)) => apply quiet_try_catch; [|intros ?] : quiet.
#[local] Hint Extern 2 (quiet (forEach _ _)) => apply quiet_forEach; intros ? : quiet.
#[local] Hint Extern 2 (quiet (if _ then _ else _)) => apply quiet_if : quiet.
#[local] Hint Extern 3 (quiet (match ?x with _ => _ end)) => destruct x : quiet.

Lemma quiet_extractAllTo entries target : quiet (extractAllTo entries target).
Proof. unfold extractAllTo. auto with quiet. Qed.

Lemma quiet_Basic_broadcast runId data : quiet (Basic.broadcast runId data).
Proof. unfold Basic.broadcast. auto with quiet. Qed.

Lemma quiet_Basic_getRunVideos runId : quiet (Basic.getRunVideos runId).
Proof. unfold Basic.getRunVideos. auto 10 with quiet. Qed.

Lemma quiet_Basic_getRunScreenshots runId : quiet (Basic.getRunScreenshots runId).
Proof. unfold Basic.getRunScreenshots. auto 10 with quiet. Qed.

Lemma quiet_Basic_getRunResults runId : quiet (Basic.getRunResults runId).
Proof. unfold Basic.getRunResults. auto 10 with quiet. Qed.

#[local] Hint Resolve quiet_extractAllTo quiet_Basic_broadcast quiet_Basic_getRunVideos
  quiet_Basic_getRunScreenshots quiet_Basic_getRunResults : quiet.

Lemma quiet_Basic_view run : quiet (Basic.view run).
Proof. unfold Basic.view. auto 10 with quiet. Qed.

Lemma quiet_Basic_views l : quiet (Basic.views l).
Proof.
  induction l as [|run l IH]; simpl; [apply quiet_ret|].
  apply quiet_bind; [apply quiet_Basic_view|]. intros v.
  apply quiet_bind; [done|]. intros vs. apply quiet_ret.
Qed.

#[local] Hint Resolve quiet_Basic_view quiet_Basic_views : quiet.

Lemma quiet_Basic_list_runs res : quiet (Basic.list_runs res).
Proof. unfold Basic.list_runs. auto 10 with quiet. Qed.

Lemma quiet_Basic_get_run runId res : quiet (Basic.get_run runId res).
Proof. unfold Basic.get_run. auto 10 with quiet. Qed.

Lemma quiet_Basic_stream runId res : quiet (Basic.stream runId res).
Proof. unfold Basic.stream. auto 10 with quiet. Qed.

Lemma quiet_Basic_stream_closed runId res : quiet (Basic.stream_closed runId res).
Proof. unfold Basic.stream_closed. auto 10 with quiet. Qed.

Lemma quiet_Basic_on_timeout runId : quiet (Basic.on_timeout runId).
Proof. unfold Basic.on_timeout. auto 10 with quiet. Qed.

(** A quiet action in front of a continuation: whatever holds of the
    continuation from a state with the same control part holds of the
    whole. *)
Lemma quiet_then {A B} (m : Act A) (k : A -> Act B) s (P : Outcome B -> Prop) :
  quiet m ->
  (forall e s1, control s1 = control s -> P (Thrown e s1)) ->
  (forall a s1, control s1 = control s -> P (k a s1)) ->
  P ((m ≫= k) s).
Proof.
  intros Hq Ht Hr. unfold mbind, Act_bind. specialize (Hq s).
  destruct (m s) as [a s1|e s1]; auto.
Qed.

Lemma control_is s' h r t p :
  control s' = (h, r, t, p) ->
  heap s' = h /\ runs s' = r /\ tasks s' = t /\ pending s' = p.
Proof. unfold control. intros [= -> -> -> ->]. auto. Qed.

Lemma control_eq s s' :
  control s' = control s ->
  heap s' = heap s /\ runs s' = runs s /\ tasks s' = tasks s /\ pending s' = pending s.
Proof. unfold control. intros [= -> -> -> ->]. auto. Qed.

(** *** What the handlers of server/index.js do to the control part *)

Lemma Basic_start_effect req res s : start_post req s (Basic.start req res s).
Proof.
  unfold Basic.start. destruct (file req) as [f|] eqn:Hf; [|done].
  change (mret f ≫= ?k) with (fun s => k f s). cbv beta.
  apply quiet_then; [auto with quiet | done |]. intros [] s1 H1.
  apply quiet_then; [auto with quiet | intros; simpl; congruence |]. intros [] s2 H2.
  destruct (Js.endsWith (originalname f) ".zip" || Js.isSpecName (originalname f)).
  - apply quiet_then; [auto 10 with quiet | intros; simpl; congruence |].
    intros [] s3 H3. right. exists f. split; [done|].
    apply control_eq in H1 as (Hh1 & Hr1 & Ht1 & Hp1).
    apply control_eq in H2 as (Hh2 & Hr2 & Ht2 & Hp2).
    apply control_eq in H3 as (Hh3 & Hr3 & Ht3 & Hp3).
    unfold control, newRun. simpl.
    by rewrite Hh3, Hh2, Hh1, Hr3, Hr2, Hr1, Ht3, Ht2, Ht1.
  - left. simpl. unfold control in *. simpl. congruence.
Qed.

Lemma Basic_runCypress_effect runId s : runCypress_post runId s (Basic.runCypress runId s).
Proof.
  unfold Basic.runCypress. act.
  destruct (Assoc.get runId (runs s)) as [r|] eqn:Hr; [|done]. simpl.
  repeat match goal with
         | |- context [Fs.mkdirSync ?p ?d] => destruct (Fs.mkdirSync p d); simpl; [|done]
         end.
  eexists r, _. split; [done|]. reflexivity.
Qed.

Lemma Basic_resumed_effect t task sp s :
  resumed_post t s (Basic.runCypress_resumed t task sp s).
Proof.
  unfold Basic.runCypress_resumed. act. destruct sp as [|m|m]; simpl; [| |done].
  - eexists _, Live. split; [by left|]. reflexivity.
  - eexists _, (ErrorPending m). split; [right; by exists m|]. reflexivity.
Qed.

Lemma bind_modify {B} f (k : () -> Act B) s : (modify f ≫= k) s = k () (f s).
Proof. reflexivity. Qed.

Lemma bind_gets {A B} (g : Server -> A) (k : A -> Act B) s : (gets g ≫= k) s = k (g s) s.
Proof. reflexivity. Qed.

Lemma bind_ret {A B} (a : A) (k : A -> Act B) s : (mret a ≫= k) s = k a s.
Proof. reflexivity. Qed.

Lemma bind_Basic_broadcast {B} runId data (k : () -> Act B) s :
  (Basic.broadcast runId data ≫= k) s
  = k () (on_wire (deliver (Data (Basic.sse (Basic.cleanData data)))
                           (Basic.runClients runId s)) s).
Proof. unfold mbind, Act_bind. by rewrite Basic_broadcast_eq. Qed.

Lemma fs_then {B} op e (k : () -> Act B) (P : Outcome B -> Prop) s :
  (op (disk s) = None -> P (Thrown e s)) ->
  (forall d, op (disk s) = Some d -> P (k () (on_disk (fun _ => d) s))) ->
  P ((fs op e ≫= k) s).
Proof.
  intros Hn Hs. unfold mbind, Act_bind, fs. destruct (op (disk s)); auto.
Qed.

Lemma copy_then {B} src dst (k : () -> Act B) (P : Outcome B -> Prop) s :
  (forall e s1, P (Thrown e s1)) ->
  (forall d, (forall q, Fs.diverge dst q = true ->
                        Fs.lookup q (Some d) = Fs.lookup q (Some (disk s))) ->
             P (k () (on_disk (fun _ => d) s))) ->
  P (((if Fs.existsSync src (disk s) then fs (Fs.cpSync src dst) "cpSync" else mret ())
      ≫= k) s).
Proof.
  intros Ht Hr. destruct (Fs.existsSync src (disk s)).
  - apply fs_then; [intros _; apply Ht|]. intros d Hd. apply Hr.
    intros q Hq. eapply cpSync_diverge; eauto.
  - rewrite bind_ret. replace s with (on_disk (fun _ => disk s) s) at 1 by by destruct s.
    by apply Hr.
Qed.

Lemma with_status_paths st run : paths (with_status st run) = paths run.
Proof. reflexivity. Qed.

Lemma alter_status_paths st r (h : list Run) r' :
  paths (alter (with_status st) r h !!! r') = paths (h !!! r').
Proof.
  rewrite list_lookup_total_alter. destruct (decide _) as [[-> _]|]; done.
Qed.

Lemma exit_code_zero (c : Z) : bool_decide (Some c = Some 0%Z) = bool_decide (c = 0%Z).
Proof. apply bool_decide_ext. split; [by intros [= ->] | by intros ->]. Qed.

Lemma Basic_on_close_effect t task code s :
  close_post t task code s (Basic.on_close t task code s).
Proof.
  unfold Basic.on_close, set_status, deref.
  rewrite bind_modify, bind_gets. destruct code as [c|]; [|done]. rewrite bind_ret.
  rewrite exit_code_zero.
  set (st := if bool_decide (c = 0%Z) then done else failed).
  set (s1 := on_heap (alter (with_status st) (t_run task)) s).
  set (run := heap s1 !!! t_run task).
  apply fs_then; [done|]. intros d0 Hw. rewrite bind_gets.
  apply copy_then; [done|]. intros d1 H1. rewrite bind_gets.
  apply copy_then; [done|]. intros d2 H2.
  rewrite bind_Basic_broadcast, bind_modify. unfold set_phase, modify.
  exists c. split; [done|]. split; [reflexivity|]. cbn [disk on_disk on_wire on_timers on_tasks].
  fold s1. fold run. unfold exit_code_file.
  rewrite H2, H1 by (cbn [disk on_disk]; by apply diverge_app).
  cbn [disk on_disk]. by apply writeFileSync_file in Hw.
Qed.

(** When a signal ended the child, [code] is [null]: the status is set
    to [failed] and [code.toString()] throws before anything is written. *)
Lemma Basic_on_close_signal t task s :
  Basic.on_close t task None s
  = Thrown "TypeError: Cannot read properties of null"
      (on_heap (alter (with_status failed) (t_run task)) s).
Proof. reflexivity. Qed.

(** C2. In server/index.js, when the 'close' listener of a run's child
    process has run to its end on exit code [c], the status of the run
    object is [done] if [c] is 0 and [failed] otherwise, and the file
    exit-code.txt of the run holds the decimal text of [c], which is the
    text "0" exactly when the status is [done]. *)
Theorem close_classifies_by_exit_code t task c s s' :
  (t_run task < length (heap s))%nat ->
  Basic.on_close t task (Some c) s = Returned () s' ->
  let run := heap s' !!! t_run task in
  (status run = done <-> c = 0%Z) /\
  (status run = failed <-> c ≠ 0%Z) /\
  Fs.lookup (exit_code_file run) (Some (disk s')) = Some (Fs.File (Js.toString c)) /\
  (Js.toString c = "0" <-> status run = done).
Proof.
  intros Hr H run. pose proof (Basic_on_close_effect t task (Some c) s) as Hp.
  rewrite H in Hp. destruct Hp as (c' & [= <-] & Hc & Hf).
  apply control_is in Hc as (Hh & _).
  assert (Hst : status run = if bool_decide (c = 0%Z) then done else failed).
  { unfold run. rewrite Hh, list_lookup_total_alter_eq by done. done. }
  assert (Hzero : Js.toString c = "0" <-> c = 0%Z).
  { split; [|by intros ->]. intros E. by apply (inj pretty c 0%Z). }
  rewrite Hzero, Hst. unfold run. rewrite Hh.
  destruct (decide (c = 0%Z)) as [->|Hne].
  - rewrite bool_decide_eq_true_2 in * by done. repeat split; try done.
  - rewrite bool_decide_eq_false_2 in * by done. repeat split; try done.
Qed.

(** ** The life cycle of a run in server/index.js *)

Lemma moves_same s s' : heap s' = heap s -> moves s s'.
Proof.
  intros E. unfold moves. rewrite E. split; [done|]. split; [by left|]. intros r Hr. lia.
Qed.

Lemma inv_same s s' : control s' = control s -> Basic_inv s -> Basic_inv s'.
Proof.
  intros (Hh & Hr & Ht & Hp)%control_eq [I1 I2 I3 I4].
  constructor; rewrite ?Hh, ?Hr, ?Ht, ?Hp; done.
Qed.

Lemma t_run_alter (f : Task -> Task) t (l : list Task) :
  (forall x, t_run (f x) = t_run x) -> t_run <$> alter f t l = t_run <$> l.
Proof.
  intros Hf. revert t. induction l as [|x l IH]; intros [|t]; simpl; [done..| |].
  - by rewrite Hf.
  - f_equal. apply IH.
Qed.

Lemma lookup_altered (f : Task -> Task) t (l : list Task) t0 task' :
  alter f t l !! t0 = Some task' ->
  exists task0, l !! t0 = Some task0 /\
                (t0 = t -> task' = f task0) /\ (t0 ≠ t -> task' = task0).
Proof.
  rewrite list_lookup_alter. destruct (decide (t = t0)) as [->|Hne].
  - destruct (l !! t0) as [task0|]; [|done]. intros [= <-].
    exists task0. split; [done|]. split; [done | congruence].
  - intros H. exists task'. split; [done|]. split; [congruence | done].
Qed.

Lemma not_held s r :
  (forall t task, tasks s !! t = Some task -> (t_run task < length (heap s))%nat) ->
  (length (heap s) <= r)%nat -> r ∉ (t_run <$> tasks s).
Proof.
  intros Hrefs Hr (task & -> & Hin)%list_elem_of_fmap.
  apply list_elem_of_lookup in Hin as [t Ht]. apply Hrefs in Ht. lia.
Qed.

Lemma uncaught_quiet (m : Act ()) s s' :
  quiet m -> Basic.uncaught (m s) = Basic.Continue s' -> control s' = control s.
Proof.
  intros Hq. specialize (Hq s). destruct (m s); simpl; [|done]. by intros [= <-].
Qed.

Lemma guarded_quiet (m : Act ()) res s s' :
  quiet m -> Basic.guarded res (m s) = Basic.Continue s' -> control s' = control s.
Proof.
  intros Hq. specialize (Hq s). destruct (m s); simpl; intros [= <-]; [done|].
  by rewrite <- Hq.
Qed.

Lemma Basic_accept_preserves req res s s' :
  Basic_inv s -> pending s = [] ->
  Basic.rejected (Basic.start req res s) = Basic.Continue s' ->
  Basic_inv s' /\ moves s s'.
Proof.
  intros Hinv Hp H. pose proof (Basic_start_effect req res s) as Hpost.
  assert (Hcases : control s' = control s \/
            exists f, control s' = (heap s ++ [newRun req f],
                        Assoc.set (newRunId req) (length (heap s)) (runs s),
                        tasks s, [newRunId req])).
  { destruct (Basic.start req res s) as [[] s1|e s1]; simpl in *; [|done].
    injection H as <-. destruct Hpost as [?|(f & _ & ?)]; eauto. }
  clear H Hpost. destruct Hcases as [Hc|(f & Hc)].
  - split; [by eapply inv_same | apply moves_same; by apply control_eq in Hc as (? & _)].
  - apply control_is in Hc as (Hh & Hr & Ht & Hp'). destruct Hinv as [I1 I2 I3 I4].
    split; [constructor|]; rewrite ?Hh, ?Hr, ?Ht, ?Hp'.
    + intros t task Hl. rewrite length_app. apply I1 in Hl. lia.
    + done.
    + intros t task Hl Hs. rewrite lookup_total_app_l by eauto. eauto.
    + exists (length (heap s)). rewrite get_set_eq, length_app. simpl.
      split; [done|]. split; [lia|]. split; [|by apply not_held].
      by rewrite list_lookup_total_middle.
    + unfold moves. rewrite Hh, length_app. simpl. split; [lia|]. split.
      * intros r Hlt. left. by rewrite lookup_total_app_l.
      * intros r Hlt. assert (r = length (heap s)) as -> by lia.
        by rewrite list_lookup_total_middle.
Qed.

Lemma Basic_call_preserves runId s s' :
  Basic_inv s -> pending s = [runId] ->
  Basic.uncaught (Basic.runCypress runId (on_pending (fun _ => []) s)) = Basic.Continue s' ->
  Basic_inv s' /\ moves s s'.
Proof.
  intros [I1 I2 I3 I4] Hp H. rewrite Hp in I4. destruct I4 as (r & Hget & Hlt & Hq & Hfree).
  pose proof (Basic_runCypress_effect runId (on_pending (fun _ => []) s)) as Hpost.
  destruct (Basic.runCypress runId (on_pending (fun _ => []) s)) as [[] s1|e s1];
    simpl in H; [injection H as <-|done].
  destruct Hpost as (r' & cmd & Hget' & Hc). simpl in Hget', Hc.
  rewrite Hget in Hget'. injection Hget' as <-.
  apply control_is in Hc as (Hh & Hr & Ht & Hp').
  split; [constructor|]; rewrite ?Hh, ?Hr, ?Ht, ?Hp', ?length_alter.
  - intros t task Hl. apply lookup_app_Some in Hl as [Hl|[_ Hl]]; [eauto|].
    apply list_lookup_singleton_Some in Hl as [_ <-]. done.
  - rewrite fmap_app. apply NoDup_app. split; [done|]. split; [|apply NoDup_singleton].
    intros x Hx ->%list_elem_of_singleton. done.
  - intros t task Hl Hs. apply lookup_app_Some in Hl as [Hl|[_ Hl]].
    + rewrite list_lookup_total_alter_ne; [eauto|].
      intros ->. apply Hfree. apply list_elem_of_fmap. exists task. split; [done|].
      by eapply list_elem_of_lookup_2.
    + apply list_lookup_singleton_Some in Hl as [_ <-]. simpl.
      by rewrite list_lookup_total_alter_eq.
  - done.
  - unfold moves. rewrite Hh, length_alter. split; [done|]. split; [|intros; lia].
    intros r0 Hr0. destruct (decide (r = r0)) as [<-|Hne].
    + right. left. by rewrite list_lookup_total_alter_eq.
    + left. by rewrite list_lookup_total_alter_ne.
Qed.

Lemma Basic_resume_preserves t task sp s s' :
  Basic_inv s -> pending s = [] -> tasks s !! t = Some task -> t_phase task = Probing ->
  Basic.uncaught (Basic.runCypress_resumed t task sp s) = Basic.Continue s' ->
  Basic_inv s' /\ moves s s'.
Proof.
  intros [I1 I2 I3 I4] Hp Ht Hph H.
  pose proof (Basic_resumed_effect t task sp s) as Hpost.
  destruct (Basic.runCypress_resumed t task sp s) as [[] s1|e s1];
    simpl in H; [injection H as <-|done].
  destruct Hpost as (cmd & ph & Hcases & Hc).
  apply control_is in Hc as (Hh & Hr & Ht' & Hp').
  split; [|by apply moves_same].
  constructor; rewrite ?Hh, ?Hr, ?Ht', ?Hp'.
  - intros t0 task' Hl. apply lookup_altered in Hl as (x & Hl & Heq & Hne).
    apply lookup_altered in Hl as (y & Hl & Heq' & Hne').
    destruct (decide (t0 = t)) as [E|E].
    + rewrite (Heq E), (Heq' E). simpl. eauto.
    + rewrite (Hne E), (Hne' E). eauto.
  - by rewrite !t_run_alter.
  - intros t0 task' Hl Hs. apply lookup_altered in Hl as (x & Hl & Heq & Hne).
    apply lookup_altered in Hl as (y & Hl & Heq' & Hne').
    destruct (decide (t0 = t)) as [E|E].
    + rewrite (Heq E), (Heq' E). simpl. subst t0. rewrite Ht in Hl. injection Hl as <-.
      apply (I3 t task Ht). left. done.
    + rewrite (Hne E), (Hne' E) in *. eauto.
  - by rewrite Hp.
Qed.

Lemma Basic_close_preserves t task code s s' :
  Basic_inv s -> pending s = [] -> tasks s !! t = Some task -> t_phase task = Live ->
  Basic.uncaught (Basic.on_close t task code s) = Basic.Continue s' ->
  Basic_inv s' /\ moves s s'.
Proof.
  intros [I1 I2 I3 I4] Hp Ht Hph H.
  pose proof (Basic_on_close_effect t task code s) as Hpost.
  destruct (Basic.on_close t task code s) as [[] s1|e s1];
    simpl in H; [injection H as <-|done].
  destruct Hpost as (c & -> & Hc & _).
  apply control_is in Hc as (Hh & Hr & Ht' & Hp').
  assert (Hrun : status (heap s !!! t_run task) = running).
  { apply (I3 t task Ht). right. left. done. }
  split; [constructor|]; rewrite ?Hh, ?Hr, ?Ht', ?Hp', ?length_alter.
  - intros t0 task' Hl. apply lookup_altered in Hl as (x & Hl & Heq & Hne).
    destruct (decide (t0 = t)) as [E|E].
    + rewrite (Heq E). simpl. eauto.
    + rewrite (Hne E). eauto.
  - by rewrite t_run_alter.
  - intros t0 task' Hl Hs. apply lookup_altered in Hl as (x & Hl & Heq & Hne).
    destruct (decide (t0 = t)) as [E|E].
    + rewrite (Heq E) in Hs. simpl in Hs. destruct Hs as [?|[?|[m ?]]]; done.
    + rewrite (Hne E) in *. rewrite list_lookup_total_alter_ne; [eauto|].
      intros Heq'. apply E. eapply NoDup_lookup; [exact I2| |].
      * rewrite list_lookup_fmap, Hl. done.
      * rewrite list_lookup_fmap, Ht. simpl. by rewrite Heq'.
  - by rewrite Hp.
  - unfold moves. rewrite Hh, length_alter. split; [done|]. split; [|intros; lia].
    intros r0 Hr0. destruct (decide (t_run task = r0)) as [<-|Hne].
    + right. right. rewrite list_lookup_total_alter_eq by done. simpl.
      split; [done|]. destruct (bool_decide (c = 0%Z)); auto.
    + left. by rewrite list_lookup_total_alter_ne.
Qed.

Lemma close_classifies_by_exit_code_witness :
  let run := heap s_closed !!! 0%nat in
  (status run = done <-> 0%Z = 0%Z) /\
  (status run = failed <-> 0%Z ≠ 0%Z) /\
  Fs.lookup (exit_code_file run) (Some (disk s_closed)) = Some (Fs.File (Js.toString 0)) /\
  (Js.toString 0 = "0" <-> status run = done).
Proof.
  apply (close_classifies_by_exit_code 0%nat task_A 0%Z s_live s_closed).
  - vm_compute. lia.
  - vm_compute. reflexivity.
Defined.

Lemma Basic_step_preserves s ev s' :
  Basic_inv s -> Basic.step ev s = Basic.Continue s' -> Basic_inv s' /\ moves s s'.
Proof.
  intros Hinv H. unfold Basic.step in H.
  assert (Hquiet : control s' = control s -> Basic_inv s' /\ moves s s').
  { intros Hc. split; [by eapply inv_same|].
    apply moves_same. by apply control_eq in Hc as (? & _). }
  destruct (pending s) as [|runId rest] eqn:Hp.
  - destruct ev as [req res| |t sp|t data|t|t code|runId|runId res|runId res|res|runId res].
    + by eapply Basic_accept_preserves.
    + done.
    + destruct (tasks s !! t) as [task|] eqn:Ht; [|done].
      destruct (t_phase task) eqn:Hph; try done. by eapply Basic_resume_preserves.
    + destruct (tasks s !! t) as [task|] eqn:Ht; [|done].
      destruct (t_phase task) eqn:Hph; try done.
      apply Hquiet. eapply uncaught_quiet; [|exact H]. apply quiet_Basic_broadcast.
    + destruct (tasks s !! t) as [task|] eqn:Ht; [|done].
      destruct (t_phase task) eqn:Hph; done.
    + destruct (tasks s !! t) as [task|] eqn:Ht; [|done].
      destruct (t_phase task) eqn:Hph; try done. by eapply Basic_close_preserves.
    + destruct (Basic.remove_first runId (timers s)) as [l|]; [|done].
      apply uncaught_quiet in H; [|apply quiet_Basic_on_timeout]. by apply Hquiet.
    + apply Hquiet. eapply uncaught_quiet; [|exact H]. apply quiet_Basic_stream.
    + apply Hquiet. eapply uncaught_quiet; [|exact H]. apply quiet_Basic_stream_closed.
    + apply Hquiet. eapply guarded_quiet; [|exact H]. apply quiet_Basic_list_runs.
    + apply Hquiet. eapply guarded_quiet; [|exact H]. apply quiet_Basic_get_run.
  - destruct ev; try done.
    pose proof (inv_pending _ Hinv) as I4. rewrite Hp in I4.
    destruct rest; [|done]. by eapply Basic_call_preserves.
Qed.

Lemma Basic_inv_boot d : Basic_inv (boot d).
Proof.
  constructor; simpl; [done | apply NoDup_nil_2 | done | done].
Qed.

Lemma Basic_inv_reachable d s : Basic.reachable d s -> Basic_inv s.
Proof.
  induction 1 as [|s ev s' _ IH Hstep]; [apply Basic_inv_boot|].
  by destruct (Basic_step_preserves s ev s' IH Hstep).
Qed.

Lemma advance_not_terminal a b : advance a b -> ~ terminal a.
Proof. intros [[-> _]|[-> _]] [?|?]; done. Qed.

Lemma moves_keep_terminal s s' r :
  moves s s' -> (r < length (heap s))%nat -> terminal (status (heap s !!! r)) ->
  status (heap s' !!! r) = status (heap s !!! r).
Proof.
  intros (_ & Hm & _) Hr Ht. destruct (Hm r Hr) as [?|Ha]; [done|].
  by apply advance_not_terminal in Ha.
Qed.

Lemma Basic_terminal_forever evs : forall s s' r,
  Basic_inv s -> Basic.after evs s = Basic.Continue s' ->
  (r < length (heap s))%nat -> terminal (status (heap s !!! r)) ->
  (r < length (heap s'))%nat /\ status (heap s' !!! r) = status (heap s !!! r).
Proof.
  induction evs as [|ev evs IH]; intros s s' r Hinv H Hr Ht; simpl in H.
  - by injection H as <-.
  - destruct (Basic.step ev s) as [s1| |] eqn:Hstep; [|done..].
    destruct (Basic_step_preserves s ev s1 Hinv Hstep) as [Hinv1 Hm].
    pose proof (moves_keep_terminal s s1 r Hm Hr Ht) as Hkeep.
    destruct Hm as (Hlen & _).
    destruct (IH s1 s' r Hinv1 H) as [Hr' Hs']; [lia | by rewrite Hkeep |].
    split; [done | congruence].
Qed.

(** C1. In server/index.js, from any state the server can be in: one
    event leaves every run object in place and either keeps its status
    or moves it from [queued] to [running] or from [running] to [done] or
    [failed], a new object being [queued] (the status never goes from
    [queued] to [failed]); and a status that is [done] or [failed] is the
    same after any sequence of events. *)
Theorem status_follows_life_cycle d s :
  Basic.reachable d s ->
  (forall ev s', Basic.step ev s = Basic.Continue s' -> moves s s') /\
  (forall evs s' r,
     Basic.after evs s = Basic.Continue s' ->
     (r < length (heap s))%nat -> terminal (status (heap s !!! r)) ->
     (r < length (heap s'))%nat /\ status (heap s' !!! r) = status (heap s !!! r)).
Proof.
  intros Hr. apply Basic_inv_reachable in Hr. split.
  - intros ev s' H. by destruct (Basic_step_preserves s ev s' Hr H).
  - intros evs s' r. by apply Basic_terminal_forever.
Qed.

Lemma reachable_after d evs : forall s s',
  Basic.reachable d s -> Basic.after evs s = Basic.Continue s' -> Basic.reachable d s'.
Proof.
  induction evs as [|ev evs IH]; intros s s' Hr H; simpl in H.
  - by injection H as <-.
  - destruct (Basic.step ev s) as [s1| |] eqn:Hstep; [|done..].
    eapply IH; [|exact H]. eapply Basic.reach_step; eauto.
Qed.

Lemma status_follows_life_cycle_witness :
  (forall ev s', Basic.step ev s_live = Basic.Continue s' -> moves s_live s') /\
  (forall evs s' r,
     Basic.after evs s_live = Basic.Continue s' ->
     (r < length (heap s_live))%nat -> terminal (status (heap s_live !!! r)) ->
     (r < length (heap s'))%nat /\ status (heap s' !!! r) = status (heap s_live !!! r)).
Proof.
  apply (status_follows_life_cycle disk0 s_live).
  apply (reachable_after disk0
           [Basic.PostStart start_A 0%nat; Basic.Call;
            Basic.Resume 0%nat Spawned; Basic.GetStream id_A 1%nat] (boot disk0)).
  - apply Basic.reach_boot.
  - vm_compute. reflexivity.
Defined.

(** ** A spawn that fails, in server/index-improved.js *)

Lemma bind_Improved_broadcast {B} runId data (k : () -> Act B) s :
  (Improved.broadcast runId data ≫= k) s
  = k () (on_wire (deliver (Data (Improved.sse data)) (Improved.runClients runId s)) s).
Proof. unfold mbind, Act_bind. by rewrite Improved_broadcast_eq. Qed.

Lemma Improved_failed_eq runId r m s :
  Improved.runCypress_failed runId r m s
  = Returned () (on_wire (deliver (error_line m) (Improved.runClients runId s))
                   (on_heap (alter (with_status failed) r) s)).
Proof.
  unfold Improved.runCypress_failed, set_status. rewrite bind_modify.
  by rewrite Improved_broadcast_eq.
Qed.

(** [runCypress] of server/index.js, entered for a registered run: the
    run is [running] from its first statement on; the call returns with
    the three directories made and the invocation waiting for
    [findConfigFile], no child process yet, or it throws on the directory
    that cannot be made. *)
Lemma Basic_runCypress_entry runId r s :
  Assoc.get runId (runs s) = Some r -> (r < length (heap s))%nat ->
  match makeFolders (heap s !!! r) (disk s) with
  | Some d =>
      exists s1 cmd,
        Basic.runCypress runId s = Returned () s1 /\
        status (heap s1 !!! r) = running /\ disk s1 = d /\ wire s1 = wire s /\
        tasks s1 = tasks s ++ [{| t_runId := runId; t_run := r; t_cmd := cmd;
                                  t_phase := Probing |}]
  | None =>
      exists e s1,
        Basic.runCypress runId s = Thrown e s1 /\
        status (heap s1 !!! r) = running /\ wire s1 = wire s /\ tasks s1 = tasks s
  end.
Proof.
  intros Hr Hlt. unfold Basic.runCypress, makeFolders. act. rewrite Hr.
  cbn [heap on_heap disk]. rewrite alter_status_paths.
  assert (Hst : status (alter (with_status running) r (heap s) !!! r) = running).
  { by rewrite list_lookup_total_alter_eq. }
  destruct (Fs.mkdirSync _ (disk s)) as [d1|]; cbn [disk on_disk option_bind];
    [|eexists _, _; split; [reflexivity|]; by cbn [heap on_heap wire tasks]].
  destruct (Fs.mkdirSync _ d1) as [d2|]; cbn [disk on_disk option_bind];
    [|eexists _, _; split; [reflexivity|]; by cbn [heap on_heap on_disk wire tasks]].
  destruct (Fs.mkdirSync _ d2) as [d3|]; cbn [disk on_disk option_bind];
    [|eexists _, _; split; [reflexivity|]; by cbn [heap on_heap on_disk wire tasks]].
  eexists _, _. split; [reflexivity|]. by cbn [heap on_heap on_disk on_tasks wire tasks disk].
Qed.

(** The same of server/index-improved.js: the call returns in both cases,
    and when a directory cannot be made its [catch] has set the run
    [failed] and told the subscribers of the run. *)
Lemma Improved_runCypress_entry cfg runId r s :
  Assoc.get runId (runs s) = Some r -> (r < length (heap s))%nat ->
  match makeFolders (heap s !!! r) (disk s) with
  | Some d =>
      exists s1 cmd,
        Improved.runCypress cfg runId s = Returned () s1 /\
        status (heap s1 !!! r) = running /\ disk s1 = d /\ wire s1 = wire s /\
        tasks s1 = tasks s ++ [{| t_runId := runId; t_run := r; t_cmd := cmd;
                                  t_phase := Probing |}]
  | None =>
      exists m s1,
        Improved.runCypress cfg runId s = Returned () s1 /\
        status (heap s1 !!! r) = failed /\ tasks s1 = tasks s /\
        wire s1 = deliver (error_line m) (Improved.runClients runId s) (wire s)
  end.
Proof.
  intros Hr Hlt. unfold Improved.runCypress, makeFolders. rewrite bind_gets, Hr.
  set (F := Improved.runCypress_failed runId r).
  assert (Hfail : forall m d,
            exists s1,
              F m (on_disk (fun _ => d) (on_heap (alter (with_status running) r) s))
              = Returned () s1 /\
              status (heap s1 !!! r) = failed /\ tasks s1 = tasks s /\
              wire s1 = deliver (error_line m) (Improved.runClients runId s) (wire s)).
  { intros m d. unfold F. rewrite Improved_failed_eq. eexists. split; [done|].
    cbn [heap on_heap on_disk on_wire tasks wire].
    rewrite list_lookup_total_alter_eq by by rewrite length_alter. done. }
  assert (Hsame : on_heap (alter (with_status running) r) s
                  = on_disk (fun _ => disk s) (on_heap (alter (with_status running) r) s)).
  { by destruct s. }
  act. cbn [heap on_heap disk]. rewrite alter_status_paths.
  destruct (Fs.mkdirSync _ (disk s)) as [d1|]; cbn [disk on_disk option_bind].
  - destruct (Fs.mkdirSync _ d1) as [d2|]; cbn [disk on_disk option_bind].
    + destruct (Fs.mkdirSync _ d2) as [d3|]; cbn [disk on_disk option_bind].
      * eexists _, _. split; [reflexivity|].
        cbn [heap on_heap on_disk on_tasks wire tasks disk].
        by rewrite list_lookup_total_alter_eq.
      * exists "mkdirSync". apply (Hfail "mkdirSync" d2).
    + exists "mkdirSync". apply (Hfail "mkdirSync" d1).
  - exists "mkdirSync". rewrite Hsame. apply (Hfail "mkdirSync" (disk s)).
Qed.

(** A failed spawn leaves the statuses as they are; the 'error' event is
    still to come. *)
Lemma Improved_resumed_spawn_error t task m s :
  exists s' cmd,
    Improved.runCypress_resumed t task (SpawnError m) s = Returned () s' /\
    heap s' = heap s /\ wire s' = wire s /\ clients s' = clients s /\
    tasks s' = alter (with_phase (ErrorPending m)) t (alter (with_cmd cmd) t (tasks s)).
Proof.
  unfold Improved.runCypress_resumed, try_catch, deref, set_phase.
  rewrite !bind_gets, bind_modify. unfold modify. eexists _, _. split; [reflexivity|].
  simpl. done.
Qed.

Lemma Improved_on_error_eq t task m s :
  Improved.on_error t task m s
  = Returned () (on_tasks (alter (with_phase ErrorEmitted) t)
                   (on_wire (deliver (error_line m) (Improved.runClients (t_runId task) s))
                      (on_heap (alter (with_status failed) (t_run task)) s))).
Proof.
  unfold Improved.on_error, set_status, set_phase.
  by rewrite bind_modify, bind_Improved_broadcast.
Qed.

Lemma Improved_on_close_returned t task c s s' :
  Improved.on_close t task (Some c) s = Returned () s' ->
  let st := if bool_decide (c = 0%Z) then done else failed in
  let run := with_status st (heap s !!! t_run task) in
  (t_run task < length (heap s))%nat ->
  exists d,
    Fs.writeFileSync (exit_code_file run) (Js.toString c) (disk s) = Some d /\
    s' = on_tasks (alter (with_phase Exited) t)
           (on_timers (fun l => l ++ [t_runId task])
              (on_wire (deliver (marker_line st c) (Improved.runClients (t_runId task) s))
                 (on_disk (fun _ => d)
                    (on_heap (alter (with_status st) (t_run task)) s)))).
Proof.
  intros H st run Hlt. revert H.
  unfold Improved.on_close, set_status, deref, set_phase.
  rewrite bind_modify, bind_gets, bind_ret, exit_code_zero. fold st.
  cbn [heap on_heap]. rewrite list_lookup_total_alter_eq by done. fold run.
  unfold mbind at 1, Act_bind at 1, fs at 1. cbn [disk on_disk on_heap].
  unfold exit_code_file.
  destruct (Fs.writeFileSync _ _ (disk s)) as [d|]; [|done].
  rewrite bind_Improved_broadcast, bind_modify. unfold modify.
  intros [= <-]. by exists d.
Qed.

(** In server/index-improved.js the 'error' event of one run stays with
    that run: the other run objects, the registry, the subscribers, the
    disk, the other invocations and the responses of those who did not
    subscribe to the run are as before. *)
Lemma Improved_error_is_contained t task m s :
  exists s',
    Improved.on_error t task m s = Returned () s' /\
    (forall r, r ≠ t_run task -> heap s' !!! r = heap s !!! r) /\
    runs s' = runs s /\ clients s' = clients s /\ disk s' = disk s /\
    (forall t', t' ≠ t -> tasks s' !! t' = tasks s !! t') /\
    (forall c, c ∉ Improved.runClients (t_runId task) s -> wire s' !! c = wire s !! c).
Proof.
  rewrite Improved_on_error_eq. eexists. split; [done|]. simpl.
  split; [intros r Hr; by rewrite list_lookup_total_alter_ne|].
  do 3 (split; [done|]).
  split; [intros t' Ht'; by rewrite list_lookup_alter_ne|].
  intros c. apply deliver_other.
Qed.

(** C3, as amended: a registered run becomes [running] when
    [runCypress] is entered for it, before any child process. When the
    three artifact directories can be made the call leaves the run
    [running] and the invocation waiting for [findConfigFile], in
    server/index.js and in server/index-improved.js alike; when one of
    them cannot, server/index.js throws with the run [running], and
    server/index-improved.js returns with the run [failed] and the line
    ERROR sent to the subscribers of the run. In server/index-improved.js
    a spawn that fails changes no status; the 'error' and 'close' events
    that follow it leave the run [failed], every subscriber of the run
    having been sent the line ERROR with the reason and after it the
    marker RUN_DONE, and exit-code.txt holding the negative error number
    of the runtime. *)
Theorem spawn_failure_is_reported cfg runId r s :
  Assoc.get runId (runs s) = Some r -> (r < length (heap s))%nat ->
  match makeFolders (heap s !!! r) (disk s) with
  | Some d =>
      exists s1 cmd,
        Basic.runCypress runId s = Returned () s1 /\
        status (heap s1 !!! r) = running /\ disk s1 = d /\ wire s1 = wire s /\
        tasks s1 = tasks s ++ [{| t_runId := runId; t_run := r; t_cmd := cmd;
                                  t_phase := Probing |}]
  | None =>
      exists e s1,
        Basic.runCypress runId s = Thrown e s1 /\
        status (heap s1 !!! r) = running /\ wire s1 = wire s /\ tasks s1 = tasks s
  end /\
  match makeFolders (heap s !!! r) (disk s) with
  | Some d =>
      exists s1 cmd,
        Improved.runCypress cfg runId s = Returned () s1 /\
        status (heap s1 !!! r) = running /\ disk s1 = d /\ wire s1 = wire s /\
        tasks s1 = tasks s ++ [{| t_runId := runId; t_run := r; t_cmd := cmd;
                                  t_phase := Probing |}]
  | None =>
      exists m s1,
        Improved.runCypress cfg runId s = Returned () s1 /\
        status (heap s1 !!! r) = failed /\ tasks s1 = tasks s /\
        wire s1 = deliver (error_line m) (Improved.runClients runId s) (wire s)
  end /\
  (forall t task m s1, exists s2 cmd,
     Improved.runCypress_resumed t task (SpawnError m) s1 = Returned () s2 /\
     heap s2 = heap s1 /\ wire s2 = wire s1 /\ clients s2 = clients s1 /\
     tasks s2 = alter (with_phase (ErrorPending m)) t (alter (with_cmd cmd) t (tasks s1))) /\
  (forall t task m code s2 s4,
     t_runId task = runId -> t_run task = r -> (r < length (heap s2))%nat ->
     (code < 0)%Z ->
     (Improved.on_error t task m;; Improved.on_close t task (Some code)) s2
     = Returned () s4 ->
     status (heap s4 !!! r) = failed /\
     Fs.lookup (exit_code_file (heap s4 !!! r)) (Some (disk s4))
     = Some (Fs.File (Js.toString code)) /\
     forall c, exists k1 k2,
       default [] (wire s4 !! c)
       = default [] (wire s2 !! c) ++ replicate k1 (error_line m)
                                    ++ replicate k2 (marker_line failed code) /\
       (c ∈ Improved.runClients runId s2 -> (0 < k1)%nat /\ (0 < k2)%nat)).
Proof.
  intros Hr Hlt. split; [by apply Basic_runCypress_entry|].
  split; [by apply Improved_runCypress_entry|].
  split; [intros; apply Improved_resumed_spawn_error|].
  intros t task m code s2 s4 Hid Hrun Hlt2 Hneg H.
  unfold mbind, Act_bind in H. rewrite Improved_on_error_eq in H.
  apply Improved_on_close_returned in H;
    [|cbn [heap on_tasks on_wire on_heap]; rewrite length_alter; lia].
  destruct H as (d & Hw & ->). rewrite Hid, Hrun in *.
  rewrite (bool_decide_eq_false_2 (code = 0%Z)) in * by lia.
  cbn [heap disk wire on_tasks on_timers on_wire on_disk on_heap] in *.
  split; [|split].
  - rewrite list_lookup_total_alter_eq by (rewrite length_alter; lia). done.
  - apply writeFileSync_file in Hw. unfold exit_code_file in *.
    rewrite with_status_paths in Hw. by rewrite alter_status_paths.
  - intros c. change (Improved.runClients runId (on_tasks _ (on_wire _ (on_heap _ s2))))
      with (Improved.runClients runId s2).
    destruct (deliver_to (error_line m) (Improved.runClients runId s2) (wire s2) c)
      as (k1 & E1 & P1).
    destruct (deliver_to (marker_line failed code) (Improved.runClients runId s2)
                (deliver (error_line m) (Improved.runClients runId s2) (wire s2)) c)
      as (k2 & E2 & P2).
    exists k1, k2. split; [by rewrite E2, E1, app_assoc | auto].
Qed.

Lemma spawn_failure_is_reported_witness :
  status (heap i_over !!! 0%nat) = failed /\
  Fs.lookup (exit_code_file (heap i_over !!! 0%nat)) (Some (disk i_over))
  = Some (Fs.File (Js.toString (-2))) /\
  forall c, exists k1 k2,
    default [] (wire i_over !! c)
    = default [] (wire i_unspawned !! c) ++ replicate k1 (error_line enoent)
                                          ++ replicate k2 (marker_line failed (-2)) /\
    (c ∈ Improved.runClients id_A i_unspawned -> (0 < k1)%nat /\ (0 < k2)%nat).
Proof.
  destruct (spawn_failure_is_reported keep_one id_A 0%nat i_subscribed) as (_ & _ & _ & H).
  - reflexivity.
  - vm_compute. lia.
  - apply (H 0%nat (with_phase (ErrorPending enoent) i_task) enoent (-2)%Z
             i_unspawned i_over).
    + reflexivity.
    + reflexivity.
    + vm_compute. lia.
    + lia.
    + vm_compute. reflexivity.
Defined.

(** C3 fails as stated: run A is [queued] when [runCypress] is entered;
    it is [running] from then on, while the invocation waits for
    [findConfigFile] and after [spawn] has failed, with no child process
    at any time; only the 'error' event makes it [failed]. *)
Lemma running_before_any_spawn :
  status (heap i_subscribed !!! 0%nat) = queued /\
  Improved.runCypress keep_one id_A i_subscribed = Returned () i_entered /\
  status (heap i_entered !!! 0%nat) = running /\
  t_phase <$> tasks i_entered = [Probing] /\
  Improved.runCypress_resumed 0%nat i_task (SpawnError enoent) i_entered
  = Returned () i_unspawned /\
  status (heap i_unspawned !!! 0%nat) = running /\
  t_phase <$> tasks i_unspawned = [ErrorPending enoent] /\
  Improved.on_error 0%nat (with_phase (ErrorPending enoent) i_task) enoent i_unspawned
  = Returned () i_errored /\
  status (heap i_errored !!! 0%nat) = failed.
Proof.
  repeat split; vm_compute; reflexivity.
Qed.

(** ** Sorting by creation time *)

Section SortFacts.
Context {A : Type} (key : A -> Z).
Let compare (a b : A) : Z := (key b - key a)%Z.
Let newer_first (a b : A) : Prop := (key b <= key a)%Z.

Lemma insert_Permutation x l : Js.insert compare x l ≡ₚ x :: l.
Proof.
  induction l as [|y l IH]; simpl; [done|].
  destruct (compare x y <=? 0)%Z; [done|]. rewrite IH. apply Permutation_swap.
Qed.

Lemma sort_Permutation l : Js.sort compare l ≡ₚ l.
Proof.
  induction l as [|x l IH]; simpl; [done|].
  unfold Js.sort in *. simpl. by rewrite insert_Permutation, IH.
Qed.

Lemma insert_sorted x l :
  StronglySorted newer_first l -> StronglySorted newer_first (Js.insert compare x l).
Proof.
  induction 1 as [|y l Hs IH Hy]; simpl.
  - repeat constructor.
  - destruct (compare x y <=? 0)%Z eqn:E.
    + apply Z.leb_le in E. unfold compare in E.
      constructor; [by constructor|]. constructor; [unfold newer_first; lia|].
      eapply Forall_impl; [exact Hy|]. unfold newer_first. intros z Hz. lia.
    + apply Z.leb_gt in E. unfold compare in E. constructor; [done|].
      rewrite insert_Permutation. constructor; [unfold newer_first; lia | done].
Qed.

Lemma sort_sorted l : StronglySorted newer_first (Js.sort compare l).
Proof.
  induction l as [|x l IH]; [constructor|]. unfold Js.sort in *. simpl.
  by apply insert_sorted.
Qed.

End SortFacts.

Lemma slice_suffix {A} (start : Z) (l : list A) :
  exists k, Js.slice start l = drop k l /\
            ((0 <= start)%Z -> (start <= Z.of_nat (length l))%Z -> k = Z.to_nat start).
Proof.
  unfold Js.slice. eexists. split; [done|]. intros H0 Hle.
  rewrite (proj2 (Z.ltb_ge _ _)) by done. f_equal. lia.
Qed.

(** ** The retention sweep *)

Lemma runsArray_Permutation s : Improved.runsArray s ≡ₚ runs s.
Proof. unfold Improved.runsArray. apply (sort_Permutation (age s)). Qed.

Lemma runsArray_sorted s :
  StronglySorted (fun a b => (age s b <= age s a)%Z) (Improved.runsArray s).
Proof. unfold Improved.runsArray. apply (sort_sorted (age s)). Qed.

Lemma kept_toDelete cfg s : Improved.runsArray s = kept cfg s ++ Improved.toDelete cfg s.
Proof.
  unfold kept, Improved.toDelete.
  destruct (maxRunsRetention cfg <? _)%Z.
  - destruct (slice_suffix (maxRunsRetention cfg) (Improved.runsArray s)) as (k & -> & _).
    rewrite length_drop.
    destruct (decide (k <= length (Improved.runsArray s))%nat).
    + replace (length (Improved.runsArray s) - (length (Improved.runsArray s) - k))%nat
        with k by lia. by rewrite take_drop.
    + rewrite drop_ge by lia. rewrite take_ge by lia. by rewrite app_nil_r.
  - simpl. rewrite Nat.sub_0_r, take_ge by lia. by rewrite app_nil_r.
Qed.

Lemma kept_length cfg s :
  (0 <= maxRunsRetention cfg)%Z -> (Z.of_nat (length (kept cfg s)) <= maxRunsRetention cfg)%Z.
Proof.
  intros H0. unfold kept, Improved.toDelete.
  destruct (maxRunsRetention cfg <? _)%Z eqn:E.
  - apply Z.ltb_lt in E.
    destruct (slice_suffix (maxRunsRetention cfg) (Improved.runsArray s)) as (k & -> & Hk).
    rewrite (Hk H0) by lia. rewrite length_take, length_drop. lia.
  - apply Z.ltb_ge in E. rewrite length_take. lia.
Qed.

(** The runs the sweep goes after are the oldest. *)
Lemma toDelete_oldest cfg s e k :
  e ∈ Improved.toDelete cfg s -> k ∈ kept cfg s -> (age s e <= age s k)%Z.
Proof.
  intros He Hk. pose proof (runsArray_sorted s) as Hs. rewrite (kept_toDelete cfg) in Hs.
  apply (StronglySorted_app_1_elem_of _ _ _ _ _ Hs Hk He).
Qed.

Lemma toDelete_registered cfg s e : e ∈ Improved.toDelete cfg s -> e ∈ runs s.
Proof.
  intros He. rewrite <- runsArray_Permutation, (kept_toDelete cfg).
  apply elem_of_app. by right.
Qed.


Lemma toDelete_drop cfg s :
  (0 <= maxRunsRetention cfg)%Z ->
  Improved.toDelete cfg s = drop (Z.to_nat (maxRunsRetention cfg)) (Improved.runsArray s).
Proof.
  intros H0. unfold Improved.toDelete.
  destruct (maxRunsRetention cfg <? _)%Z eqn:E.
  - apply Z.ltb_lt in E.
    destruct (slice_suffix (maxRunsRetention cfg) (Improved.runsArray s)) as (k & -> & Hk).
    by rewrite (Hk H0) by lia.
  - apply Z.ltb_ge in E. rewrite drop_ge by lia. done.
Qed.

Lemma kept_take cfg s :
  (0 <= maxRunsRetention cfg)%Z ->
  kept cfg s = take (Z.to_nat (maxRunsRetention cfg)) (Improved.runsArray s).
Proof.
  intros H0. unfold kept. rewrite toDelete_drop by done. rewrite length_drop.
  destruct (decide (Z.to_nat (maxRunsRetention cfg) <= length (Improved.runsArray s))%nat).
  - f_equal. lia.
  - rewrite !take_ge by lia. done.
Qed.


Lemma evict_round refuses e s :
  Improved.removeRun refuses e s = Returned () (evict refuses s e).
Proof.
  unfold Improved.removeRun, try_catch, deref, Improved.rmSync, evict. rewrite bind_gets.
  destruct (refuses _); [done|].
  unfold mbind, Act_bind, fs. by destruct (Fs.rmSync _ (disk s)).
Qed.

Lemma bind_returned_eq {A B} (m : Act A) (k : A -> Act B) s a s1 :
  m s = Returned a s1 -> (m ≫= k) s = k a s1.
Proof. unfold mbind, Act_bind. by intros ->. Qed.

Lemma sweep_loop refuses l s :
  forEach l (Improved.removeRun refuses) s = Returned () (foldl (evict refuses) s l).
Proof.
  revert s. induction l as [|e l IH]; intros s; [done|].
  cbn [forEach foldl]. rewrite (bind_returned_eq _ _ _ _ _ (evict_round refuses e s)).
  apply IH.
Qed.

Lemma cleanupOldRuns_eq cfg refuses s :
  Improved.cleanupOldRuns cfg refuses s
  = Returned () (foldl (evict refuses) s (Improved.toDelete cfg s)).
Proof.
  unfold Improved.cleanupOldRuns, try_catch. by rewrite bind_gets, sweep_loop.
Qed.

Lemma evict_heap refuses s e : heap (evict refuses s e) = heap s.
Proof.
  unfold evict. destruct (refuses _); [done|]. by destruct (Fs.rmSync _ _).
Qed.

Lemma evict_other refuses s e k :
  k ≠ e.1 -> Assoc.get k (runs (evict refuses s e)) = Assoc.get k (runs s).
Proof.
  intros Hne. unfold evict. destruct (refuses _); [done|].
  destruct (Fs.rmSync _ _); [|done]. simpl. by apply get_delete_ne.
Qed.

(** Only the runs the sweep goes after leave the registry. *)
Lemma sweep_evicts_among refuses l s k :
  is_Some (Assoc.get k (runs s)) ->
  Assoc.get k (runs (foldl (evict refuses) s l)) = None -> k ∈ l.*1.
Proof.
  revert s. induction l as [|e l IH]; intros s Hs Hn; simpl in *.
  - rewrite Hn in Hs. by destruct Hs.
  - destruct (decide (k = e.1)) as [->|Hne]; [apply list_elem_of_here|].
    apply list_elem_of_further. apply (IH (evict refuses s e)); [|done].
    by rewrite evict_other.
Qed.

(** A run whose directory the platform refuses to remove stays where it
    is in the registry. *)
Lemma sweep_refused refuses k l : forall s,
  (forall e, e ∈ l -> e.1 = k -> refuses (directory s e) = true) ->
  Assoc.get k (runs (foldl (evict refuses) s l)) = Assoc.get k (runs s).
Proof.
  induction l as [|e l IH]; intros s H; [done|]. simpl. rewrite IH.
  - destruct (decide (k = e.1)) as [->|Hne]; [|by apply evict_other].
    unfold evict. fold (directory s e).
    by rewrite (H e (list_elem_of_here _ _) eq_refl).
  - intros e' He' Hk. unfold directory. rewrite evict_heap.
    apply H; [by apply list_elem_of_further | done].
Qed.

(** A run that has left the registry has no directory any more. *)
Lemma sweep_removes_directories refuses (R0 : list (string * nat)) l s :
  NoDup R0.*1 -> (forall e, e ∈ l -> e ∈ R0) ->
  (forall k r, Assoc.get k (runs s) = Some r -> Assoc.get k R0 = Some r) ->
  (forall k r, Assoc.get k R0 = Some r -> Assoc.get k (runs s) = None ->
               Fs.existsSync (runPath (paths (heap s !!! r))) (disk s) = false) ->
  let s' := foldl (evict refuses) s l in
  forall k r, Assoc.get k R0 = Some r -> Assoc.get k (runs s') = None ->
              Fs.existsSync (runPath (paths (heap s !!! r))) (disk s') = false.
Proof.
  intros Hnd. revert s. induction l as [|e l IH]; intros s Hl Hsub Hgone; [done|].
  simpl. rewrite <- (evict_heap refuses s e).
  apply IH; [intros; apply Hl; by apply list_elem_of_further|..];
    unfold evict; destruct (refuses _); try done;
    destruct (Fs.rmSync _ (disk s)) as [d|] eqn:Hrm; try done; simpl.
  - intros k r Hk. destruct (decide (e.1 = k)) as [<-|Hne].
    + by rewrite get_delete_eq in Hk.
    + rewrite get_delete_ne in Hk by done. auto.
  - intros k r Hk Hn. destruct (decide (e.1 = k)) as [<-|Hne].
    + assert (r = e.2) as ->.
      { assert (He : e ∈ R0) by (apply Hl, list_elem_of_here).
        destruct e as [k0 r0]. apply (elem_get_nodup _ _ _ Hnd) in He.
        simpl in *. congruence. }
      by apply rmSync_gone in Hrm.
    + rewrite get_delete_ne in Hn by done. eapply rmSync_absent; eauto.
Qed.

(** *** The sweep does not look at the status *)











(** *** When every removal goes through *)

Lemma delete_absent {V} k (l : list (string * V)) : k ∉ l.*1 -> Assoc.delete k l = l.
Proof.
  induction l as [|[k0 v0] l IH]; simpl; [done|].
  intros [Hne Hk]%not_elem_of_cons. rewrite decide_False by done. by rewrite IH.
Qed.

Lemma delete_Permutation {V} k v (l : list (string * V)) :
  NoDup l.*1 -> (k, v) ∈ l -> l ≡ₚ (k, v) :: Assoc.delete k l.
Proof.
  induction l as [|[k0 v0] l IH]; simpl; intros Hnd Hin.
  - by apply elem_of_nil in Hin.
  - apply NoDup_cons in Hnd as [Hk0 Hnd]. destruct (decide (k0 = k)) as [->|Hne].
    + apply elem_of_cons in Hin as [[= ->]|Hin].
      * by rewrite delete_absent.
      * exfalso. apply Hk0. apply list_elem_of_fmap. by exists (k, v).
    + apply elem_of_cons in Hin as [[= -> ->]|Hin]; [done|].
      rewrite (IH Hnd Hin) at 1. apply Permutation_swap.
Qed.

Lemma sweep_all_Permutation (l K D : list (string * nat)) :
  NoDup l.*1 -> l ≡ₚ K ++ D -> foldl (fun rs e => Assoc.delete e.1 rs) l D ≡ₚ K.
Proof.
  revert l K. induction D as [|[k v] D IH]; intros l K Hnd Hp; simpl.
  - by rewrite app_nil_r in Hp.
  - assert (Hin : (k, v) ∈ l) by (rewrite Hp; apply elem_of_app; right; apply list_elem_of_here).
    pose proof (delete_Permutation k v l Hnd Hin) as Hd.
    apply IH.
    + rewrite Hd in Hnd. simpl in Hnd. by apply NoDup_cons in Hnd as [_ ?].
    + rewrite Hd in Hp. rewrite <- Permutation_middle in Hp.
      by apply Permutation_cons_inv in Hp.
Qed.

Lemma sweep_all_runs refuses l s :
  (forall e, e ∈ l -> refuses (directory s e) = false /\ directory s e ≠ []) ->
  runs (foldl (evict refuses) s l) = foldl (fun rs e => Assoc.delete e.1 rs) (runs s) l.
Proof.
  revert s. induction l as [|e l IH]; intros s Hl; [done|]. simpl.
  assert (He : evict refuses s e
               = on_runs (Assoc.delete e.1)
                   (on_disk (fun _ => default (disk s) (Fs.rmSync (directory s e) (disk s))) s)).
  { destruct (Hl e (list_elem_of_here _ _)) as [Hr Hp]. unfold evict, directory in *.
    rewrite Hr. destruct (rmSync_defined _ (disk s) Hp) as [d ->]. done. }
  rewrite IH.
  - by rewrite He.
  - intros e' He'. unfold directory. rewrite evict_heap.
    apply Hl. by apply list_elem_of_further.
Qed.

(** C5, as amended: the registry being a map (no id twice), the array
    [runsArray] of a sweep of server/index-improved.js holds the
    registered runs newest first. In every sweep a run that has left the
    registry has no directory any more, and a run whose directory the
    platform refuses to remove stays in the registry. When the configured
    maximum is not negative, the runs that leave stand past the first
    [maxRunsRetention] places of the array; and when moreover none of the
    removals past these places is refused, the registry is left with the
    runs at these first places and no other, at most the maximum in
    number, the runs past them having all left, none more recent than a
    run that stays, each without a directory. *)
Theorem sweep_bounds_registry cfg refuses s s' :
  NoDup (runs s).*1 ->
  Improved.cleanupOldRuns cfg refuses s = Returned () s' ->
  let order := Improved.runsArray s in
  let n := Z.to_nat (maxRunsRetention cfg) in
  (order ≡ₚ runs s /\ StronglySorted (fun a b => (age s b <= age s a)%Z) order) /\
  (forall runId r,
     Assoc.get runId (runs s) = Some r -> Assoc.get runId (runs s') = None ->
     Fs.existsSync (directory s (runId, r)) (disk s') = false) /\
  (forall runId r,
     Assoc.get runId (runs s) = Some r -> refuses (directory s (runId, r)) = true ->
     Assoc.get runId (runs s') = Some r) /\
  ((0 <= maxRunsRetention cfg)%Z ->
   (forall runId r,
      Assoc.get runId (runs s) = Some r -> Assoc.get runId (runs s') = None ->
      (runId, r) ∈ drop n order) /\
   ((forall e, e ∈ drop n order -> refuses (directory s e) = false /\ directory s e ≠ []) ->
    runs s' ≡ₚ take n order /\
    (Z.of_nat (length (runs s')) <= maxRunsRetention cfg)%Z /\
    (forall runId r,
       Assoc.get runId (runs s) = Some r ->
       Assoc.get runId (runs s') = None <-> (runId, r) ∈ drop n order) /\
    (forall e k, e ∈ drop n order -> k ∈ take n order -> (age s e <= age s k)%Z) /\
    (forall e, e ∈ drop n order -> Fs.existsSync (directory s e) (disk s') = false))).
Proof.
  intros Hnd. rewrite cleanupOldRuns_eq. intros [= <-] order n.
  assert (Hgone : forall runId r,
            Assoc.get runId (runs s) = Some r ->
            Assoc.get runId (runs (foldl (evict refuses) s (Improved.toDelete cfg s))) = None ->
            Fs.existsSync (directory s (runId, r))
              (disk (foldl (evict refuses) s (Improved.toDelete cfg s))) = false).
  { intros runId r. unfold directory. simpl.
    apply (sweep_removes_directories refuses (runs s)); try done.
    - intros e. apply toDelete_registered.
    - intros k r' H1 H2. congruence. }
  assert (Hsame : forall e runId r,
            e ∈ Improved.toDelete cfg s -> e.1 = runId ->
            Assoc.get runId (runs s) = Some r -> e = (runId, r)).
  { intros [k r'] runId r He Hk Hget. simpl in Hk. subst k.
    apply toDelete_registered in He. apply (elem_get_nodup _ _ _ Hnd) in He.
    congruence. }
  split; [split; [apply runsArray_Permutation | apply runsArray_sorted]|].
  split; [exact Hgone|]. split.
  { intros runId r Hget Href. rewrite sweep_refused; [done|].
    intros e He Hk. by rewrite (Hsame e runId r He Hk Hget). }
  intros Hmax.
  pose proof (toDelete_drop cfg s Hmax) as Hdrop. fold n order in Hdrop.
  pose proof (kept_take cfg s Hmax) as Htake. fold n order in Htake.
  assert (Hpast : forall runId r,
            Assoc.get runId (runs s) = Some r ->
            Assoc.get runId (runs (foldl (evict refuses) s (Improved.toDelete cfg s))) = None ->
            (runId, r) ∈ drop n order).
  { intros runId r Hget Hout. apply sweep_evicts_among in Hout; [|by rewrite Hget].
    apply list_elem_of_fmap in Hout as (e & Hk & He).
    rewrite <- Hdrop. by rewrite <- (Hsame e runId r He (eq_sym Hk) Hget). }
  split; [exact Hpast|]. rewrite <- Hdrop, <- Htake. intros Hok.
  assert (Hperm : runs (foldl (evict refuses) s (Improved.toDelete cfg s)) ≡ₚ kept cfg s).
  { rewrite sweep_all_runs by done. apply sweep_all_Permutation; [done|].
    by rewrite <- kept_toDelete, runsArray_Permutation. }
  assert (Hout : forall k r, (k, r) ∈ Improved.toDelete cfg s ->
            Assoc.get k (runs (foldl (evict refuses) s (Improved.toDelete cfg s))) = None).
  { intros k r He. apply get_None_keys. rewrite Hperm. intros Hk.
    assert (Hnd' : NoDup (kept cfg s ++ Improved.toDelete cfg s).*1).
    { by rewrite <- kept_toDelete, runsArray_Permutation. }
    rewrite fmap_app in Hnd'. apply NoDup_app in Hnd' as (_ & Hdisj & _).
    apply (Hdisj k Hk). apply list_elem_of_fmap. by exists (k, r). }
  split; [done|]. split; [rewrite Hperm; by apply kept_length|].
  split.
  { intros runId r Hget. split; [intros Ho; rewrite Hdrop; by apply Hpast | apply Hout]. }
  split; [intros e k; apply toDelete_oldest|].
  intros [k r] He. apply Hgone; [|by apply (Hout k r)].
  apply elem_get_nodup; [done|]. by eapply toDelete_registered.
Qed.

Lemma sweep_bounds_registry_witness :
  (Improved.runsArray i_refused ≡ₚ runs i_refused /\
   StronglySorted (fun a b => (age i_refused b <= age i_refused a)%Z)
     (Improved.runsArray i_refused)) /\
  (forall runId r,
     Assoc.get runId (runs i_refused) = Some r -> Assoc.get runId (runs i_swept) = None ->
     Fs.existsSync (directory i_refused (runId, r)) (disk i_swept) = false) /\
  runs i_swept ≡ₚ take 1 (Improved.runsArray i_refused) /\
  (Z.of_nat (length (runs i_swept)) <= maxRunsRetention keep_one)%Z /\
  (forall runId r,
     Assoc.get runId (runs i_refused) = Some r ->
     Assoc.get runId (runs i_swept) = None
     <-> (runId, r) ∈ drop 1 (Improved.runsArray i_refused)) /\
  (forall e k, e ∈ drop 1 (Improved.runsArray i_refused) ->
               k ∈ take 1 (Improved.runsArray i_refused) ->
               (age i_refused e <= age i_refused k)%Z) /\
  (forall e, e ∈ drop 1 (Improved.runsArray i_refused) ->
             Fs.existsSync (directory i_refused e) (disk i_swept) = false).
Proof.
  destruct (sweep_bounds_registry keep_one (fun _ => false) i_refused i_swept)
    as (H0 & H1 & _ & H2).
  - vm_compute. apply NoDup_cons. split; [by intros ?%list_elem_of_singleton|].
    apply NoDup_singleton.
  - vm_compute. reflexivity.
  - split; [exact H0|]. split; [exact H1|].
    destruct H2 as [_ H2]; [simpl; lia|]. apply H2.
    intros e He. split; [reflexivity|].
    change (drop (Z.to_nat (maxRunsRetention keep_one)) (Improved.runsArray i_refused))
      with [(id_A, 0%nat)] in He.
    apply list_elem_of_singleton in He as ->. vm_compute. discriminate.
Defined.

(** C5 fails as stated: the retention is one run, run B is accepted
    while the operating system refuses to remove directories; the sweep at
    the end of POST /start and a sweep of its own after it both return,
    and the registry holds two runs. *)
Lemma sweep_can_leave_excess :
  maxRunsRetention keep_one = 1%Z /\
  Improved.start keep_one (fun _ => true) (fun _ => true) start_B 2%nat i_entered
  = Returned () i_refused /\
  Improved.cleanupOldRuns keep_one (fun _ => true) i_refused = Returned () i_refused /\
  length (runs i_refused) = 2%nat.
Proof.
  repeat split; vm_compute; reflexivity.
Qed.

(** * Further properties of the servers *)

(** ** Strings *)

Lemma append_empty_r (s : string) : s +:+ "" = s.
Proof. induction s as [|c s IH]; [done|]. by rewrite append_cons, IH. Qed.

Lemma has_unit_append c (a b : string) :
  has_unit c (a +:+ b) = has_unit c a || has_unit c b.
Proof.
  induction a as [|x a IH]; [done|]. rewrite append_cons. simpl.
  by rewrite IH, orb_assoc.
Qed.

Lemma dashed_length s : String.length (Js.dashed s) = String.length s.
Proof. induction s as [|c s IH]; simpl; congruence. Qed.

Lemma dashed_clean s :
  has_unit ":" (Js.dashed s) = false /\ has_unit "." (Js.dashed s) = false.
Proof.
  induction s as [|c s [IH1 IH2]]; [done|]. simpl. rewrite IH1, IH2, !orb_false_r.
  destruct (decide (c = ":"%char)) as [->|H1]; [done|].
  destruct (decide (c = "."%char)) as [->|H2]; [done|].
  rewrite (bool_decide_eq_false_2 (c = ":"%char)), (bool_decide_eq_false_2 (c = "."%char))
    by done.
  simpl. by rewrite !bool_decide_eq_false_2.
Qed.

Lemma dashed_other c s :
  c ≠ ":"%char -> c ≠ "."%char -> c ≠ "-"%char ->
  has_unit c (Js.dashed s) = has_unit c s.
Proof.
  intros H1 H2 H3. induction s as [|x s IH]; [done|]. simpl. rewrite IH. f_equal.
  destruct (bool_decide (x = ":"%char) || bool_decide (x = "."%char)) eqn:E; [|done].
  rewrite (bool_decide_eq_false_2 ("-"%char = c)) by congruence.
  apply orb_prop in E as [E|E]; apply bool_decide_eq_true in E; subst x;
    by rewrite bool_decide_eq_false_2.
Qed.

(** X1. The id of a new run: the timestamp part loses its colons and its
    dot, so the id has a colon or a dot only if [nanoid] put one in; any
    other code unit but the dash is in the id exactly when it is in the
    timestamp or in the suffix (the slash, for one); and the id is as long
    as the timestamp, a dash and the suffix. *)
Theorem newRunId_units req :
  has_unit ":" (newRunId req) = has_unit ":" (nonce req) /\
  has_unit "." (newRunId req) = has_unit "." (nonce req) /\
  (forall c, c ≠ ":"%char -> c ≠ "."%char -> c ≠ "-"%char ->
     has_unit c (newRunId req) = has_unit c (isoNow req) || has_unit c (nonce req)) /\
  String.length (newRunId req)
  = (String.length (isoNow req) + 1 + String.length (nonce req))%nat.
Proof.
  unfold newRunId. destruct (dashed_clean (isoNow req)) as [H1 H2].
  rewrite !has_unit_append, H1, H2. repeat split; try done.
  - intros c Hc1 Hc2 Hc3. rewrite !has_unit_append, dashed_other by done. simpl.
    rewrite (bool_decide_eq_false_2 ("-"%char = c)) by congruence. done.
  - rewrite !length_append, dashed_length. simpl. lia.
Qed.

Lemma lower_lower c : Js.lower (Js.lower c) = Js.lower c.
Proof. destruct c as [[] [] [] [] [] [] [] []]; reflexivity. Qed.

Lemma toLowerCase_append (a b : string) :
  Js.toLowerCase (a +:+ b) = Js.toLowerCase a +:+ Js.toLowerCase b.
Proof.
  induction a as [|c a IH]; [done|]. rewrite append_cons. simpl.
  by rewrite IH, append_cons.
Qed.

Lemma toLowerCase_idem s : Js.toLowerCase (Js.toLowerCase s) = Js.toLowerCase s.
Proof. induction s as [|c s IH]; [done|]. simpl. by rewrite lower_lower, IH. Qed.

Lemma substring_all (s : string) : substring 0 (String.length s) s = s.
Proof. induction s as [|c s IH]; [done|]. simpl. by rewrite IH. Qed.

Lemma substring_skip (p suffix : string) :
  substring (String.length p) (String.length suffix) (p +:+ suffix) = suffix.
Proof.
  induction p as [|c p IH]; [apply substring_all|]. rewrite append_cons. simpl. apply IH.
Qed.

Lemma substring_split n (s : string) :
  (n <= String.length s)%nat ->
  s = substring 0 n s +:+ substring n (String.length s - n) s.
Proof.
  revert s. induction n as [|n IH]; intros s Hn.
  - rewrite Nat.sub_0_r, substring_all. by destruct s.
  - destruct s as [|c s]; [simpl in Hn; lia|]. simpl in *.
    rewrite append_cons. f_equal. apply IH. lia.
Qed.

(** [endsWith] is true exactly of the strings that are something followed
    by the suffix. *)
Lemma endsWith_spec s suffix :
  Js.endsWith s suffix = true <-> exists p, s = p +:+ suffix.
Proof.
  unfold Js.endsWith. split.
  - intros [Hle Heq]%andb_prop. apply Nat.leb_le in Hle. apply bool_decide_eq_true in Heq.
    exists (substring 0 (String.length s - String.length suffix) s).
    pose proof (substring_split (String.length s - String.length suffix) s) as Hs.
    replace (String.length s - (String.length s - String.length suffix))%nat
      with (String.length suffix) in Hs by lia.
    rewrite Heq in Hs. apply Hs. lia.
  - intros [p ->]. rewrite length_append. apply andb_true_intro. split.
    + apply Nat.leb_le. lia.
    + apply bool_decide_eq_true.
      replace (String.length p + String.length suffix - String.length suffix)%nat
        with (String.length p) by lia.
      apply substring_skip.
Qed.

Lemma toLowerCase_split s q suffix :
  Js.toLowerCase s = q +:+ suffix ->
  exists p e, s = p +:+ e /\ Js.toLowerCase p = q /\ Js.toLowerCase e = suffix.
Proof.
  revert s. induction q as [|c q IH]; intros s H.
  - exists "", s. by rewrite append_nil in *.
  - destruct s as [|x s]; [done|]. rewrite append_cons in H. simpl in H.
    injection H as Hc Hs. apply IH in Hs as (p & e & -> & Hp & He).
    exists (String x p), e. rewrite append_cons. simpl. by rewrite Hc, Hp.
Qed.

Lemma endsWith_lower s suffix :
  Js.endsWith (Js.toLowerCase s) suffix = true <->
  exists p e, s = p +:+ e /\ Js.toLowerCase e = suffix.
Proof.
  rewrite endsWith_spec. split.
  - intros [q (p & e & -> & _ & He)%toLowerCase_split]. eauto.
  - intros (p & e & -> & <-). exists (Js.toLowerCase p). apply toLowerCase_append.
Qed.

(** X2. The name of a spec, as POST /start tests it: something followed by
    .cy.js, .cy.ts or .cy.mjs in any mix of upper and lower case. *)
Theorem isSpecName_any_case name :
  Js.isSpecName name = true <->
  exists p e, name = p +:+ e /\
    (Js.toLowerCase e = ".cy.js" \/ Js.toLowerCase e = ".cy.ts" \/
     Js.toLowerCase e = ".cy.mjs").
Proof.
  unfold Js.isSpecName. cbv zeta. rewrite !orb_true_iff, !endsWith_lower. split.
  - intros [[(p & e & ? & ?)|(p & e & ? & ?)]|(p & e & ? & ?)]; exists p, e; auto.
  - intros (p & e & ? & [?|[?|?]]); [left; left|left; right|right]; eauto.
Qed.

Lemma last_unit_append p suffix :
  suffix ≠ "" -> last_unit (p +:+ suffix) = last_unit suffix.
Proof.
  intros Hs. induction p as [|c p IH]; [done|]. rewrite append_cons. simpl.
  destruct (p +:+ suffix) eqn:E; [|done].
  destruct p; [by rewrite append_nil in E | by rewrite append_cons in E].
Qed.

Lemma endsWith_last s suffix :
  suffix ≠ "" -> Js.endsWith s suffix = true -> last_unit s = last_unit suffix.
Proof. intros Hs [p ->]%endsWith_spec. by apply last_unit_append. Qed.

Lemma zip_lower name :
  Js.endsWith name ".zip" = true -> Js.endsWith (Js.toLowerCase name) ".zip" = true.
Proof.
  intros [p ->]%endsWith_spec. apply endsWith_spec. exists (Js.toLowerCase p).
  apply toLowerCase_append.
Qed.

Lemma zip_not_spec name :
  Js.endsWith (Js.toLowerCase name) ".zip" = true -> Js.isSpecName name = false.
Proof.
  intros Hz%endsWith_last; [|done]. unfold Js.isSpecName. cbv zeta.
  change (last_unit ".zip") with (Some "p"%char) in Hz.
  destruct (Js.endsWith _ ".cy.js") eqn:E1;
    [apply endsWith_last in E1; [cbn in E1; congruence | done]|].
  destruct (Js.endsWith _ ".cy.ts") eqn:E2;
    [apply endsWith_last in E2; [cbn in E2; congruence | done]|].
  destruct (Js.endsWith _ ".cy.mjs") eqn:E3;
    [apply endsWith_last in E3; [cbn in E3; congruence | done]|].
  done.
Qed.

Lemma spec_not_zip name :
  Js.isSpecName name = true ->
  Js.endsWith name ".zip" = false /\ Js.endsWith (Js.toLowerCase name) ".zip" = false.
Proof.
  intros Hs.
  assert (Js.endsWith (Js.toLowerCase name) ".zip" = false) as Hl.
  { destruct (Js.endsWith (Js.toLowerCase name) ".zip") eqn:E; [|done].
    apply zip_not_spec in E. congruence. }
  split; [|done]. destruct (Js.endsWith name ".zip") eqn:E; [|done].
  apply zip_lower in E. congruence.
Qed.

(** X3. The two kinds of upload. A name that ends in .zip still does once
    lower-cased, so what index.js takes for an archive the revisions take
    for one too; and no name is both that of an archive, by either test,
    and that of a spec, so the order of the two tests in POST /start
    decides nothing. *)
Theorem archive_and_spec_names name :
  (Js.endsWith name ".zip" = true ->
   Js.endsWith (Js.toLowerCase name) ".zip" = true) /\
  (Js.endsWith (Js.toLowerCase name) ".zip" = true -> Js.isSpecName name = false).
Proof. split; [apply zip_lower | apply zip_not_spec]. Qed.

Lemma archive_and_spec_names_witness :
  Js.endsWith (Js.toLowerCase "suite.zip") ".zip" = true /\
  Js.isSpecName "Suite.ZIP" = false.
Proof.
  split.
  - apply (archive_and_spec_names "suite.zip"). reflexivity.
  - apply (archive_and_spec_names "Suite.ZIP"). reflexivity.
Defined.

(** ** What [broadcast] does to the text *)

Lemma skip_params_suffix s : exists m, s = m +:+ Js.skip_params s.
Proof.
  induction s as [|c t [m IH]]; [by exists ""|]. simpl.
  destruct (Js.is_param c); [|by exists ""].
  exists (String c m). rewrite append_cons. by rewrite <- IH.
Qed.

Lemma optional_question_suffix q t : exists m, t = m +:+ Js.optional_question q t.
Proof.
  destruct t as [|c t]; [by exists ""|]. simpl.
  destruct (q && bool_decide (c = "?"%char)); [by exists (String c "") | by exists ""].
Qed.

Lemma match_csi_suffix q s r : Js.match_csi q s = Some r -> exists m, s = m +:+ r.
Proof.
  unfold Js.match_csi. destruct s as [|e [|b t]]; try done.
  destruct (bool_decide (e = Js.ESC) && bool_decide (b = "["%char)); [|done].
  destruct (optional_question_suffix q t) as [m1 H1].
  destruct (skip_params_suffix (Js.optional_question q t)) as [m2 H2].
  destruct (Js.skip_params (Js.optional_question q t)) as [|l r']; [done|].
  destruct (Js.is_letter l); [|done]. intros [= <-].
  exists (String e (String b (m1 +:+ m2 +:+ String l ""))).
  rewrite !append_cons. do 2 f_equal. rewrite H1 at 1. rewrite H2 at 1.
  rewrite !append_assoc. by rewrite append_cons, append_nil.
Qed.

Lemma units_append (a b : string) :
  list_ascii_of_string (a +:+ b) = list_ascii_of_string a ++ list_ascii_of_string b.
Proof. induction a as [|c a IH]; [done|]. rewrite append_cons. simpl. by rewrite IH. Qed.

Lemma replace_go_sublist q fuel s :
  sublist (list_ascii_of_string (Js.replace_go q fuel s)) (list_ascii_of_string s).
Proof.
  revert s. induction fuel as [|fuel IH]; intros s; [done|].
  destruct s as [|c t]; [done|]. cbn [Js.replace_go].
  destruct (Js.match_csi q (String c t)) as [r|] eqn:E.
  - apply match_csi_suffix in E as [m ->]. rewrite units_append.
    by apply sublist_inserts_l.
  - simpl. by apply sublist_skip.
Qed.

Lemma replace_csi_plain q s : esc_free s = true -> Js.replace_csi q s = s.
Proof.
  intros Hs. unfold Js.replace_csi.
  rewrite <- (append_empty_r s) at 2. rewrite replace_go_copy by done.
  rewrite Nat.sub_diag. simpl. apply append_empty_r.
Qed.

(** X4. Cleaning only ever deletes: what [broadcast] sends is the data with
    some of its code units left out, the others in their order; and data
    without an ESC goes out as it came. *)
Theorem cleanData_only_deletes data :
  sublist (list_ascii_of_string (Basic.cleanData data)) (list_ascii_of_string data) /\
  (esc_free data = true -> Basic.cleanData data = data).
Proof.
  unfold Basic.cleanData. split.
  - etrans; apply replace_go_sublist.
  - intros H. by rewrite (replace_csi_plain false), (replace_csi_plain true).
Qed.

Lemma cleanData_only_deletes_witness :
  Basic.cleanData "3 passing (2s)" = "3 passing (2s)".
Proof. apply (cleanData_only_deletes "3 passing (2s)"). reflexivity. Defined.

(** ** [findConfigFile] *)

Lemma find_first {A} (P : A -> bool) (l : list A) :
  match find P l with
  | None => forall x, x ∈ l -> P x = false
  | Some x => exists before after, l = before ++ x :: after /\ P x = true /\
                forall y, y ∈ before -> P y = false
  end.
Proof.
  induction l as [|a l IH]; simpl.
  - intros x Hx. by apply elem_of_nil in Hx.
  - destruct (P a) eqn:E.
    + exists [], l. split; [done|]. split; [done|]. intros y Hy. by apply elem_of_nil in Hy.
    + destruct (find P l) as [x|].
      * destruct IH as (before & after & -> & Hx & Hb). exists (a :: before), after.
        split; [done|]. split; [done|]. intros y [->|Hy]%elem_of_cons; auto.
      * intros x [->|Hx]%elem_of_cons; auto.
Qed.

Lemma show_app p q : Fs.show (p ++ q) = Fs.show p +:+ Fs.show q.
Proof.
  unfold Fs.show. induction p as [|a p IH]; [done|]. simpl.
  by rewrite IH, !append_assoc.
Qed.

Lemma append_inj_l (a x y : string) : a +:+ x = a +:+ y -> x = y.
Proof.
  induction a as [|c a IH]; [by rewrite !append_nil|].
  rewrite !append_cons. intros [= H]. auto.
Qed.

Lemma show_child_inj w f g : Fs.show (w ++ [f]) = Fs.show (w ++ [g]) -> f = g.
Proof.
  rewrite !show_app. intros H%append_inj_l. unfold Fs.show in H. cbn [foldr] in H.
  rewrite !append_empty_r in H. by apply append_inj_l in H.
Qed.

Lemma find_fmap {A B} (g : A -> B) (P : B -> bool) (l : list A) :
  find P (g <$> l) = g <$> find (fun x => P (g x)) l.
Proof.
  induction l as [|a l IH]; [done|]. cbn [fmap list_fmap find]. by destruct (P (g a)).
Qed.

Lemma find_elem {A} (P : A -> bool) (l : list A) x :
  find P l = Some x -> x ∈ l /\ P x = true.
Proof.
  induction l as [|a l IH]; [done|]. simpl. destruct (P a) eqn:E.
  - intros [= <-]. split; [apply list_elem_of_here | done].
  - intros [? ?]%IH. split; [by apply list_elem_of_further | done].
Qed.

(** What [find] answers, told by the place an element has in the list. *)
Lemma find_at {A B} (h : A -> B) (P : A -> bool) (l : list A) :
  (forall x y, h x = h y -> x = y) -> NoDup l ->
  forall i f, l !! i = Some f ->
    h <$> find P l = Some (h f) <->
    P f = true /\ forall j g, (j < i)%nat -> l !! j = Some g -> P g = false.
Proof.
  intros Hh. induction 1 as [|a l Ha Hnd IH]; intros i f Hi; [done|].
  cbn [find]. destruct i as [|i]; simpl in Hi.
  - injection Hi as ->. destruct (P f) eqn:E.
    + split; [intros _; split; [done | intros; lia] | done].
    + split; [|by intros [? _]].
      destruct (find P l) as [x|] eqn:Ef; [|done]. simpl. intros [= ->%Hh].
      apply find_elem in Ef as [? _]. done.
  - destruct (P a) eqn:E.
    + split.
      * simpl. intros [= ->%Hh]. apply list_elem_of_lookup_2 in Hi. done.
      * intros [_ Hb]. rewrite (Hb 0%nat a) in E by (done || lia). done.
    + rewrite (IH i f Hi). split; intros [Hf Hb]; (split; [done|]).
      * intros [|j] g Hj Hg; simpl in Hg; [by injection Hg as <-|].
        apply (Hb j); [lia | done].
      * intros j g Hj Hg. apply (Hb (S j)); [lia | done].
Qed.

Lemma findConfigFile_ext workPath d d' :
  (forall f, f ∈ configFiles ->
     Fs.lookup (workPath ++ [f]) (Some d') = Fs.lookup (workPath ++ [f]) (Some d)) ->
  findConfigFile workPath d' = findConfigFile workPath d.
Proof.
  intros H. unfold findConfigFile. f_equal.
  induction configFiles as [|f l IH]; [done|]. simpl.
  unfold Fs.existsSync at 1 3. rewrite (H f) by apply list_elem_of_here.
  destruct (Fs.lookup (workPath ++ [f]) (Some d)); [done|].
  apply IH. intros g Hg. apply H. by apply list_elem_of_further.
Qed.

(** X5. [findConfigFile] goes through five names in the order
    cypress.config.mjs, cypress.config.ts, cypress.config.js,
    cypress.config.cjs, cypress.json: it answers one of them exactly when
    that one exists below the work directory and none of those before it
    does, [null] exactly when none of the five exists, and the same on
    any two disks that agree on the five. *)
Theorem findConfigFile_first workPath d :
  let names := ["cypress.config.mjs"; "cypress.config.ts"; "cypress.config.js";
                "cypress.config.cjs"; "cypress.json"] in
  let there f := Fs.existsSync (workPath ++ [f]) d in
  (forall i f, names !! i = Some f ->
     findConfigFile workPath d = Some (Fs.show (workPath ++ [f])) <->
     there f = true /\
     forall j g, (j < i)%nat -> names !! j = Some g -> there g = false) /\
  (findConfigFile workPath d = None <-> forall f, f ∈ names -> there f = false) /\
  (forall d',
     (forall f, f ∈ names ->
        Fs.lookup (workPath ++ [f]) (Some d') = Fs.lookup (workPath ++ [f]) (Some d)) ->
     findConfigFile workPath d' = findConfigFile workPath d).
Proof.
  intros names there.
  assert (Hfind : findConfigFile workPath d
                  = (fun f => Fs.show (workPath ++ [f])) <$> find there names).
  { unfold findConfigFile. rewrite find_fmap.
    change (find there names)
      with (find (fun x => Fs.existsSync (workPath ++ [x]) d) configFiles).
    by destruct (find _ configFiles). }
  split; [|split].
  - intros i f Hi. rewrite Hfind.
    apply (find_at (fun f => Fs.show (workPath ++ [f])) there names); [| |done].
    + intros x y. apply show_child_inj.
    + apply (bool_decide_unpack (NoDup names)). reflexivity.
  - rewrite Hfind. pose proof (find_first there names) as H.
    destruct (find there names) as [x|] eqn:Ef.
    + split; [done|]. intros Hn. apply find_elem in Ef as [Hx Ht].
      rewrite (Hn x Hx) in Ht. done.
    + done.
  - intros d'. apply findConfigFile_ext.
Qed.

(** ** The walk of [getRunVideos] and [getRunScreenshots] *)

Lemma node_rect' (P : Fs.node -> Prop) :
  (forall c, P (Fs.File c)) ->
  (forall es, Forall (fun e => P e.2) es -> P (Fs.Dir es)) ->
  forall n, P n.
Proof.
  intros Hf Hd.
  refine (fix IH (n : Fs.node) : P n :=
            match n with
            | Fs.File c => Hf c
            | Fs.Dir es =>
                Hd es ((fix go (es : list (string * Fs.node))
                          : Forall (fun e => P e.2) es :=
                          match es with
                          | [] => @List.Forall_nil _ _
                          | (a, c) :: rest => @List.Forall_cons _ _ (a, c) rest (IH c) (go rest)
                          end) es)
            end).
Qed.

Lemma walkDir_cons keep file c rest baseUrl :
  walkDir keep (Fs.Dir ((file, c) :: rest)) baseUrl
  = walkEntry keep baseUrl file c ++ walkDir keep (Fs.Dir rest) baseUrl.
Proof. reflexivity. Qed.

Lemma walkDir_elem keep es baseUrl u :
  u ∈ walkDir keep (Fs.Dir es) baseUrl <->
  exists a c, (a, c) ∈ es /\ u ∈ walkEntry keep baseUrl a c.
Proof.
  induction es as [|[f c] es IH].
  - split; [intros H; by apply elem_of_nil in H|].
    intros (a & c & H & _). by apply elem_of_nil in H.
  - rewrite walkDir_cons, elem_of_app, IH. split.
    + intros [H|(a & c' & H & Hu)].
      * exists f, c. split; [apply list_elem_of_here | done].
      * exists a, c'. split; [by apply list_elem_of_further | done].
    + intros (a & c' & [Heq|H]%elem_of_cons & Hu).
      * injection Heq as -> ->. by left.
      * right. eauto.
Qed.

Lemma get_elem {V} k (v : V) l : Assoc.get k l = Some v -> (k, v) ∈ l.
Proof.
  induction l as [|[k0 v0] l IH]; simpl; [done|].
  destruct (decide (k0 = k)) as [->|Hne].
  - intros [= ->]. apply list_elem_of_here.
  - intros H. apply list_elem_of_further. auto.
Qed.

Lemma walkDir_complete keep p : forall n baseUrl name c,
  Fs.lookup (p ++ [name]) (Some n) = Some (Fs.File c) -> keep name = true ->
  url baseUrl (p ++ [name]) ∈ walkDir keep n baseUrl.
Proof.
  induction p as [|a p IH]; intros n baseUrl name c Hl Hk.
  - destruct n as [c0|es]; [done|]. simpl in Hl.
    apply walkDir_elem. exists name, (Fs.File c). split; [by apply get_elem|].
    unfold walkEntry. simpl. rewrite Hk. apply list_elem_of_here.
  - destruct n as [c0|es]; [simpl in Hl; by rewrite lookup_None in Hl|].
    change (Fs.lookup (p ++ [name]) (Assoc.get a es) = Some (Fs.File c)) in Hl.
    destruct (Assoc.get a es) as [[c1|es1]|] eqn:E.
    + rewrite lookup_file in Hl; [done | by destruct p].
    + apply walkDir_elem. exists a, (Fs.Dir es1). split; [by apply get_elem|].
      unfold walkEntry. cbn [Fs.isDirectory]. apply (IH _ _ _ _ Hl Hk).
    + by rewrite lookup_None in Hl.
Qed.

Lemma tidy_dir es :
  tidy (Fs.Dir es) = true ->
  NoDup es.*1 /\ forall a c, (a, c) ∈ es -> tidy c = true.
Proof.
  simpl. intros [Hn Hall]%andb_prop. apply bool_decide_eq_true in Hn. split; [done|].
  intros a c Hin. rewrite forallb_forall in Hall.
  apply (Hall (a, c)). by apply list_elem_of_In.
Qed.

Lemma tidy_lookup p : forall n n',
  tidy n = true -> Fs.lookup p (Some n) = Some n' -> tidy n' = true.
Proof.
  induction p as [|a p IH]; intros n n' Ht Hl.
  - by injection Hl as <-.
  - destruct n as [c|es]; [simpl in Hl; by rewrite lookup_None in Hl|].
    change (Fs.lookup p (Assoc.get a es) = Some n') in Hl.
    destruct (Assoc.get a es) as [c|] eqn:E; [|by rewrite lookup_None in Hl].
    apply (IH c); [|done]. apply tidy_dir in Ht as [_ Ht]. apply (Ht a). by apply get_elem.
Qed.

Lemma walkDir_sound keep : forall n,
  tidy n = true -> forall baseUrl u, u ∈ walkDir keep n baseUrl ->
  exists p name c,
    u = url baseUrl (p ++ [name]) /\
    Fs.lookup (p ++ [name]) (Some n) = Some (Fs.File c) /\ keep name = true.
Proof.
  apply (node_rect' (fun n => tidy n = true -> forall baseUrl u,
    u ∈ walkDir keep n baseUrl ->
    exists p name c,
      u = url baseUrl (p ++ [name]) /\
      Fs.lookup (p ++ [name]) (Some n) = Some (Fs.File c) /\ keep name = true)).
  - intros c _ baseUrl u H. by apply elem_of_nil in H.
  - intros es IH Ht baseUrl u Hu. apply tidy_dir in Ht as [Hnd Ht].
    apply walkDir_elem in Hu as (a & c & Hin & Hu).
    pose proof (elem_get_nodup _ _ _ Hnd Hin) as Hget.
    destruct c as [c0|es1]; unfold walkEntry in Hu; cbn [Fs.isDirectory] in Hu.
    + destruct (keep a) eqn:Hk; [|by apply elem_of_nil in Hu].
      apply list_elem_of_singleton in Hu as ->.
      exists [], a, c0. simpl. by rewrite Hget.
    + rewrite Forall_forall in IH. specialize (IH _ Hin). simpl in IH.
      destruct (IH (Ht _ _ Hin) _ _ Hu) as (p & name & c & -> & Hl & Hk).
      exists (a :: p), name, c. split; [done|]. split; [|done].
      change (Fs.lookup (p ++ [name]) (Assoc.get a es) = Some (Fs.File c)).
      by rewrite Hget.
Qed.

(** The walk lists exactly the files, at any depth, whose name the
    pattern accepts, each under the URL that spells its path. *)
Lemma walkDir_exact keep n baseUrl u :
  tidy n = true ->
  u ∈ walkDir keep n baseUrl <->
  exists p name c,
    u = url baseUrl (p ++ [name]) /\
    Fs.lookup (p ++ [name]) (Some n) = Some (Fs.File c) /\ keep name = true.
Proof.
  intros Ht. split; [by apply walkDir_sound|].
  intros (p & name & c & -> & Hl & Hk). by apply (walkDir_complete keep p n baseUrl name c).
Qed.

Lemma lookup_under p q rest n x :
  Fs.lookup (p ++ q) n = Some x -> Fs.lookup (p ++ q ++ rest) n = Fs.lookup rest (Some x).
Proof. intros H. by rewrite app_assoc, lookup_app, H. Qed.

(** X6. [getRunVideos] of index.js, for a registered run whose videos
    directory is there: it returns, leaves the state alone, and lists
    exactly the files below that directory, at any depth, whose name
    ends in .mp4 in any case, each as /videos/<id>/cypress/videos/ followed
    by its path. *)
Theorem Basic_getRunVideos_exact runId s r es :
  Assoc.get runId (runs s) = Some r ->
  Fs.lookup (runPath (paths (heap s !!! r)) ++ ["cypress"; "videos"]) (Some (disk s))
  = Some (Fs.Dir es) ->
  tidy (disk s) = true ->
  exists l,
    Basic.getRunVideos runId s = Returned l s /\
    forall u, u ∈ l <->
      exists p name c,
        u = url ("/videos/" +:+ runId +:+ "/cypress/videos") (p ++ [name]) /\
        Fs.lookup (runPath (paths (heap s !!! r)) ++ ["cypress"; "videos"] ++ p ++ [name])
                  (Some (disk s)) = Some (Fs.File c) /\
        Js.matches_mp4 name = true.
Proof.
  intros Hr Hd Ht. unfold Basic.getRunVideos. act. rewrite Hr. simpl. rewrite Hd.
  eexists. split; [reflexivity|]. intros u.
  rewrite walkDir_exact by (eapply tidy_lookup; eauto).
  split; intros (p & name & c & -> & Hl & Hk); exists p, name, c; (split; [done|]);
    (split; [|done]).
  - etrans; [apply (lookup_under _ ["cypress"; "videos"] _ _ _ Hd) | done].
  - etrans; [symmetry; apply (lookup_under _ ["cypress"; "videos"] _ _ _ Hd) | done].
Qed.

Lemma Basic_getRunVideos_exact_witness :
  exists l,
    Basic.getRunVideos id_A s_recorded = Returned l s_recorded /\
    forall u, u ∈ l <->
      exists p name c,
        u = url ("/videos/" +:+ id_A +:+ "/cypress/videos") (p ++ [name]) /\
        Fs.lookup (runPath (paths (heap s_recorded !!! 0%nat)) ++ ["cypress"; "videos"]
                   ++ p ++ [name])
                  (Some (disk s_recorded)) = Some (Fs.File c) /\
        Js.matches_mp4 name = true.
Proof.
  apply (Basic_getRunVideos_exact id_A s_recorded 0%nat
           [("demo.cy.js.mp4", Fs.File "mp4");
            ("nested", Fs.Dir [("DEEP.MP4", Fs.File "mp4")])]);
    reflexivity.
Defined.

(** X7. [getRunScreenshots], for a registered run whose screenshots
    directory is there: index.js and index-improved.js answer the same
    list, leave the state alone, and the list is exactly the files below
    that directory, at any depth, whose name ends in .png, .jpg or .jpeg in
    any case. *)
Theorem getRunScreenshots_exact runId s r es :
  Assoc.get runId (runs s) = Some r ->
  Fs.lookup (runPath (paths (heap s !!! r)) ++ ["cypress"; "screenshots"]) (Some (disk s))
  = Some (Fs.Dir es) ->
  tidy (disk s) = true ->
  exists l,
    Basic.getRunScreenshots runId s = Returned l s /\
    Improved.getRunScreenshots runId s = Returned l s /\
    forall u, u ∈ l <->
      exists p name c,
        u = url ("/screenshots/" +:+ runId +:+ "/cypress/screenshots") (p ++ [name]) /\
        Fs.lookup (runPath (paths (heap s !!! r)) ++ ["cypress"; "screenshots"]
                   ++ p ++ [name])
                  (Some (disk s)) = Some (Fs.File c) /\
        Js.matches_image name = true.
Proof.
  intros Hr Hd Ht. unfold Basic.getRunScreenshots, Improved.getRunScreenshots. act.
  rewrite Hr. simpl. rewrite Hd.
  eexists. split; [reflexivity|]. split; [reflexivity|]. intros u.
  rewrite walkDir_exact by (eapply tidy_lookup; eauto).
  split; intros (p & name & c & -> & Hl & Hk); exists p, name, c; (split; [done|]);
    (split; [|done]).
  - etrans; [apply (lookup_under _ ["cypress"; "screenshots"] _ _ _ Hd) | done].
  - etrans; [symmetry; apply (lookup_under _ ["cypress"; "screenshots"] _ _ _ Hd) | done].
Qed.

Lemma getRunScreenshots_exact_witness :
  exists l,
    Basic.getRunScreenshots id_A s_recorded = Returned l s_recorded /\
    Improved.getRunScreenshots id_A s_recorded = Returned l s_recorded /\
    forall u, u ∈ l <->
      exists p name c,
        u = url ("/screenshots/" +:+ id_A +:+ "/cypress/screenshots") (p ++ [name]) /\
        Fs.lookup (runPath (paths (heap s_recorded !!! 0%nat))
                   ++ ["cypress"; "screenshots"] ++ p ++ [name])
                  (Some (disk s_recorded)) = Some (Fs.File c) /\
        Js.matches_image name = true.
Proof.
  apply (getRunScreenshots_exact id_A s_recorded 0%nat
           [("demo.cy.js", Fs.Dir [("works", Fs.Dir [("failed.png", Fs.File "png")])])]);
    reflexivity.
Defined.

Lemma get_is_Some {V} k (l : list (string * V)) : is_Some (Assoc.get k l) <-> k ∈ l.*1.
Proof.
  destruct (Assoc.get k l) as [v|] eqn:E.
  - split; [intros _|by eauto]. apply list_elem_of_fmap. exists (k, v).
    split; [done | by apply get_elem].
  - split; [by intros [? ?]|]. intros Hin. by apply get_None_keys in E.
Qed.

(** X8. [getRunVideos] of index-improved.js reads one directory and tests
    the names as they are: for a registered run whose videos directory is
    there, it lists exactly the entries of that directory itself, files or
    not, whose name ends in lower-case .mp4. *)
Theorem Improved_getRunVideos_flat runId s r es :
  Assoc.get runId (runs s) = Some r ->
  Fs.lookup (runPath (paths (heap s !!! r)) ++ ["cypress"; "videos"]) (Some (disk s))
  = Some (Fs.Dir es) ->
  exists l,
    Improved.getRunVideos runId s = Returned l s /\
    forall u, u ∈ l <->
      exists file,
        u = "/videos/" +:+ runId +:+ "/cypress/videos/" +:+ file /\
        Fs.existsSync (runPath (paths (heap s !!! r)) ++ ["cypress"; "videos"] ++ [file])
                      (disk s) = true /\
        Js.endsWith file ".mp4" = true.
Proof.
  intros Hr Hd. unfold Improved.getRunVideos, Fs.readdirSync, Fs.existsSync. act.
  rewrite Hr. simpl. rewrite Hd. simpl.
  eexists. split; [reflexivity|]. intros u. rewrite list_elem_of_fmap.
  assert (forall file, file ∈ es.*1 <->
            match Fs.lookup (runPath (paths (heap s !!! r)) ++ ["cypress"; "videos"; file])
                    (Some (disk s)) with Some _ => true | None => false end = true) as Hin.
  { intros file. rewrite <- get_is_Some.
    replace (Fs.lookup _ (Some (disk s))) with (Assoc.get file es)
      by (symmetry; etrans;
          [apply (lookup_under _ ["cypress"; "videos"] [file] _ _ Hd) | done]).
    destruct (Assoc.get file es); split; (done || by intros [? ?] || eauto). }
  split.
  - intros (file & -> & Hf). apply list_elem_of_In, filter_In in Hf as [Hf He].
    exists file. split; [done|]. split; [|done]. apply Hin. by apply list_elem_of_In.
  - intros (file & -> & Hf & He). exists file. split; [done|].
    apply list_elem_of_In, filter_In. split; [|done]. apply list_elem_of_In. by apply Hin.
Qed.

Lemma Improved_getRunVideos_flat_witness :
  exists l,
    Improved.getRunVideos id_A s_recorded = Returned l s_recorded /\
    forall u, u ∈ l <->
      exists file,
        u = "/videos/" +:+ id_A +:+ "/cypress/videos/" +:+ file /\
        Fs.existsSync (runPath (paths (heap s_recorded !!! 0%nat))
                       ++ ["cypress"; "videos"] ++ [file])
                      (disk s_recorded) = true /\
        Js.endsWith file ".mp4" = true.
Proof.
  apply (Improved_getRunVideos_flat id_A s_recorded 0%nat
           [("demo.cy.js.mp4", Fs.File "mp4");
            ("nested", Fs.Dir [("DEEP.MP4", Fs.File "mp4")])]);
    reflexivity.
Defined.

(** X9. The artifact queries of index-improved.js return in every state and
    change nothing; where a file stands in the place of the videos
    directory of a registered run, they answer the empty list, and
    [getRunVideos] of index.js throws. *)
Theorem Improved_queries_return runId s :
  (exists l, Improved.getRunVideos runId s = Returned l s) /\
  (exists l, Improved.getRunScreenshots runId s = Returned l s) /\
  (exists o, Improved.getRunResults runId s = Returned o s) /\
  (forall r c,
     Assoc.get runId (runs s) = Some r ->
     Fs.lookup (runPath (paths (heap s !!! r)) ++ ["cypress"; "videos"]) (Some (disk s))
     = Some (Fs.File c) ->
     Improved.getRunVideos runId s = Returned [] s /\
     exists e, Basic.getRunVideos runId s = Thrown e s).
Proof.
  unfold Improved.getRunVideos, Improved.getRunScreenshots, Improved.getRunResults,
    Basic.getRunVideos, Fs.readdirSync, Fs.existsSync.
  act. destruct (Assoc.get runId (runs s)) as [r|]; simpl.
  - repeat split.
    + destruct (Fs.lookup _ _) as [[c|es]|]; simpl; eauto.
    + destruct (Fs.lookup _ _) as [[c|es]|]; simpl; eauto.
    + destruct (Fs.lookup _ _); simpl; eauto.
    + injection H as <-. rewrite H0. done.
    + injection H as <-. rewrite H0. eauto.
  - repeat split; eauto; done.
Qed.

Lemma Improved_queries_return_witness :
  Improved.getRunVideos id_A s_blocked = Returned [] s_blocked /\
  exists e, Basic.getRunVideos id_A s_blocked = Thrown e s_blocked.
Proof.
  apply (Improved_queries_return id_A s_blocked) with (r := 0%nat) (c := "no directory");
    reflexivity.
Defined.

(** ** Subscribers *)

Lemma deliver_cons x c cs w :
  deliver x (c :: cs) w = deliver x cs (<[c := default [] (w !! c) ++ [x]]> w).
Proof. reflexivity. Qed.

Lemma deliver_times x cs : forall w c,
  default [] (deliver x cs w !! c) = default [] (w !! c) ++ replicate (times c cs) x.
Proof.
  unfold times. induction cs as [|c0 cs IH]; intros w c.
  - simpl. by rewrite app_nil_r.
  - rewrite deliver_cons, IH, filter_cons. destruct (decide (c0 = c)) as [->|Hne].
    + rewrite lookup_insert_eq. simpl. by rewrite <- app_assoc.
    + by rewrite lookup_insert_ne.
Qed.

Lemma times_absent c cs : c ∉ cs -> times c cs = 0%nat.
Proof.
  unfold times. induction cs as [|c0 cs IH]; [done|].
  intros [Hne Hc]%not_elem_of_cons. rewrite filter_cons, decide_False by done. auto.
Qed.

Lemma times_once c cs : NoDup cs -> c ∈ cs -> times c cs = 1%nat.
Proof.
  unfold times. induction cs as [|c0 cs IH]; intros Hnd Hc; [by apply elem_of_nil in Hc|].
  apply NoDup_cons in Hnd as [H0 Hnd]. rewrite filter_cons.
  destruct (decide (c0 = c)) as [->|Hne].
  - simpl. f_equal. by apply (times_absent c cs).
  - apply elem_of_cons in Hc as [?|Hc]; [congruence | auto].
Qed.

Lemma times_filter_ne c res cs :
  c ≠ res -> times c (filter (fun c => c ≠ res) cs) = times c cs.
Proof.
  intros Hne. unfold times. induction cs as [|c0 cs IH]; [done|].
  rewrite !filter_cons. destruct (decide (c0 ≠ res)) as [H0|H0].
  - rewrite filter_cons. destruct (decide (c0 = c)); simpl; auto.
  - destruct (decide (c0 = c)) as [->|]; [|done]. destruct H0. done.
Qed.

Lemma times_filter_eq res cs : times res (filter (fun c => c ≠ res) cs) = 0%nat.
Proof. apply times_absent. intros [H _]%list_elem_of_filter. done. Qed.

(** X10. When the connection of a subscriber closes, in index.js as in
    index-improved.js: the handler takes the response out of the
    subscribers of that run, however many times it is there, and leaves
    the other runs alone; from then on a broadcast to the run writes
    nothing to that response, and to every other response what it would
    have written anyway. *)
Theorem closed_subscriber_gets_nothing runId res s :
  exists s1,
    Basic.stream_closed runId res s = Returned () s1 /\
    Improved.stream_closed runId res s = Returned () s1 /\
    control s1 = control s /\ disk s1 = disk s /\ wire s1 = wire s /\
    Basic.runClients runId s1 = filter (fun c => c ≠ res) (Basic.runClients runId s) /\
    (forall other, other ≠ runId ->
       Basic.runClients other s1 = Basic.runClients other s) /\
    forall data,
      exists s2 s2',
        Basic.broadcast runId data s1 = Returned () s2 /\
        Basic.broadcast runId data s = Returned () s2' /\
        sent res s2 = sent res s /\
        forall c, c ≠ res -> sent c s2 = sent c s2'.
Proof.
  eexists. split; [reflexivity|]. split; [reflexivity|].
  split; [done|]. split; [done|]. split; [done|].
  assert (Basic.runClients runId
            (on_clients (fun c => <[runId := filter (fun c => c ≠ res)
                                               (Basic.runClients runId s)]> c) s)
          = filter (fun c => c ≠ res) (Basic.runClients runId s)) as Hc.
  { unfold Basic.runClients at 1. simpl. by rewrite lookup_insert_eq. }
  split; [exact Hc|]. split.
  - intros other Hne. unfold Basic.runClients. simpl. by rewrite lookup_insert_ne.
  - intros data. rewrite !Basic_broadcast_eq. eexists _, _.
    split; [reflexivity|]. split; [reflexivity|]. unfold sent. simpl. rewrite Hc. split.
    + by rewrite deliver_times, times_filter_eq, app_nil_r.
    + intros c Hne. by rewrite !deliver_times, times_filter_ne.
Qed.

(** ** The end of a run in server/index.js *)

Lemma esc_free_pretty_N_go x : forall s, esc_free (pretty_N_go x s) = esc_free s.
Proof.
  induction (N.lt_wf_0 x) as [x _ IH]; intros s.
  assert (x = 0 \/ 0 < x)%N as [->|Hx] by lia.
  - by rewrite pretty_N_go_0.
  - rewrite pretty_N_go_step by done. rewrite IH by (by apply N.div_lt).
    cbn [esc_free]. replace (bool_decide (pretty_N_char (x `mod` 10) = Js.ESC)) with false;
      [done|].
    symmetry. apply bool_decide_eq_false. unfold pretty_N_char. by repeat case_match.
Qed.

Lemma esc_free_toString (c : Z) : esc_free (Js.toString c) = true.
Proof.
  unfold Js.toString, pretty, pretty_Z. destruct c as [|p|p]; [done| |].
  - unfold pretty, pretty_positive, pretty, pretty_N. case_decide; [done|].
    by rewrite esc_free_pretty_N_go.
  - rewrite esc_free_append. unfold pretty, pretty_positive, pretty, pretty_N.
    case_decide; [done|]. by rewrite esc_free_pretty_N_go.
Qed.

Lemma run_done_clean st c : Basic.cleanData (run_done st c) = run_done st c.
Proof.
  unfold Basic.cleanData. assert (esc_free (run_done st c) = true) as H.
  { unfold run_done. rewrite !esc_free_append, esc_free_toString. by destruct st. }
  by rewrite (replace_csi_plain false), (replace_csi_plain true).
Qed.

Lemma status_alter_eq st r (h : list Run) :
  (r < length h)%nat -> status (alter (with_status st) r h !!! r) = st.
Proof. intros Hr. by rewrite list_lookup_total_alter_eq. Qed.

Lemma Basic_on_close_eq t task c s d' :
  (t_run task < length (heap s))%nat ->
  close_disk (heap s !!! t_run task) (Js.toString c) (disk s) = Some d' ->
  Basic.on_close t task (Some c) s
  = Returned ()
      {| heap := alter (with_status (verdict c)) (t_run task) (heap s);
         runs := runs s; clients := clients s; disk := d';
         wire := deliver (Data (Basic.sse (run_done (verdict c) c)))
                         (Basic.runClients (t_runId task) s) (wire s);
         tasks := alter (with_phase Exited) t (tasks s);
         pending := pending s; timers := timers s ++ [t_runId task] |}.
Proof.
  intros Hr Hd. unfold Basic.on_close, set_status, deref.
  rewrite bind_modify, bind_gets, bind_ret, exit_code_zero. fold (verdict c).
  cbn [heap on_heap]. unfold close_disk in Hd.
  rewrite alter_status_paths, status_alter_eq by done.
  set (run := heap s !!! t_run task) in *.
  act. cbn [disk on_heap on_disk]. simpl in Hd.
  destruct (Fs.writeFileSync _ _ (disk s)) as [d0|]; [|done].
  simpl in Hd. cbn [disk on_disk].
  destruct (Fs.existsSync _ d0); cbn [disk on_disk].
  - destruct (Fs.cpSync _ _ d0) as [d1|]; [|done]. simpl in Hd. cbn [disk on_disk].
    destruct (Fs.existsSync _ d1); cbn [disk on_disk].
    + rewrite Hd. rewrite Basic_broadcast_eq. fold (run_done (verdict c) c).
      rewrite run_done_clean. reflexivity.
    + injection Hd as ->. rewrite Basic_broadcast_eq. fold (run_done (verdict c) c).
      rewrite run_done_clean. reflexivity.
  - simpl in Hd. destruct (Fs.existsSync _ d0); cbn [disk on_disk].
    + rewrite Hd. rewrite Basic_broadcast_eq. fold (run_done (verdict c) c).
      rewrite run_done_clean. reflexivity.
    + injection Hd as ->. rewrite Basic_broadcast_eq. fold (run_done (verdict c) c).
      rewrite run_done_clean. reflexivity.
Qed.

Lemma deliver_all_times xs cs : forall w c,
  default [] (deliver_all xs cs w !! c) = default [] (w !! c) ++ each_times (times c cs) xs.
Proof.
  unfold deliver_all, each_times. induction xs as [|x xs IH]; intros w c.
  - simpl. by rewrite app_nil_r.
  - cbn [foldl]. rewrite IH, deliver_times. cbn [mbind list_bind]. by rewrite app_assoc.
Qed.

Lemma deliver_all_snoc xs x cs w :
  deliver x cs (deliver_all xs cs w) = deliver_all (xs ++ [x]) cs w.
Proof. unfold deliver_all. by rewrite foldl_app. Qed.

Lemma each_times_once xs : each_times 1 xs = xs.
Proof.
  unfold each_times. induction xs as [|x xs IH]; [done|].
  cbn [mbind list_bind]. fold (xs ≫= replicate 1). by rewrite IH.
Qed.

Lemma each_times_never xs : each_times 0 xs = [].
Proof.
  unfold each_times. induction xs as [|x xs IH]; [done|].
  cbn [mbind list_bind]. fold (xs ≫= replicate 0). by rewrite IH.
Qed.

Lemma on_wire_on_wire f g s : on_wire g (on_wire f s) = on_wire (fun w => g (f w)) s.
Proof. reflexivity. Qed.

Lemma Basic_after_data t task ds rest : forall s,
  pending s = [] -> tasks s !! t = Some task -> t_phase task = Live ->
  Basic.after ((Basic.ChildData t <$> ds) ++ rest) s
  = Basic.after rest
      (on_wire (deliver_all (data_chunk <$> ds) (Basic.runClients (t_runId task) s)) s).
Proof.
  induction ds as [|data ds IH]; intros s Hp Ht Hl.
  - simpl. by destruct s.
  - cbn [fmap list_fmap app Basic.after]. unfold Basic.step. rewrite Hp, Ht, Hl.
    unfold Basic.on_data. rewrite Basic_broadcast_eq. cbn [Basic.uncaught].
    rewrite IH by done. by rewrite on_wire_on_wire.
Qed.

Lemma remove_first_snoc x l : is_Some (Basic.remove_first x (l ++ [x])).
Proof.
  induction l as [|y l [r IH]]; simpl.
  - rewrite decide_True by done. eauto.
  - destruct (decide (y = x)); [eauto|]. rewrite IH. simpl. eauto.
Qed.

Lemma Basic_on_timeout_eq runId s :
  Basic.on_timeout runId s
  = Returned () (on_clients (delete runId)
                   (on_wire (deliver End (Basic.runClients runId s)) s)).
Proof.
  unfold Basic.on_timeout. rewrite bind_gets. unfold mbind, Act_bind.
  by rewrite forEach_send.
Qed.

(** X11. The stream of a run of index.js from here to its end. While the
    child of a supervised run writes [ds] and then exits on code [c], the
    copies of the 'close' listener finding nothing in their way, and the
    timer fires: the process goes on, the run has its verdict, it has no
    subscriber left, and every response has received, once for each time
    it was subscribed to the run, the cleaned chunks in their order, the
    line RUN_DONE with the verdict and the code as it is spelt, and the
    end of the stream; a response that was not subscribed has received
    nothing. *)
Theorem Basic_stream_to_the_end t task ds c s d' :
  pending s = [] -> tasks s !! t = Some task -> t_phase task = Live ->
  (t_run task < length (heap s))%nat ->
  close_disk (heap s !!! t_run task) (Js.toString c) (disk s) = Some d' ->
  exists s',
    Basic.after ((Basic.ChildData t <$> ds)
                 ++ [Basic.ChildClose t (Some c); Basic.Timeout (t_runId task)]) s
    = Basic.Continue s' /\
    status (heap s' !!! t_run task) = verdict c /\
    disk s' = d' /\
    Basic.runClients (t_runId task) s' = [] /\
    forall res,
      sent res s'
      = sent res s
        ++ each_times (times res (Basic.runClients (t_runId task) s))
             ((data_chunk <$> ds)
              ++ [Data (Basic.sse (run_done (verdict c) c)); End]).
Proof.
  intros Hp Ht Hl Hr Hd.
  rewrite (Basic_after_data t task ds _ s Hp Ht Hl).
  set (cs := Basic.runClients (t_runId task) s).
  set (s1 := on_wire (deliver_all (data_chunk <$> ds) cs) s).
  cbn [Basic.after]. unfold Basic.step at 1.
  change (pending s1) with (pending s). change (tasks s1) with (tasks s).
  rewrite Hp, Ht, Hl.
  rewrite (Basic_on_close_eq t task c s1 d') by done. cbn [Basic.uncaught].
  change (pending s1) with (pending s). change (timers s1) with (timers s).
  change (heap s1) with (heap s). change (tasks s1) with (tasks s).
  change (clients s1) with (clients s). change (runs s1) with (runs s).
  change (Basic.runClients (t_runId task) s1) with cs.
  unfold Basic.step. cbn [pending]. rewrite Hp. cbn [timers].
  destruct (remove_first_snoc (t_runId task) (timers s)) as [rest ->].
  rewrite Basic_on_timeout_eq. cbn [Basic.uncaught].
  eexists. split; [reflexivity|]. split; [|split; [done|split]].
  - cbn [heap on_clients on_wire on_timers]. by apply status_alter_eq.
  - unfold Basic.runClients. simpl. by rewrite lookup_delete_eq.
  - intros res. unfold sent. cbn [wire on_clients on_wire on_timers clients heap].
    change (Basic.runClients (t_runId task) _) with cs.
    change (wire s1) with (deliver_all (data_chunk <$> ds) cs (wire s)).
    rewrite !deliver_all_snoc, deliver_all_times. by rewrite <- app_assoc.
Qed.

Lemma Basic_stream_to_the_end_witness :
  exists s',
    Basic.after ((Basic.ChildData 0%nat <$> output_A)
                 ++ [Basic.ChildClose 0%nat (Some 0%Z); Basic.Timeout (t_runId task_A)])
                s_live
    = Basic.Continue s' /\
    status (heap s' !!! t_run task_A) = verdict 0 /\
    disk s' = disk s_closed /\
    Basic.runClients (t_runId task_A) s' = [] /\
    forall res,
      sent res s'
      = sent res s_live
        ++ each_times (times res (Basic.runClients (t_runId task_A) s_live))
             ((data_chunk <$> output_A)
              ++ [Data (Basic.sse (run_done (verdict 0) 0)); End]).
Proof.
  apply (Basic_stream_to_the_end 0%nat task_A output_A 0%Z s_live (disk s_closed));
    try reflexivity.
  vm_compute. lia.
Defined.

(** ** Where a 'close' listener throws *)

Lemma writeFileSync_no_parent p name text d :
  Fs.existsSync p d = false -> Fs.writeFileSync (p ++ [name]) text d = None.
Proof.
  unfold Fs.existsSync, Fs.writeFileSync, Fs.apply_at. intros H.
  destruct (Fs.lookup p (Some d)) eqn:E; [done|].
  assert (Fs.update_at false (p ++ [name])
            (fun o => match o with
                      | Some (Fs.Dir _) => None
                      | _ => Some (Some (Fs.File text))
                      end) (Some d) = None) as ->; [|done].
  revert E. generalize (Some d). clear. induction p as [|a p IH]; intros n E.
  - simpl in *. by subst.
  - simpl in *. destruct n as [[c|es]|]; [done| |done]. by rewrite IH.
Qed.

(** X12. A child that a signal ended closes with no exit code. The 'close'
    listener, in index.js as in index-improved.js, has by then set the run
    to [failed] and throws on [code.toString()], before it has written the
    exit code file, sent RUN_DONE or armed the timer that ends the
    streams; in index.js, where the listener runs on a supervised run, the
    exception is uncaught. *)
Theorem close_on_signal_throws t task s :
  (exists e,
     Basic.on_close t task None s
     = Thrown e (on_heap (alter (with_status failed) (t_run task)) s) /\
     Improved.on_close t task None s
     = Thrown e (on_heap (alter (with_status failed) (t_run task)) s)) /\
  (pending s = [] -> tasks s !! t = Some task -> t_phase task = Live ->
   Basic.step (Basic.ChildClose t None) s = Basic.Crash).
Proof.
  split; [by eexists|]. intros Hp Ht Hl. unfold Basic.step. by rewrite Hp, Ht, Hl.
Qed.

Lemma close_on_signal_throws_witness :
  Basic.step (Basic.ChildClose 0%nat None) s_live = Basic.Crash.
Proof. apply (close_on_signal_throws 0%nat task_A s_live); reflexivity. Defined.

(** X13. A run whose directory is gone, as the retention sweep leaves it when
    it takes a run that is still supervised: when its child exits, the
    'close' listener of index-improved.js sets the verdict and throws on
    writing the exit code file, so that nothing is sent to the subscribers
    and no timer is armed to end their streams. *)
Theorem Improved_close_without_directory t task c s :
  Fs.existsSync (runPath (paths (heap s !!! t_run task))) (disk s) = false ->
  exists e s',
    Improved.on_close t task (Some c) s = Thrown e s' /\
    heap s' = alter (with_status (verdict c)) (t_run task) (heap s) /\
    wire s' = wire s /\ timers s' = timers s /\ clients s' = clients s /\
    tasks s' = tasks s /\ disk s' = disk s.
Proof.
  intros H. unfold Improved.on_close, set_status, deref.
  rewrite bind_modify, bind_gets, bind_ret, exit_code_zero. fold (verdict c).
  cbn [heap on_heap]. rewrite alter_status_paths.
  unfold mbind at 1, Act_bind at 1, fs. cbn [disk on_heap].
  rewrite writeFileSync_no_parent by done. by eexists _, _.
Qed.

Lemma Improved_close_without_directory_witness :
  exists e s',
    Improved.on_close 0%nat i_task (Some 0%Z) i_swept = Thrown e s' /\
    heap s' = alter (with_status (verdict 0)) (t_run i_task) (heap i_swept) /\
    wire s' = wire i_swept /\ timers s' = timers i_swept /\
    clients s' = clients i_swept /\ tasks s' = tasks i_swept /\ disk s' = disk i_swept.
Proof. apply (Improved_close_without_directory 0%nat i_task 0%Z i_swept). reflexivity. Defined.

(** ** The registry of server/index.js in the states it can reach *)

Lemma Basic_step_cases s ev s' :
  Basic.step ev s = Basic.Continue s' ->
  control s' = control s \/
  (exists req f,
     control s' = (heap s ++ [newRun req f],
                   Assoc.set (newRunId req) (length (heap s)) (runs s),
                   tasks s, [newRunId req])) \/
  (exists runId r cmd,
     Assoc.get runId (runs s) = Some r /\
     control s' = (alter (with_status running) r (heap s), runs s,
                   tasks s ++ [{| t_runId := runId; t_run := r; t_cmd := cmd;
                                  t_phase := Probing |}], [])) \/
  (exists t cmd ph,
     control s' = (heap s, runs s,
                   alter (with_phase ph) t (alter (with_cmd cmd) t (tasks s)),
                   pending s)) \/
  (exists t task st,
     tasks s !! t = Some task /\
     control s' = (alter (with_status st) (t_run task) (heap s), runs s,
                   alter (with_phase Exited) t (tasks s), pending s)).
Proof.
  intros H. unfold Basic.step in H.
  destruct (pending s) as [|runId rest] eqn:Hp.
  - destruct ev as [req res| |t sp|t data|t|t code|runId|runId res|runId res|res|runId res].
    + pose proof (Basic_start_effect req res s) as Hpost.
      destruct (Basic.start req res s) as [[] s1|e s1]; simpl in *; [|done].
      injection H as <-.
      destruct Hpost as [?|(f & _ & ?)]; [by left | right; left; eauto].
    + done.
    + destruct (tasks s !! t) as [task|] eqn:Ht; [|done].
      destruct (t_phase task) eqn:Hph; try done.
      pose proof (Basic_resumed_effect t task sp s) as Hpost.
      destruct (Basic.runCypress_resumed t task sp s) as [[] s1|e s1];
        simpl in H; [injection H as <-|done].
      destruct Hpost as (cmd & ph & _ & Hc). rewrite Hp in Hc. do 3 right. left. eauto.
    + destruct (tasks s !! t) as [task|] eqn:Ht; [|done].
      destruct (t_phase task) eqn:Hph; try done.
      left. eapply uncaught_quiet; [|exact H]. apply quiet_Basic_broadcast.
    + destruct (tasks s !! t) as [task|] eqn:Ht; [|done].
      destruct (t_phase task) eqn:Hph; done.
    + destruct (tasks s !! t) as [task|] eqn:Ht; [|done].
      destruct (t_phase task) eqn:Hph; try done.
      pose proof (Basic_on_close_effect t task code s) as Hpost.
      destruct (Basic.on_close t task code s) as [[] s1|e s1];
        simpl in H; [injection H as <-|done].
      destruct Hpost as (c & -> & Hc & _). rewrite Hp in Hc. do 4 right. eauto.
    + destruct (Basic.remove_first runId (timers s)) as [l|]; [|done].
      apply uncaught_quiet in H; [|apply quiet_Basic_on_timeout]. left.
      rewrite H. unfold control. simpl. by rewrite Hp.
    + left. eapply uncaught_quiet; [|exact H]. apply quiet_Basic_stream.
    + left. eapply uncaught_quiet; [|exact H]. apply quiet_Basic_stream_closed.
    + left. eapply guarded_quiet; [|exact H]. apply quiet_Basic_list_runs.
    + left. eapply guarded_quiet; [|exact H]. apply quiet_Basic_get_run.
  - destruct ev; try done.
    pose proof (Basic_runCypress_effect runId (on_pending (fun _ => []) s)) as Hpost.
    destruct (Basic.runCypress runId (on_pending (fun _ => []) s)) as [[] s1|e s1];
      simpl in H; [injection H as <-|done].
    destruct Hpost as (r & cmd & Hget & Hc). simpl in Hget, Hc. right. right. left. eauto.
Qed.

Lemma elem_set {V} k (v : V) l e : e ∈ Assoc.set k v l -> e = (k, v) \/ e ∈ l.
Proof.
  induction l as [|[k0 v0] l IH]; simpl.
  - intros ->%list_elem_of_singleton. by left.
  - destruct (decide (k0 = k)) as [->|Hne].
    + intros [->|H]%elem_of_cons; [by left | right; by apply list_elem_of_further].
    + intros [->|H]%elem_of_cons; [right; apply list_elem_of_here|].
      destruct (IH H) as [?|?]; [by left | right; by apply list_elem_of_further].
Qed.

Lemma alter_status_id st r (h : list Run) r' :
  id (alter (with_status st) r h !!! r') = id (h !!! r').
Proof.
  rewrite list_lookup_total_alter. destruct (decide _) as [[-> _]|]; done.
Qed.

Lemma names_same s s' runId r : heap s' = heap s -> names s runId r -> names s' runId r.
Proof. unfold names. by intros ->. Qed.

Lemma names_status s s' st r0 runId r :
  heap s' = alter (with_status st) r0 (heap s) -> names s runId r -> names s' runId r.
Proof.
  unfold names. intros ->. by rewrite length_alter, alter_status_id, alter_status_paths.
Qed.

Lemma names_grow s s' run runId r :
  heap s' = heap s ++ [run] -> names s runId r -> names s' runId r.
Proof.
  unfold names. intros -> (Hr & Hid & Hp). rewrite length_app, lookup_total_app_l by done.
  split; [lia | done].
Qed.

Lemma set_keys {V} k (v : V) l : k ∈ l.*1 -> (Assoc.set k v l).*1 = l.*1.
Proof.
  induction l as [|[k0 v0] l IH]; simpl; [by intros ?%elem_of_nil|].
  destruct (decide (k0 = k)) as [->|Hne]; [done|].
  intros [?|H]%elem_of_cons; [congruence|]. simpl. f_equal. by apply IH.
Qed.

Lemma set_keys_new {V} k (v : V) l : k ∉ l.*1 -> Assoc.set k v l = l ++ [(k, v)].
Proof.
  induction l as [|[k0 v0] l IH]; simpl; [done|].
  intros [Hne Hk]%not_elem_of_cons. rewrite decide_False by done. by rewrite IH.
Qed.

Lemma set_keys_NoDup {V} k (v : V) l : NoDup l.*1 -> NoDup (Assoc.set k v l).*1.
Proof.
  intros Hnd. destruct (decide (k ∈ l.*1)) as [Hin|Hout].
  - by rewrite set_keys.
  - rewrite set_keys_new, fmap_app by done. apply NoDup_app. split; [done|].
    split; [|apply NoDup_singleton]. intros x Hx ->%list_elem_of_singleton. done.
Qed.

Lemma registry_step s ev s' :
  registry_ok s -> Basic.step ev s = Basic.Continue s' -> registry_ok s'.
Proof.
  intros (Hnd & Hruns & Htasks) Hstep.
  destruct (Basic_step_cases s ev s' Hstep)
    as [Hc|[(req & f & Hc)|[(runId & r & cmd & Hget & Hc)|[(t & cmd & ph & Hc)
        |(t & task & st & Ht & Hc)]]]].
  - apply control_eq in Hc as (Hh & Hr & Ht & _). split; [by rewrite Hr|]. split.
    + rewrite Hr. intros runId r Hin. eapply names_same; eauto.
    + rewrite Ht. intros t task Hl. eapply names_same; eauto.
  - apply control_is in Hc as (Hh & Hr & Ht & _).
    split; [rewrite Hr; by apply set_keys_NoDup|]. split.
    + rewrite Hr. intros runId r [[= -> ->]|Hin]%elem_set.
      * unfold names. rewrite Hh, length_app, list_lookup_total_middle by done.
        simpl. split; [lia | done].
      * eapply names_grow; eauto.
    + rewrite Ht. intros t task Hl. eapply names_grow; eauto.
  - apply control_is in Hc as (Hh & Hr & Ht & _). split; [by rewrite Hr|]. split.
    + rewrite Hr. intros k r0 Hin. eapply names_status; eauto.
    + rewrite Ht. intros t task [Hl|[_ Hl]]%lookup_app_Some.
      * eapply names_status; eauto.
      * apply list_lookup_singleton_Some in Hl as [_ <-]. simpl.
        eapply names_status; eauto. apply Hruns. by apply get_elem.
  - apply control_is in Hc as (Hh & Hr & Ht & _). split; [by rewrite Hr|]. split.
    + rewrite Hr. intros runId r Hin. eapply names_same; eauto.
    + rewrite Ht. intros t0 task' Hl. apply lookup_altered in Hl as (x & Hl & Heq & Hne).
      apply lookup_altered in Hl as (y & Hl & Heq' & Hne').
      destruct (decide (t0 = t)) as [E|E].
      * rewrite (Heq E), (Heq' E). simpl. eapply names_same; eauto.
      * rewrite (Hne E), (Hne' E). eapply names_same; eauto.
  - apply control_is in Hc as (Hh & Hr & Ht' & _). split; [by rewrite Hr|]. split.
    + rewrite Hr. intros runId r Hin. eapply names_status; eauto.
    + rewrite Ht'. intros t0 task' Hl. apply lookup_altered in Hl as (x & Hl & Heq & Hne).
      destruct (decide (t0 = t)) as [E|E].
      * rewrite (Heq E). simpl. eapply names_status; eauto.
      * rewrite (Hne E). eapply names_status; eauto.
Qed.

Lemma registry_reachable d s : Basic.reachable d s -> registry_ok s.
Proof.
  induction 1 as [|s ev s' _ IH Hstep].
  - split; [apply NoDup_nil_2|]. split; simpl; [intros ? ? H; by apply elem_of_nil in H | done].
  - by eapply registry_step.
Qed.

(** X14. In every state server/index.js can reach, on whatever disk it was
    started: no id is in the registry twice; the object registered under
    an id carries that id and the directories runs/<id> and
    runs/<id>/work; and the object an invocation of [runCypress] holds is
    one that carries the id of the invocation and its directories. *)
Theorem Basic_registry_names d s :
  Basic.reachable d s ->
  NoDup (runs s).*1 /\
  (forall runId r, Assoc.get runId (runs s) = Some r -> names s runId r) /\
  (forall t task, tasks s !! t = Some task -> names s (t_runId task) (t_run task)).
Proof.
  intros (Hnd & Hruns & Htasks)%registry_reachable. split; [done|]. split; [|done].
  intros runId r Hget. apply Hruns. by apply get_elem.
Qed.

Lemma s_live_reachable : Basic.reachable disk0 s_live.
Proof.
  apply (reachable_after disk0 s_live_events (boot disk0)); [constructor | reflexivity].
Qed.

Lemma Basic_registry_names_witness :
  NoDup (runs s_live).*1 /\
  (forall runId r, Assoc.get runId (runs s_live) = Some r -> names s_live runId r) /\
  (forall t task, tasks s_live !! t = Some task ->
     names s_live (t_runId task) (t_run task)).
Proof. apply (Basic_registry_names disk0 s_live), s_live_reachable. Defined.

(** ** GET /runs/:id and GET /runs *)

Lemma Basic_getRunVideos_reads runId : reads_only (Basic.getRunVideos runId).
Proof.
  intros s. unfold Basic.getRunVideos. act.
  destruct (Assoc.get runId (runs s)); simpl; [|done].
  by destruct (Fs.lookup _ _) as [[c|es]|].
Qed.

Lemma Basic_getRunScreenshots_reads runId : reads_only (Basic.getRunScreenshots runId).
Proof.
  intros s. unfold Basic.getRunScreenshots. act.
  destruct (Assoc.get runId (runs s)); simpl; [|done].
  by destruct (Fs.lookup _ _) as [[c|es]|].
Qed.

Lemma Basic_getRunResults_returns runId s :
  exists o, Basic.getRunResults runId s = Returned o s.
Proof.
  unfold Basic.getRunResults. act.
  destruct (Assoc.get runId (runs s)); simpl; [|by eexists].
  destruct (Fs.existsSync _ _); by eexists.
Qed.

Lemma Basic_view_cases run s :
  (exists v, Basic.view run s = Returned v s /\ shows s run v) \/
  (exists e, Basic.view run s = Thrown e s /\ query_throws s (id run)).
Proof.
  unfold Basic.view, shows, query_throws.
  pose proof (Basic_getRunVideos_reads (id run) s) as Hv.
  pose proof (Basic_getRunScreenshots_reads (id run) s) as Hs.
  destruct (Basic_getRunResults_returns (id run) s) as [o Ho].
  unfold mbind, Act_bind.
  destruct (Basic.getRunVideos (id run) s) as [videos s1|e s1]; subst s1.
  - destruct (Basic.getRunScreenshots (id run) s) as [shots s1|e s1]; subst s1.
    + rewrite Ho. left. eexists. split; [reflexivity|]. simpl. by repeat split.
    + right. exists e. split; [done|]. right. eauto.
  - right. exists e. split; [done|]. left. eauto.
Qed.

(** X15. GET /runs/:id in a state server/index.js can reach: the process
    goes on with one more chunk on the response and nothing else changed.
    For an id that is not registered the chunk is the 404 Run not found.
    For a registered id it is the 200 with a view that carries this id,
    the fields of the registered object and what the three artifact
    queries answer for the id; or, when one of the two walks throws, the
    500 of the framework. *)
Theorem Basic_get_run_answers d s runId res :
  Basic.reachable d s -> pending s = [] ->
  exists c,
    Basic.step (Basic.GetRun runId res) s = Basic.Continue (reply res c s) /\
    match Assoc.get runId (runs s) with
    | None => c = Json 404 (NotOk "Run not found")
    | Some r =>
        (exists v, c = Json 200 (OneRun v) /\ v_id v = runId /\
                   shows s (heap s !!! r) v) \/
        (c = ErrorPage 500 /\ query_throws s runId)
    end.
Proof.
  intros Hreach Hp. apply registry_reachable in Hreach as (_ & Hruns & _).
  unfold Basic.step. rewrite Hp. unfold Basic.get_run. rewrite bind_gets.
  destruct (Assoc.get runId (runs s)) as [r|] eqn:Hget.
  - destruct (Hruns _ _ (get_elem _ _ _ Hget)) as (_ & Hid & _).
    unfold deref. rewrite bind_gets.
    destruct (Basic_view_cases (heap s !!! r) s) as [(v & Hv & Hshows)|(e & Hv & Hthrows)].
    + rewrite (bind_returned_eq _ _ _ _ _ Hv). eexists. split; [reflexivity|].
      left. exists v. split; [done|]. split; [|done].
      destruct Hshows as (-> & _). done.
    + unfold mbind, Act_bind. rewrite Hv. eexists. split; [reflexivity|].
      right. split; [done|]. by rewrite <- Hid.
  - eexists. split; [reflexivity|]. done.
Qed.

Lemma Basic_get_run_answers_witness :
  exists c,
    Basic.step (Basic.GetRun id_A 5%nat) s_live = Basic.Continue (reply 5%nat c s_live) /\
    match Assoc.get id_A (runs s_live) with
    | None => c = Json 404 (NotOk "Run not found")
    | Some r =>
        (exists v, c = Json 200 (OneRun v) /\ v_id v = id_A /\
                   shows s_live (heap s_live !!! r) v) \/
        (c = ErrorPage 500 /\ query_throws s_live id_A)
    end.
Proof.
  apply (Basic_get_run_answers disk0 s_live id_A 5%nat); [apply s_live_reachable | reflexivity].
Defined.

Lemma Basic_views_cases l s :
  (exists vs, Basic.views l s = Returned vs s /\ Forall2 (shows s) l vs) \/
  (exists e run, Basic.views l s = Thrown e s /\ run ∈ l /\ query_throws s (id run)).
Proof.
  induction l as [|run l IH]; simpl.
  - left. exists []. split; [done | constructor].
  - unfold mbind, Act_bind.
    destruct (Basic_view_cases run s) as [(v & -> & Hv)|(e & -> & Hq)].
    + destruct IH as [(vs & -> & Hvs)|(e & run' & -> & Hin & Hq)].
      * left. exists (v :: vs). split; [done | by constructor].
      * right. exists e, run'. split; [done|]. split; [by apply list_elem_of_further | done].
    + right. exists e, run. split; [done|]. split; [apply list_elem_of_here | done].
Qed.

Lemma Forall2_sorted {A B} (R : A -> B -> Prop) (P : A -> A -> Prop) (Q : B -> B -> Prop)
    l vs :
  (forall a b v w, R a v -> R b w -> P a b -> Q v w) ->
  Forall2 R l vs -> StronglySorted P l -> StronglySorted Q vs.
Proof.
  intros HPQ H. induction H as [|a v l vs Hav Hl IH]; intros Hs; [constructor|].
  apply StronglySorted_inv in Hs as [Hs Ha]. constructor; [by apply IH|].
  clear IH Hs. induction Hl as [|b w l vs Hbw Hl IH]; [constructor|].
  apply Forall_cons in Ha as [Hab Ha]. constructor; eauto.
Qed.

(** X16. GET /runs in a state server/index.js can reach: the process goes on
    with one more chunk on the response and nothing else changed. The
    chunk is the 200 with one view for each id of the registry, the most
    recently created first, each view showing the object registered under
    its id with what the artifact queries answer for it; or, when a walk
    throws for one of the registered ids, the 500 of the framework. *)
Theorem Basic_list_runs_answers d s res :
  Basic.reachable d s -> pending s = [] ->
  exists c,
    Basic.step (Basic.GetRuns res) s = Basic.Continue (reply res c s) /\
    ((exists vs,
        c = Json 200 (AllRuns vs) /\
        v_id <$> vs ≡ₚ (runs s).*1 /\
        StronglySorted (fun v w => (v_createdAt w <= v_createdAt v)%Z) vs /\
        forall v, v ∈ vs ->
          exists r, Assoc.get (v_id v) (runs s) = Some r /\ shows s (heap s !!! r) v) \/
     (c = ErrorPage 500 /\
      exists runId, is_Some (Assoc.get runId (runs s)) /\ query_throws s runId)).
Proof.
  intros Hreach Hp. apply registry_reachable in Hreach as (Hnd & Hruns & _).
  unfold Basic.step. rewrite Hp. unfold Basic.list_runs. rewrite bind_gets.
  set (objs := (fun e : string * nat => heap s !!! e.2) <$> runs s).
  set (runList := Js.sort _ objs).
  assert (Hperm : runList ≡ₚ objs) by apply (sort_Permutation createdAt).
  assert (Hsorted : StronglySorted (fun a b => (createdAt b <= createdAt a)%Z) runList)
    by apply (sort_sorted createdAt).
  assert (Hobj : forall run, run ∈ runList ->
            exists r, Assoc.get (id run) (runs s) = Some r /\ run = heap s !!! r).
  { intros run Hin. rewrite Hperm in Hin.
    apply list_elem_of_fmap in Hin as ([k r] & -> & Hin). simpl.
    destruct (Hruns _ _ Hin) as (_ & -> & _). exists r. split; [|done].
    by apply elem_get_nodup. }
  destruct (Basic_views_cases runList s) as [(vs & Hv & Hshows)|(e & run & Hv & Hin & Hq)].
  - rewrite (bind_returned_eq _ _ _ _ _ Hv). eexists. split; [reflexivity|].
    left. exists vs. split; [done|]. split; [|split].
    + assert (v_id <$> vs = id <$> runList) as ->.
      { clear -Hshows. induction Hshows as [|run v l vs (Hid & _) _ IH]; [done|].
        rewrite !fmap_cons. by rewrite Hid, IH. }
      rewrite Hperm. unfold objs. rewrite <- list_fmap_compose.
      assert ((id ∘ (fun e : string * nat => heap s !!! e.2)) <$> runs s = (runs s).*1) as ->;
        [|done].
      apply list_fmap_ext. intros i [k r] Hl. simpl.
      apply list_elem_of_lookup_2 in Hl. by destruct (Hruns _ _ Hl) as (_ & -> & _).
    + eapply Forall2_sorted; [|exact Hshows|exact Hsorted].
      intros a b v w (_ & -> & _) (_ & -> & _). done.
    + intros v Hin. apply list_elem_of_lookup in Hin as [i Hi].
      destruct (Forall2_lookup_r _ _ _ _ _ Hshows Hi) as (run & Hrun & Hs).
      apply list_elem_of_lookup_2 in Hrun. destruct (Hobj run Hrun) as (r & Hget & ->).
      exists r. split; [|done]. destruct Hs as (-> & _). done.
  - unfold mbind, Act_bind. rewrite Hv. eexists. split; [reflexivity|].
    right. split; [done|]. exists (id run). split; [|done].
    destruct (Hobj run Hin) as (r & -> & _). eauto.
Qed.

Lemma Basic_list_runs_answers_witness :
  exists c,
    Basic.step (Basic.GetRuns 5%nat) s_live = Basic.Continue (reply 5%nat c s_live) /\
    ((exists vs,
        c = Json 200 (AllRuns vs) /\
        v_id <$> vs ≡ₚ (runs s_live).*1 /\
        StronglySorted (fun v w => (v_createdAt w <= v_createdAt v)%Z) vs /\
        forall v, v ∈ vs ->
          exists r, Assoc.get (v_id v) (runs s_live) = Some r /\
                    shows s_live (heap s_live !!! r) v) \/
     (c = ErrorPage 500 /\
      exists runId, is_Some (Assoc.get runId (runs s_live)) /\ query_throws s_live runId)).
Proof.
  apply (Basic_list_runs_answers disk0 s_live 5%nat); [apply s_live_reachable | reflexivity].
Defined.

(** ** Making directories and files where nothing is in the way *)

Section FsMore.
Import Fs.
Implicit Types (p q : path) (n : option node) (d : node).

Lemma update_at_app mk p q f n :
  update_at mk (p ++ q) f n = update_at mk p (update_at mk q f) n.
Proof.
  revert n. induction p as [|a p IH]; intros n; [done|]. simpl.
  destruct n as [[c|es]|]; [done| |]; by rewrite IH.
Qed.

Lemma update_at_reach mk p g n x y :
  lookup p n = Some x -> g (Some x) = Some (Some y) ->
  exists r, update_at mk p g n = Some (Some r).
Proof.
  revert n. induction p as [|a p IH]; simpl; intros n Hl Hg.
  - subst n. eauto.
  - destruct n as [[c|es]|].
    + by rewrite lookup_None in Hl.
    + simpl in Hl. destruct (IH _ Hl Hg) as [r ->]. simpl. eauto.
    + by rewrite lookup_None in Hl.
Qed.

Lemma update_at_fresh q f v :
  f None = Some (Some v) -> exists y, update_at true q f None = Some (Some y).
Proof.
  intros Hf. induction q as [|a q [y IH]]; simpl; [eauto|]. rewrite IH. simpl. eauto.
Qed.

Lemma apply_at_below mk p q f d x y :
  lookup p (Some d) = Some x -> update_at mk q f (Some x) = Some (Some y) ->
  exists d', apply_at mk (p ++ q) f d = Some d'.
Proof.
  intros Hl Hu. unfold apply_at. rewrite update_at_app.
  destruct (update_at_reach mk p (update_at mk q f) _ _ _ Hl Hu) as [r ->]. eauto.
Qed.

(** A directory that is not there yet, below one that is, can be made,
    and comes out empty. *)
Lemma mkdirSync_new p a q d es :
  lookup p (Some d) = Some (Dir es) -> Assoc.get a es = None ->
  exists d', mkdirSync (p ++ a :: q) d = Some d' /\
             lookup (p ++ a :: q) (Some d') = Some (Dir []).
Proof.
  intros Hl Hget. unfold mkdirSync.
  set (f := fun o => match o with
                     | None => Some (Some (Dir []))
                     | Some (Dir es) => Some (Some (Dir es))
                     | Some (File _) => None
                     end).
  destruct (update_at_fresh q f (Dir []) eq_refl) as [y Hy].
  destruct (apply_at_below true p (a :: q) f d (Dir es)
              (Dir (set_entry a (Some y) es)) Hl) as [d' Hd'].
  { simpl. rewrite Hget, Hy. done. }
  exists d'. split; [done|]. apply apply_at_same in Hd'.
  assert (lookup (p ++ a :: q) (Some d) = None) as Hnone.
  { rewrite lookup_app, Hl. simpl. rewrite Hget. apply lookup_None. }
  rewrite Hnone in Hd'. simpl in Hd'. by injection Hd' as <-.
Qed.

(** A file can be written into a directory that has no directory of
    that name. *)
Lemma writeFileSync_into p name content d es :
  lookup p (Some d) = Some (Dir es) ->
  (forall es', Assoc.get name es ≠ Some (Dir es')) ->
  exists d', writeFileSync (p ++ [name]) content d = Some d' /\
             lookup (p ++ [name]) (Some d') = Some (File content).
Proof.
  intros Hl Hget. unfold writeFileSync.
  set (f := fun o => match o with
                     | Some (Dir _) => None
                     | _ => Some (Some (File content))
                     end).
  destruct (apply_at_below false p [name] f d (Dir es)
              (Dir (set_entry name (Some (File content)) es)) Hl) as [d' Hd'].
  { simpl. destruct (Assoc.get name es) as [[c|es']|] eqn:E; simpl; try done.
    by destruct (Hget es'). }
  exists d'. split; [done|]. by apply writeFileSync_file in Hd'.
Qed.

Lemma diverge_prefix p r q : diverge p q = true -> diverge (p ++ r) q = true.
Proof.
  revert q. induction p as [|a p IH]; intros [|b q]; simpl; try done.
  destruct (decide (a = b)); [apply IH | done].
Qed.

Lemma mkdirSync_diverge p q d d' :
  mkdirSync p d = Some d' -> diverge p q = true ->
  lookup q (Some d') = lookup q (Some d).
Proof. apply apply_at_diverge. Qed.

Lemma writeFileSync_diverge p c q d d' :
  writeFileSync p c d = Some d' -> diverge p q = true ->
  lookup q (Some d') = lookup q (Some d).
Proof. apply apply_at_diverge. Qed.

Lemma lookup_empty_dir p a q d :
  lookup p (Some d) = Some (Dir []) -> lookup (p ++ a :: q) (Some d) = None.
Proof. intros H. rewrite lookup_app, H. simpl. apply lookup_None. Qed.

End FsMore.

(** ** POST /start with one spec *)

Lemma vacant_spec runId d :
  vacant runId d = true ->
  exists es, Fs.lookup ["runs"] (Some d) = Some (Fs.Dir es) /\ Assoc.get runId es = None.
Proof.
  unfold vacant, Fs.existsSync.
  change ["runs"; runId] with (["runs"] ++ [runId]). rewrite lookup_app.
  destruct (Fs.lookup ["runs"] (Some d)) as [[c|es]|]; [done| |done].
  simpl. destruct (Assoc.get runId es) eqn:E; [done | eauto].
Qed.

Lemma neq_diverge (p : Fs.path) a b q1 q2 :
  a ≠ b -> Fs.diverge (p ++ a :: q1) (p ++ b :: q2) = true.
Proof. apply diverge_app. Qed.

Lemma spec_upload_disk runId name buf content d :
  vacant runId d = true ->
  exists d1 d2 d3 d4 d5,
    Fs.mkdirSync ["runs"; runId] d = Some d1 /\
    Fs.mkdirSync ["runs"; runId; "work"] d1 = Some d2 /\
    Fs.mkdirSync ["runs"; runId; "work"; "cypress"; "e2e"] d2 = Some d3 /\
    Fs.writeFileSync ["runs"; runId; "work"; "cypress"; "e2e"; name] buf d3 = Some d4 /\
    Fs.writeFileSync ["runs"; runId; "work"; "cypress.config.cjs"] content d4 = Some d5 /\
    uploaded runId name buf content d d5.
Proof.
  intros (es & Hruns & Hfresh)%vacant_spec.
  destruct (mkdirSync_new ["runs"] runId [] d es Hruns Hfresh) as (d1 & H1 & L1).
  destruct (mkdirSync_new ["runs"; runId] "work" [] d1 [] L1 eq_refl) as (d2 & H2 & L2).
  destruct (mkdirSync_new ["runs"; runId; "work"] "cypress" ["e2e"] d2 [] L2 eq_refl)
    as (d3 & H3 & L3).
  destruct (writeFileSync_into ["runs"; runId; "work"; "cypress"; "e2e"] name buf d3 [] L3)
    as (d4 & H4 & L4); [done|].
  cbn [app] in H1, H2, H3, H4, L1, L2, L3, L4.
  assert (W2 : forall c, Fs.lookup ["runs"; runId; "work"; c] (Some d2) = None).
  { intros c. apply (lookup_empty_dir ["runs"; runId; "work"] c [] d2 L2). }
  assert (R1 : forall c, Fs.lookup ["runs"; runId; c] (Some d1) = None).
  { intros c. apply (lookup_empty_dir ["runs"; runId] c [] d1 L1). }
  assert (W4 : forall c, c ≠ "cypress" ->
                 Fs.lookup ["runs"; runId; "work"; c] (Some d4) = None).
  { intros c Hc.
    rewrite (writeFileSync_diverge _ _ _ _ _ H4)
      by (apply (neq_diverge ["runs"; runId; "work"]); congruence).
    rewrite (mkdirSync_diverge _ _ _ _ H3)
      by (apply (neq_diverge ["runs"; runId; "work"]); congruence).
    apply W2. }
  destruct (Fs.lookup ["runs"; runId; "work"] (Some d4)) as [[c4|es4]|] eqn:L4w.
  { change ["runs"; runId; "work"; "cypress"; "e2e"; name]
      with (["runs"; runId; "work"] ++ ["cypress"; "e2e"; name]) in L4.
    by rewrite lookup_app, L4w, lookup_file in L4. }
  2: { change ["runs"; runId; "work"; "cypress"; "e2e"; name]
         with (["runs"; runId; "work"] ++ ["cypress"; "e2e"; name]) in L4.
       by rewrite lookup_app, L4w, lookup_None in L4. }
  destruct (writeFileSync_into ["runs"; runId; "work"] "cypress.config.cjs" content d4 es4
              L4w) as (d5 & H5 & L5).
  { intros es' Hget. specialize (W4 "cypress.config.cjs").
    change ["runs"; runId; "work"; "cypress.config.cjs"]
      with (["runs"; runId; "work"] ++ ["cypress.config.cjs"]) in W4.
    rewrite lookup_app, L4w in W4. simpl in W4. rewrite Hget in W4.
    by discriminate W4. }
  cbn [app] in H5, L5.
  exists d1, d2, d3, d4, d5. do 5 (split; [done|]). constructor.
  - rewrite (writeFileSync_diverge _ _ _ _ _ H5); [done|].
    apply (neq_diverge ["runs"; runId; "work"]). done.
  - done.
  - intros c Hc1 Hc2.
    rewrite (writeFileSync_diverge _ _ _ _ _ H5)
      by (apply (neq_diverge ["runs"; runId; "work"]); congruence).
    by apply W4.
  - intros c Hc.
    rewrite (writeFileSync_diverge _ _ _ _ _ H5)
      by (apply (neq_diverge ["runs"; runId]); congruence).
    rewrite (writeFileSync_diverge _ _ _ _ _ H4)
      by (apply (neq_diverge ["runs"; runId]); congruence).
    rewrite (mkdirSync_diverge _ _ _ _ H3)
      by (apply (neq_diverge ["runs"; runId]); congruence).
    rewrite (mkdirSync_diverge _ _ _ _ H2)
      by (apply (neq_diverge ["runs"; runId]); congruence).
    apply R1.
  - intros q Hq.
    rewrite (writeFileSync_diverge _ _ _ _ _ H5)
      by apply (diverge_prefix ["runs"; runId] _ _ Hq).
    rewrite (writeFileSync_diverge _ _ _ _ _ H4)
      by apply (diverge_prefix ["runs"; runId] _ _ Hq).
    rewrite (mkdirSync_diverge _ _ _ _ H3)
      by apply (diverge_prefix ["runs"; runId] _ _ Hq).
    rewrite (mkdirSync_diverge _ _ _ _ H2)
      by apply (diverge_prefix ["runs"; runId] _ _ Hq).
    by rewrite (mkdirSync_diverge _ _ _ _ H1).
Qed.

(** The configuration text of index.js is its template literal as it
    stands in the source: it opens on a line break, is indented as the
    source is, and closes on the indentation of the closing backquote. *)
Lemma Basic_config_text :
  String.length Basic.cypressConfigContent = 396%nat /\
  (exists rest, Basic.cypressConfigContent = String Js.LF rest) /\
  Js.endsWith Basic.cypressConfigContent
    ("});" +:+ String Js.LF "                    ") = true.
Proof. split; [reflexivity|]. split; [by eexists | reflexivity]. Qed.

Lemma uploaded_config runId name buf content d d' :
  uploaded runId name buf content d d' ->
  findConfigFile ["runs"; runId; "work"] d'
  = Some (Fs.show ["runs"; runId; "work"; "cypress.config.cjs"]).
Proof.
  intros [_ Hc Hw _ _]. unfold findConfigFile, configFiles. cbn [fmap list_fmap app find].
  unfold Fs.existsSync. rewrite !Hw by done. by rewrite Hc.
Qed.

Lemma Basic_start_spec req res s f :
  file req = Some f ->
  Js.isSpecName (originalname f) = true ->
  vacant (newRunId req) (disk s) = true ->
  exists d',
    Basic.start req res s = Returned () (accepted req f res d' s) /\
    uploaded (newRunId req) (originalname f) (buffer f) Basic.cypressConfigContent
             (disk s) d'.
Proof.
  intros Hf Hs Hv. destruct (spec_not_zip _ Hs) as [Hz _].
  destruct (spec_upload_disk (newRunId req) (originalname f) (buffer f)
              Basic.cypressConfigContent (disk s) Hv)
    as (d1 & d2 & d3 & d4 & d5 & H1 & H2 & H3 & H4 & H5 & Hup).
  unfold Basic.start. act. rewrite Hf. cbn [app disk on_disk].
  rewrite H1. cbn [app disk on_disk]. rewrite H2. cbn [app disk on_disk].
  rewrite Hz, Hs. cbn [orb app disk on_disk].
  rewrite H3. cbn [app disk on_disk]. rewrite H4. cbn [app disk on_disk].
  rewrite H5. cbn [app disk on_disk].
  exists d5. split; [reflexivity | exact Hup].
Qed.

(** X17. POST /start of index.js with one spec file, on a disk where runs is
    a directory without an entry for the new id: the handler returns; the
    run is registered as [queued] under the new id with the directories of
    that id, and its [runCypress] is the next thing the process does; the
    response gets the 200 with the id and the stream URL; the spec is in
    cypress/e2e of the work directory under its own name, with the
    generated cypress.config.cjs beside the cypress directory and nothing
    else, so that [findConfigFile] will answer that file; and nothing
    outside the run directory has changed. *)
Theorem Basic_start_accepts_spec req res s f :
  file req = Some f ->
  Js.isSpecName (originalname f) = true ->
  vacant (newRunId req) (disk s) = true ->
  exists s',
    Basic.start req res s = Returned () s' /\
    control s' = (heap s ++ [newRun req f],
                  Assoc.set (newRunId req) (length (heap s)) (runs s),
                  tasks s, [newRunId req]) /\
    clients s' = clients s /\ timers s' = timers s /\
    sent res s' = sent res s ++ [Json 200 (Started (newRunId req)
                                   ("/runs/" +:+ newRunId req +:+ "/stream"))] /\
    (forall other, other ≠ res -> sent other s' = sent other s) /\
    uploaded (newRunId req) (originalname f) (buffer f) Basic.cypressConfigContent
             (disk s) (disk s') /\
    findConfigFile ["runs"; newRunId req; "work"] (disk s')
    = Some (Fs.show ["runs"; newRunId req; "work"; "cypress.config.cjs"]).
Proof.
  intros Hf Hs Hv. destruct (Basic_start_spec req res s f Hf Hs Hv) as (d' & -> & Hup).
  eexists. split; [reflexivity|]. split; [reflexivity|]. do 2 (split; [reflexivity|]).
  split; [|split; [|split; [exact Hup | by eapply uploaded_config]]].
  - unfold sent. simpl. by rewrite lookup_insert_eq.
  - intros other Hne. unfold sent. simpl. by rewrite lookup_insert_ne.
Qed.

Lemma Basic_start_accepts_spec_witness :
  exists s',
    Basic.start start_A 0%nat (boot disk0) = Returned () s' /\
    control s' = (heap (boot disk0) ++ [newRun start_A upload_spec],
                  Assoc.set (newRunId start_A) (length (heap (boot disk0)))
                            (runs (boot disk0)),
                  tasks (boot disk0), [newRunId start_A]) /\
    clients s' = clients (boot disk0) /\ timers s' = timers (boot disk0) /\
    sent 0%nat s' = sent 0%nat (boot disk0)
                    ++ [Json 200 (Started (newRunId start_A)
                                    ("/runs/" +:+ newRunId start_A +:+ "/stream"))] /\
    (forall other, other ≠ 0%nat -> sent other s' = sent other (boot disk0)) /\
    uploaded (newRunId start_A) (originalname upload_spec) (buffer upload_spec)
             Basic.cypressConfigContent (disk (boot disk0)) (disk s') /\
    findConfigFile ["runs"; newRunId start_A; "work"] (disk s')
    = Some (Fs.show ["runs"; newRunId start_A; "work"; "cypress.config.cjs"]).
Proof. apply (Basic_start_accepts_spec start_A 0%nat (boot disk0) upload_spec); reflexivity. Defined.

(** ** [runCypress] on a new run directory *)

Lemma lookup_entry (p : Fs.path) c d es :
  Fs.lookup p (Some d) = Some (Fs.Dir es) ->
  Fs.lookup (p ++ [c]) (Some d) = Assoc.get c es.
Proof. intros H. by rewrite lookup_app, H. Qed.

Lemma artifact_dirs runId d es :
  Fs.lookup ["runs"; runId] (Some d) = Some (Fs.Dir es) ->
  Fs.lookup ["runs"; runId; "cypress"] (Some d) = None ->
  Fs.lookup ["runs"; runId; "results"] (Some d) = None ->
  exists d6 d7 d8,
    Fs.mkdirSync ["runs"; runId; "cypress"; "videos"] d = Some d6 /\
    Fs.mkdirSync ["runs"; runId; "cypress"; "screenshots"] d6 = Some d7 /\
    Fs.mkdirSync ["runs"; runId; "results"] d7 = Some d8 /\
    prepared runId d d8.
Proof.
  intros Hrun Hc Hr.
  assert (Assoc.get "cypress" es = None) as Gc.
  { by rewrite <- (lookup_entry ["runs"; runId] "cypress" d es Hrun). }
  destruct (mkdirSync_new ["runs"; runId] "cypress" ["videos"] d es Hrun Gc)
    as (d6 & H6 & L6). cbn [app] in H6, L6.
  destruct (lookup_below ["runs"; runId; "cypress"] ["videos"] (Some d6) _ ltac:(done) L6)
    as [es6 Lc6].
  assert (Assoc.get "screenshots" es6 = None) as Gs.
  { rewrite <- (lookup_entry ["runs"; runId; "cypress"] "screenshots" d6 es6 Lc6).
    cbn [app]. rewrite (mkdirSync_diverge _ _ _ _ H6)
      by (apply (neq_diverge ["runs"; runId; "cypress"]); done).
    change ["runs"; runId; "cypress"; "screenshots"]
      with (["runs"; runId; "cypress"] ++ ["screenshots"]).
    by rewrite lookup_app, Hc. }
  destruct (mkdirSync_new ["runs"; runId; "cypress"] "screenshots" [] d6 es6 Lc6 Gs)
    as (d7 & H7 & L7). cbn [app] in H7, L7.
  destruct (lookup_below ["runs"; runId] ["cypress"; "screenshots"] (Some d7) _
              ltac:(done) L7) as [es7 Lr7].
  assert (Assoc.get "results" es7 = None) as Gr.
  { rewrite <- (lookup_entry ["runs"; runId] "results" d7 es7 Lr7). cbn [app].
    rewrite (mkdirSync_diverge _ _ _ _ H7)
      by (apply (neq_diverge ["runs"; runId]); done).
    rewrite (mkdirSync_diverge _ _ _ _ H6)
      by (apply (neq_diverge ["runs"; runId]); done).
    done. }
  destruct (mkdirSync_new ["runs"; runId] "results" [] d7 es7 Lr7 Gr)
    as (d8 & H8 & L8). cbn [app] in H8, L8.
  exists d6, d7, d8. do 3 (split; [done|]). constructor.
  - rewrite (mkdirSync_diverge _ _ _ _ H8)
      by (apply (neq_diverge ["runs"; runId]); done).
    rewrite (mkdirSync_diverge _ _ _ _ H7)
      by (apply (neq_diverge ["runs"; runId; "cypress"]); done).
    done.
  - rewrite (mkdirSync_diverge _ _ _ _ H8)
      by (apply (neq_diverge ["runs"; runId]); done).
    done.
  - done.
  - intros q Hq1 Hq2.
    rewrite (mkdirSync_diverge _ _ _ _ H8) by done.
    rewrite (mkdirSync_diverge _ _ _ _ H7)
      by apply (diverge_prefix ["runs"; runId; "cypress"] _ _ Hq1).
    rewrite (mkdirSync_diverge _ _ _ _ H6)
      by apply (diverge_prefix ["runs"; runId; "cypress"] _ _ Hq1).
    done.
Qed.

Lemma Basic_runCypress_new runId r s es :
  Assoc.get runId (runs s) = Some r ->
  names s runId r ->
  Fs.lookup ["runs"; runId] (Some (disk s)) = Some (Fs.Dir es) ->
  Fs.lookup ["runs"; runId; "cypress"] (Some (disk s)) = None ->
  Fs.lookup ["runs"; runId; "results"] (Some (disk s)) = None ->
  exists d',
    Basic.runCypress runId s = Returned () (entered runId r d' s) /\
    prepared runId (disk s) d'.
Proof.
  intros Hget (Hlt & Hid & Hpaths) Hrun Hc Hr.
  destruct (artifact_dirs runId (disk s) es Hrun Hc Hr)
    as (d6 & d7 & d8 & H6 & H7 & H8 & Hprep).
  unfold Basic.runCypress. act. rewrite Hget. cbn [heap on_heap disk].
  rewrite alter_status_paths, Hpaths. cbn [runPath workPath pathsOf app].
  rewrite H6. cbn [disk on_disk]. rewrite H7. cbn [disk on_disk]. rewrite H8.
  exists d8. split; [|done]. unfold entered, first_arguments. cbn [app].
  assert (baseUrl (alter (with_status running) r (heap s) !!! r) = baseUrl (heap s !!! r))
    as ->; [|reflexivity].
  by rewrite list_lookup_total_alter_eq.
Qed.

Lemma queries_empty runId r d s :
  Assoc.get runId (runs s) = Some r ->
  paths (heap s !!! r) = pathsOf runId ->
  prepared runId d (disk s) ->
  Basic.getRunVideos runId s = Returned [] s /\
  Basic.getRunScreenshots runId s = Returned [] s /\
  Basic.getRunResults runId s = Returned None s.
Proof.
  intros Hget Hpaths [Hv Hs Hr _].
  unfold Basic.getRunVideos, Basic.getRunScreenshots, Basic.getRunResults, Fs.existsSync.
  act. rewrite Hget. cbn beta iota. rewrite Hpaths. cbn [runPath pathsOf app].
  rewrite Hv, Hs.
  pose proof (lookup_empty_dir ["runs"; runId; "results"] "results.json" [] _ Hr) as Hn.
  cbn [app] in Hn. by rewrite Hn.
Qed.

Lemma alter_snoc {A} (f : A -> A) (l : list A) x :
  alter f (length l) (l ++ [x]) = l ++ [f x].
Proof. induction l as [|y l IH]; [done|]. simpl. f_equal. apply IH. Qed.

Lemma lookup_snoc {A} (l : list A) x : (l ++ [x]) !! length l = Some x.
Proof. induction l as [|y l IH]; [done|]. apply IH. Qed.

Lemma lookup_total_snoc (l : list Run) x : (l ++ [x]) !!! length l = x.
Proof. by rewrite list_lookup_total_middle. Qed.

(** X18. A run of one uploaded spec, from the request to the live child, in
    index.js, on a disk where runs is a directory without an entry for
    the new id: after POST /start, the call of [runCypress] and its
    continuation with a child that spawns, the process goes on; the run is
    [running]; its invocation is live with the command that names the work
    directory as project, the two artifact folders, the results file, the
    base URL when one was given, and the generated configuration file; the
    three artifact directories are there and empty, so that the artifact
    queries answer nothing yet. *)
Theorem Basic_spec_run_starts req res s f :
  pending s = [] ->
  file req = Some f ->
  Js.isSpecName (originalname f) = true ->
  vacant (newRunId req) (disk s) = true ->
  exists s',
    Basic.after [Basic.PostStart req res; Basic.Call;
                 Basic.Resume (length (tasks s)) Spawned] s
    = Basic.Continue s' /\
    heap s' = heap s ++ [with_status running (newRun req f)] /\
    runs s' = Assoc.set (newRunId req) (length (heap s)) (runs s) /\
    tasks s' = tasks s ++ [{| t_runId := newRunId req; t_run := length (heap s);
                              t_cmd := spec_command req; t_phase := Live |}] /\
    pending s' = [] /\
    (exists d', uploaded (newRunId req) (originalname f) (buffer f)
                  Basic.cypressConfigContent (disk s) d' /\
                prepared (newRunId req) d' (disk s')) /\
    Basic.getRunVideos (newRunId req) s' = Returned [] s' /\
    Basic.getRunScreenshots (newRunId req) s' = Returned [] s' /\
    Basic.getRunResults (newRunId req) s' = Returned None s'.
Proof.
  intros Hp Hf Hs Hv.
  destruct (Basic_start_spec req res s f Hf Hs Hv) as (d5 & Hstart & Hup).
  cbn [Basic.after]. unfold Basic.step at 1. rewrite Hp, Hstart. cbn [Basic.rejected].
  unfold Basic.step at 1. cbn [pending accepted].
  set (s1 := on_pending (fun _ => []) (accepted req f res d5 s)).
  assert (Hrun : exists es, Fs.lookup ["runs"; newRunId req] (Some d5) = Some (Fs.Dir es)).
  { apply (lookup_below ["runs"; newRunId req] ["work"; "cypress.config.cjs"] _
             (Fs.File Basic.cypressConfigContent)); [done|]. apply Hup. }
  destruct Hrun as [es Hrun].
  destruct (Basic_runCypress_new (newRunId req) (length (heap s)) s1 es) as (d8 & Hcall & Hprep).
  { simpl. apply get_set_eq. }
  { unfold names. simpl. rewrite length_app, lookup_total_snoc. simpl. split; [lia | done]. }
  { exact Hrun. }
  { apply Hup. done. }
  { apply Hup. done. }
  rewrite Hcall. cbn [Basic.uncaught].
  assert (Hcfg : findConfigFile ["runs"; newRunId req; "work"] d8
                 = Some (Fs.show ["runs"; newRunId req; "work"; "cypress.config.cjs"])).
  { rewrite (findConfigFile_ext _ d5 d8); [by eapply uploaded_config|].
    intros c _. apply Hprep.
    - apply (neq_diverge ["runs"; newRunId req] "cypress" "work" [] [c]). done.
    - apply (neq_diverge ["runs"; newRunId req] "results" "work" [] [c]). done. }
  subst s1. unfold Basic.step. cbn [pending entered on_pending accepted tasks heap].
  rewrite lookup_snoc. cbn [t_phase].
  unfold Basic.runCypress_resumed. act.
  cbn [heap tasks disk entered accepted on_pending t_run t_cmd on_tasks].
  rewrite alter_snoc, !lookup_total_snoc.
  cbn [paths with_status newRun workPath baseUrl]. rewrite Hcfg.
  cbn [Basic.uncaught].
  eexists. split; [reflexivity|].
  cbn [heap runs tasks pending disk on_tasks entered accepted on_pending].
  rewrite !alter_snoc. cbn [with_cmd with_phase t_runId t_run t_cmd t_phase].
  split; [reflexivity|]. split; [reflexivity|]. split; [reflexivity|]. split; [reflexivity|].
  split; [exists d5; split; [exact Hup | exact Hprep]|].
  match goal with |- Basic.getRunVideos _ ?s' = _ /\ _ => set (s2 := s') end.
  apply (queries_empty (newRunId req) (length (heap s)) d5 s2).
  - unfold s2. simpl. apply get_set_eq.
  - unfold s2. cbn [heap on_tasks entered accepted on_pending].
    by rewrite alter_snoc, lookup_total_snoc.
  - exact Hprep.
Qed.

Lemma Basic_spec_run_starts_witness :
  exists s',
    Basic.after [Basic.PostStart start_A 0%nat; Basic.Call;
                 Basic.Resume (length (tasks (boot disk0))) Spawned] (boot disk0)
    = Basic.Continue s' /\
    heap s' = heap (boot disk0) ++ [with_status running (newRun start_A upload_spec)] /\
    runs s' = Assoc.set (newRunId start_A) (length (heap (boot disk0))) (runs (boot disk0)) /\
    tasks s' = tasks (boot disk0)
               ++ [{| t_runId := newRunId start_A; t_run := length (heap (boot disk0));
                      t_cmd := spec_command start_A; t_phase := Live |}] /\
    pending s' = [] /\
    (exists d', uploaded (newRunId start_A) (originalname upload_spec) (buffer upload_spec)
                  Basic.cypressConfigContent (disk (boot disk0)) d' /\
                prepared (newRunId start_A) d' (disk s')) /\
    Basic.getRunVideos (newRunId start_A) s' = Returned [] s' /\
    Basic.getRunScreenshots (newRunId start_A) s' = Returned [] s' /\
    Basic.getRunResults (newRunId start_A) s' = Returned None s'.
Proof. apply (Basic_spec_run_starts start_A 0%nat (boot disk0) upload_spec); reflexivity. Defined.

(** ** POST /start: who answers *)

Lemma sent_reply res c s : sent res (reply res c s) = sent res s ++ [c].
Proof. unfold sent, reply. simpl. by rewrite lookup_insert_eq. Qed.

Lemma sent_reply_ne res other c s : other ≠ res -> sent other (reply res c s) = sent other s.
Proof. intros H. unfold sent, reply. simpl. by rewrite lookup_insert_ne. Qed.

Lemma disk_only_fs op e : disk_only (fs op e).
Proof.
  intros s. unfold fs. destruct (op (disk s)) as [d|]; [by exists d|].
  exists (disk s). by destruct s.
Qed.

Lemma disk_only_ret {A} (a : A) : disk_only (mret a).
Proof. intros s. exists (disk s). by destruct s. Qed.

Lemma disk_only_throw {A} e : disk_only (throw (A:=A) e).
Proof. intros s. exists (disk s). by destruct s. Qed.

Lemma disk_only_bind {A B} (m : Act A) (k : A -> Act B) :
  disk_only m -> (forall a, disk_only (k a)) -> disk_only (m ≫= k).
Proof.
  intros Hm Hk s. unfold mbind, Act_bind. specialize (Hm s).
  destruct (m s) as [a s1|e s1]; [|done]. destruct Hm as [d ->].
  specialize (Hk a (on_disk (fun _ => d) s)).
  destruct (k a _) as [b s2|e s2]; destruct Hk as [d' ->]; by exists d'.
Qed.

Lemma disk_only_try_catch {A} (m : Act A) h :
  disk_only m -> (forall e, disk_only (h e)) -> disk_only (try_catch m h).
Proof.
  intros Hm Hh s. unfold try_catch. specialize (Hm s).
  destruct (m s) as [a s1|e s1]; [done|]. destruct Hm as [d ->].
  specialize (Hh e (on_disk (fun _ => d) s)).
  destruct (h e _) as [b s2|e' s2]; destruct Hh as [d' ->]; by exists d'.
Qed.

Lemma disk_only_forEach {A} (l : list A) f :
  (forall x, disk_only (f x)) -> disk_only (forEach l f).
Proof.
  intros Hf. induction l as [|x l IH]; [apply disk_only_ret|].
  apply disk_only_bind; [apply Hf | intros; apply IH].
Qed.

Lemma disk_only_extractAllTo entries target : disk_only (extractAllTo entries target).
Proof. apply disk_only_forEach. intros x. apply disk_only_fs. Qed.

(** What a /start handler does with the upload between the file type
    test and the registration, in the three servers: it touches the disk
    only. *)
Lemma disk_only_unpack f work content :
  disk_only
    (if Js.endsWith (Js.toLowerCase (originalname f)) ".zip"
     then match archive f with
          | Some entries => extractAllTo entries work
          | None => throw "Invalid or unsupported zip format"
          end
     else
       fs (Fs.mkdirSync (work ++ ["cypress"; "e2e"])) "mkdirSync";;
       fs (Fs.writeFileSync ((work ++ ["cypress"; "e2e"]) ++ [originalname f]) (buffer f))
          "writeFileSync";;
       fs (Fs.writeFileSync (work ++ ["cypress.config.cjs"]) content) "writeFileSync").
Proof.
  destruct (Js.endsWith _ _).
  - destruct (archive f); [apply disk_only_extractAllTo | apply disk_only_throw].
  - repeat (apply disk_only_bind; [apply disk_only_fs | intros ?]). apply disk_only_fs.
Qed.

Lemma disk_only_then {A B} (m : Act A) (k : A -> Act B) s (P : Outcome B -> Prop) :
  disk_only m ->
  (forall e d, P (Thrown e (on_disk (fun _ => d) s))) ->
  (forall a d, P (k a (on_disk (fun _ => d) s))) ->
  P ((m ≫= k) s).
Proof.
  intros Hm Ht Hr. unfold mbind, Act_bind. specialize (Hm s).
  destruct (m s) as [a s1|e s1]; destruct Hm as [d ->]; auto.
Qed.

Lemma try_catch_then {A} (body : Act A) handler s (P : Outcome A -> Prop) :
  match body s with
  | Returned a s' => P (Returned a s')
  | Thrown e s' => P (handler e s')
  end ->
  P (try_catch body handler s).
Proof. unfold try_catch. by destruct (body s). Qed.

Lemma answered_refusal req res s c d :
  refusal c -> answered req res s (Returned () (reply res c (on_disk (fun _ => d) s))).
Proof.
  intros Hc. exists c. eexists. split; [reflexivity|].
  split; [exact (sent_reply res c (on_disk (fun _ => d) s))|].
  split; [intros other Hne; exact (sent_reply_ne res other c (on_disk (fun _ => d) s) Hne)|].
  do 3 (split; [done|]). right. done.
Qed.

(** X19. The revision of index.js answers every POST /start, once: whatever
    the request and whatever the disk does, the handler returns having
    written one chunk to the response, the 200 with the run registered and
    queued, or else a refusal (400 without a file or for a wrong file type,
    500 with the message of whatever was thrown) with the registry
    untouched. *)
Theorem Fixed_start_always_answers req res s :
  answered req res s (Fixed.start req res s).
Proof.
  unfold Fixed.start. apply try_catch_then.
  destruct (file req) as [f|] eqn:Hf.
  - set (handler := fun m : string => send res (Json 500 (NotOk (if bool_decide (m = "")
                                         then "Internal server error" else m)))).
    assert (Hthrown : forall e d,
              answered req res s (handler e (on_disk (fun _ => d) s))).
    { intros e d. apply answered_refusal. right. right. eauto. }
    apply (disk_only_then _ _ s
             (fun o => match o with
                       | Returned a s' => answered req res s (Returned a s')
                       | Thrown e s' => answered req res s (handler e s')
                       end)).
    + apply disk_only_try_catch; [|intros; apply disk_only_throw].
      apply disk_only_bind; [apply disk_only_fs | intros; apply disk_only_fs].
    + intros e d. apply Hthrown.
    + intros [] d1. cbv zeta.
      destruct (Js.endsWith (Js.toLowerCase (originalname f)) ".zip"
                || Js.isSpecName (originalname f)).
      * apply (disk_only_then _ _ (on_disk (fun _ => d1) s)
                 (fun o => match o with
                           | Returned a s' => answered req res s (Returned a s')
                           | Thrown e s' => answered req res s (handler e s')
                           end)).
        -- apply disk_only_unpack.
        -- intros e d. apply Hthrown.
        -- intros [] d2. exists (started req). eexists. split; [reflexivity|].
           split; [unfold sent; simpl; by rewrite lookup_insert_eq|].
           split; [intros other Hne; unfold sent; simpl; by rewrite lookup_insert_ne|].
           do 3 (split; [done|]). left. split; [done|]. exists f. done.
      * apply (answered_refusal req res s _ d1). right. left. done.
  - pose proof (answered_refusal req res s (Json 400 (NotOk "No file uploaded")) (disk s))
      as H. replace (on_disk (fun _ => disk s) s) with s in H by by destruct s.
    apply H. by left.
Qed.



(** X20. index-improved.js tests the base URL before it touches the disk: a
    request with a file and a base URL that is not empty and that the URL
    parser does not take for an http or https URL is answered 400, and
    nothing else happens. index.js and its revision do not look at it: for
    a spec they answer as they do without a base URL, and the run that
    index.js registers carries the text as its base URL. *)
Theorem Improved_start_checks_base_url cfg isValidUrl refuses req res s f u :
  file req = Some f ->
  body_baseUrl req = Some u -> u ≠ "" -> isValidUrl u = false ->
  Improved.start cfg isValidUrl refuses req res s
  = Returned () (reply res (Json 400 (NotOk "Invalid baseUrl format. Must be a valid HTTP(S) URL."))
                   s) /\
  (Js.isSpecName (originalname f) = true -> vacant (newRunId req) (disk s) = true ->
   exists d', Basic.start req res s = Returned () (accepted req f res d' s) /\
              baseUrl (newRun req f) = Some u).
Proof.
  intros Hf Hu Hne Hbad. split.
  - unfold Improved.start. act. rewrite Hf, Hu. simpl.
    rewrite bool_decide_eq_false_2 by done. simpl. by rewrite Hbad.
  - intros Hs Hv. destruct (Basic_start_spec req res s f Hf Hs Hv) as (d' & -> & _).
    exists d'. split; [done|]. done.
Qed.

Lemma Improved_start_checks_base_url_witness :
  Improved.start defaults (fun _ => false) (fun _ => false) start_bad_url 0%nat (boot disk0)
  = Returned () (reply 0%nat (Json 400 (NotOk "Invalid baseUrl format. Must be a valid HTTP(S) URL."))
                   (boot disk0)) /\
  exists d', Basic.start start_bad_url 0%nat (boot disk0)
             = Returned () (accepted start_bad_url upload_spec 0%nat d' (boot disk0)) /\
             baseUrl (newRun start_bad_url upload_spec) = Some "example".
Proof.
  destruct (Improved_start_checks_base_url defaults (fun _ => false) (fun _ => false)
              start_bad_url 0%nat (boot disk0) upload_spec "example") as [H1 H2];
    try reflexivity; [done|].
  split; [exact H1|]. apply H2; reflexivity.
Defined.

(** ** The sweep at the end of POST /start in index-improved.js *)

Lemma Improved_start_spec cfg isValidUrl refuses req res s f :
  file req = Some f ->
  url_passes isValidUrl req = true ->
  Js.isSpecName (originalname f) = true ->
  vacant (newRunId req) (disk s) = true ->
  exists d',
    Improved.start cfg isValidUrl refuses req res s
    = Returned () (foldl (evict refuses) (queued_up req f res d' s)
                     (Improved.toDelete cfg (queued_up req f res d' s))) /\
    uploaded (newRunId req) (originalname f) (buffer f) (Improved.cypressConfigContent cfg)
             (disk s) d'.
Proof.
  intros Hf Hu Hs Hv. destruct (spec_not_zip _ Hs) as [_ Hz].
  apply negb_true_iff in Hu.
  destruct (spec_upload_disk (newRunId req) (originalname f) (buffer f)
              (Improved.cypressConfigContent cfg) (disk s) Hv)
    as (d1 & d2 & d3 & d4 & d5 & H1 & H2 & H3 & H4 & H5 & Hup).
  exists d5. split; [|exact Hup].
  unfold Improved.start. unfold try_catch at 1.
  rewrite Hf, Hu.
  unfold mbind at 1, Act_bind at 1, fs at 1. cbn [app]. rewrite H1.
  unfold mbind at 1, Act_bind at 1, fs at 1. cbn [app disk on_disk]. rewrite H2.
  cbv zeta. rewrite Hz, Hs. cbn [orb].
  unfold mbind at 1, Act_bind at 1.
  unfold mbind at 1, Act_bind at 1, fs at 1. cbn [app disk on_disk]. rewrite H3.
  unfold mbind at 1, Act_bind at 1, fs at 1. cbn [app disk on_disk]. rewrite H4.
  unfold fs at 1. cbn [app disk on_disk]. rewrite H5.
  unfold alloc, send, mbind, Act_bind, gets, modify, mret, Act_ret. cbn beta iota.
  rewrite cleanupOldRuns_eq. reflexivity.
Qed.

Lemma ready_spec req s :
  ready req s = true ->
  NoDup (runs s).*1 /\
  Assoc.get (newRunId req) (runs s) = None /\
  forall e, e ∈ runs s ->
    (e.2 < length (heap s))%nat /\ paths (heap s !!! e.2) = pathsOf e.1 /\
    (createdAt (heap s !!! e.2) < now req)%Z.
Proof.
  unfold ready, Assoc.has. intros [[Hnd Hf]%andb_prop Hall]%andb_prop.
  split; [by apply bool_decide_eq_true in Hnd|]. split.
  - by destruct (Assoc.get (newRunId req) (runs s)).
  - intros e He. rewrite forallb_forall in Hall.
    specialize (Hall e (proj1 (list_elem_of_In _ _) He)).
    apply andb_prop in Hall as [[H1 H2]%andb_prop H3].
    apply Nat.ltb_lt in H1. apply bool_decide_eq_true in H2. apply Z.ltb_lt in H3. done.
Qed.

Lemma sort_snoc_newest {A} (cmp : A -> A -> Z) (l : list A) e :
  (forall x, x ∈ l -> (0 < cmp x e)%Z) ->
  exists l', Js.sort cmp (l ++ [e]) = e :: l'.
Proof.
  unfold Js.sort. rewrite foldr_app. simpl. induction l as [|x l IH]; intros H.
  - by exists [].
  - destruct IH as [l' IH]; [intros y Hy; apply H; by apply list_elem_of_further|].
    simpl. rewrite IH. simpl.
    pose proof (H x (list_elem_of_here _ _)) as Hx.
    rewrite (proj2 (Z.leb_gt _ _)) by lia. eauto.
Qed.

Lemma slice_tail {A} (start : Z) (e : A) l :
  (1 <= start)%Z -> exists k, Js.slice start (e :: l) = drop k l.
Proof.
  intros H. unfold Js.slice. rewrite (proj2 (Z.ltb_ge _ _)) by lia.
  destruct (Z.to_nat (Z.min start (Z.of_nat (length (e :: l))))) as [|k] eqn:E.
  - simpl in E. lia.
  - by exists k.
Qed.

Lemma evict_rest refuses s e :
  heap (evict refuses s e) = heap s /\ wire (evict refuses s e) = wire s /\
  pending (evict refuses s e) = pending s /\ tasks (evict refuses s e) = tasks s /\
  clients (evict refuses s e) = clients s /\ timers (evict refuses s e) = timers s.
Proof.
  unfold evict. destruct (refuses _); [done|]. by destruct (Fs.rmSync _ _).
Qed.

Lemma sweep_rest refuses l : forall s,
  heap (foldl (evict refuses) s l) = heap s /\ wire (foldl (evict refuses) s l) = wire s /\
  pending (foldl (evict refuses) s l) = pending s /\
  tasks (foldl (evict refuses) s l) = tasks s /\
  clients (foldl (evict refuses) s l) = clients s /\
  timers (foldl (evict refuses) s l) = timers s.
Proof.
  induction l as [|e l IH]; intros s; [done|]. simpl.
  destruct (IH (evict refuses s e)) as (-> & -> & -> & -> & -> & ->). apply evict_rest.
Qed.

Lemma sweep_keeps refuses k l : forall s,
  k ∉ l.*1 -> Assoc.get k (runs (foldl (evict refuses) s l)) = Assoc.get k (runs s).
Proof.
  induction l as [|e l IH]; intros s Hk; [done|].
  rewrite fmap_cons in Hk. apply not_elem_of_cons in Hk as [Hne Hk]. simpl.
  rewrite IH by done. by apply evict_other.
Qed.

Lemma rmSync_diverge p q d d' :
  Fs.rmSync p d = Some d' -> Fs.diverge p q = true ->
  Fs.lookup q (Some d') = Fs.lookup q (Some d).
Proof.
  unfold Fs.rmSync. destruct (Fs.lookup p (Some d)); [apply apply_at_diverge|].
  by intros [= <-].
Qed.

Lemma sweep_frame refuses q l : forall s,
  (forall e, e ∈ l -> Fs.diverge (directory s e) q = true) ->
  Fs.lookup q (Some (disk (foldl (evict refuses) s l))) = Fs.lookup q (Some (disk s)).
Proof.
  induction l as [|e l IH]; intros s Hl; [done|]. simpl. rewrite IH.
  - pose proof (Hl e (list_elem_of_here _ _)) as He. unfold evict, directory in *.
    destruct (refuses _); [done|].
    destruct (Fs.rmSync _ (disk s)) as [d|] eqn:Hrm; [|done]. simpl.
    by apply (rmSync_diverge _ _ _ _ Hrm).
  - intros e' He'. unfold directory. rewrite evict_heap. apply Hl.
    by apply list_elem_of_further.
Qed.

Lemma newest_not_swept cfg req f res d' s :
  ready req s = true -> (1 <= maxRunsRetention cfg)%Z ->
  let sA := queued_up req f res d' s in
  (newRunId req ∉ (Improved.toDelete cfg sA).*1) /\
  (forall e, e ∈ Improved.toDelete cfg sA -> e ∈ runs s).
Proof.
  intros (Hnd & Hfresh & Hnames)%ready_spec Hmax sA.
  assert (Hkeys : newRunId req ∉ (runs s).*1) by by apply get_None_keys.
  assert (HrunsA : runs sA = runs s ++ [(newRunId req, length (heap s))]).
  { unfold sA. simpl. by apply set_keys_new. }
  assert (HndA : NoDup (runs sA).*1).
  { rewrite HrunsA, fmap_app. apply NoDup_app. split; [done|].
    split; [|apply NoDup_singleton]. intros x Hx ->%list_elem_of_singleton. done. }
  destruct (sort_snoc_newest
              (fun a b : string * nat =>
                 (createdAt (heap sA !!! b.2) - createdAt (heap sA !!! a.2))%Z)
              (runs s) (newRunId req, length (heap s))) as [l' Hsort].
  { intros x Hx. destruct (Hnames x Hx) as (Hlt & _ & Hold). unfold sA. simpl.
    rewrite lookup_total_snoc, lookup_total_app_l by done. simpl. lia. }
  assert (Harr : Improved.runsArray sA = (newRunId req, length (heap s)) :: l').
  { unfold Improved.runsArray. by rewrite HrunsA. }
  assert (Hperm : (newRunId req, length (heap s)) :: l' ≡ₚ runs sA).
  { rewrite <- Harr. apply runsArray_Permutation. }
  assert (Hl' : forall e, e ∈ l' -> e ∈ runs s /\ e.1 ≠ newRunId req).
  { intros e He.
    assert (NoDup ((newRunId req, length (heap s)) :: l').*1) as Hnd'
      by (by rewrite Hperm).
    rewrite fmap_cons in Hnd'. apply NoDup_cons in Hnd' as [Hhead _].
    assert (e.1 ≠ newRunId req) as Hne.
    { intros Heq. apply Hhead. rewrite <- Heq. apply list_elem_of_fmap.
      exists e. split; [done | done]. }
    split; [|done].
    assert (e ∈ runs sA) as HeA by (rewrite <- Hperm; by apply list_elem_of_further).
    rewrite HrunsA in HeA. apply elem_of_app in HeA as [?|HeA]; [done|].
    apply list_elem_of_singleton in HeA as ->. by destruct Hne. }
  assert (Hsub : forall e, e ∈ Improved.toDelete cfg sA -> e ∈ l').
  { intros e. unfold Improved.toDelete. rewrite Harr.
    destruct (_ <? _)%Z; [|by intros ?%elem_of_nil].
    destruct (slice_tail (maxRunsRetention cfg) (newRunId req, length (heap s)) l' Hmax)
      as [k ->].
    intros He. apply list_elem_of_lookup in He as [i Hi]. rewrite lookup_drop in Hi.
    by eapply list_elem_of_lookup_2. }
  split.
  - intros (e & Heq & He)%list_elem_of_fmap. destruct (Hl' e (Hsub e He)) as [_ Hne].
    by destruct Hne.
  - intros e He. by destruct (Hl' e (Hsub e He)).
Qed.

(** X21. POST /start of index-improved.js does not sweep away the run it has
    just accepted: with a retention of one run or more, a registry that
    holds each id once with the directories of that id, and every
    registered run created before the request, the handler returns with
    the new run registered and queued for [runCypress], the 200 on the
    response, and the spec and the generated configuration on the disk,
    whatever the sweep has removed besides. *)
Theorem new_run_survives_its_sweep cfg isValidUrl refuses req res s f :
  file req = Some f ->
  url_passes isValidUrl req = true ->
  Js.isSpecName (originalname f) = true ->
  vacant (newRunId req) (disk s) = true ->
  ready req s = true ->
  (1 <= maxRunsRetention cfg)%Z ->
  exists s',
    Improved.start cfg isValidUrl refuses req res s = Returned () s' /\
    Assoc.get (newRunId req) (runs s') = Some (length (heap s)) /\
    heap s' = heap s ++ [newRun req f] /\
    pending s' = pending s ++ [newRunId req] /\
    sent res s' = sent res s ++ [started req] /\
    Fs.lookup ["runs"; newRunId req; "work"; "cypress"; "e2e"; originalname f]
              (Some (disk s')) = Some (Fs.File (buffer f)) /\
    Fs.lookup ["runs"; newRunId req; "work"; "cypress.config.cjs"] (Some (disk s'))
    = Some (Fs.File (Improved.cypressConfigContent cfg)).
Proof.
  intros Hf Hu Hs Hv Hready Hmax.
  destruct (Improved_start_spec cfg isValidUrl refuses req res s f Hf Hu Hs Hv)
    as (d' & -> & Hup).
  destruct (newest_not_swept cfg req f res d' s Hready Hmax) as [Hnot Hold].
  set (sA := queued_up req f res d' s) in *.
  destruct (sweep_rest refuses (Improved.toDelete cfg sA) sA) as (Hh & Hw & Hp & _).
  apply ready_spec in Hready as (_ & Hfresh & Hnames).
  assert (Hframe : forall q,
            Fs.lookup (["runs"; newRunId req] ++ q)
                      (Some (disk (foldl (evict refuses) sA (Improved.toDelete cfg sA))))
            = Fs.lookup (["runs"; newRunId req] ++ q) (Some d')).
  { intros q. apply (sweep_frame refuses). intros e He.
    destruct (Hnames e (Hold e He)) as (Hlt & Hpaths & _).
    assert (e.1 ≠ newRunId req) as Hne.
    { intros Heq. apply Hnot. rewrite <- Heq. apply list_elem_of_fmap. eauto. }
    unfold directory, sA. simpl.
    rewrite (lookup_total_app_l (heap s) [newRun req f] e.2 Hlt), Hpaths.
    simpl. by rewrite decide_False. }
  eexists. split; [reflexivity|]. split; [|split; [|split; [|split; [|split]]]].
  - rewrite sweep_keeps by done. unfold sA. simpl. apply get_set_eq.
  - by rewrite Hh.
  - by rewrite Hp.
  - unfold sent. rewrite Hw. unfold sA. simpl. by rewrite lookup_insert_eq.
  - etrans; [apply (Hframe ["work"; "cypress"; "e2e"; originalname f]) | apply Hup].
  - etrans; [apply (Hframe ["work"; "cypress.config.cjs"]) | apply Hup].
Qed.

Lemma new_run_survives_its_sweep_witness :
  exists s',
    Improved.start keep_one (fun _ => true) (fun _ => false) start_B 2%nat i_entered
    = Returned () s' /\
    Assoc.get (newRunId start_B) (runs s') = Some (length (heap i_entered)) /\
    heap s' = heap i_entered ++ [newRun start_B upload_spec] /\
    pending s' = pending i_entered ++ [newRunId start_B] /\
    sent 2%nat s' = sent 2%nat i_entered ++ [started start_B] /\
    Fs.lookup ["runs"; newRunId start_B; "work"; "cypress"; "e2e"; originalname upload_spec]
              (Some (disk s')) = Some (Fs.File (buffer upload_spec)) /\
    Fs.lookup ["runs"; newRunId start_B; "work"; "cypress.config.cjs"] (Some (disk s'))
    = Some (Fs.File (Improved.cypressConfigContent keep_one)).
Proof.
  apply (new_run_survives_its_sweep keep_one (fun _ => true) (fun _ => false) start_B 2%nat
           i_entered upload_spec); reflexivity.
Defined.

Lemma get_delete_None {V} k k' (l : list (string * V)) :
  Assoc.get k l = None -> Assoc.get k (Assoc.delete k' l) = None.
Proof.
  intros H. destruct (decide (k' = k)) as [->|Hne]; [apply get_delete_eq|].
  by rewrite get_delete_ne.
Qed.

Lemma evict_never_adds refuses s e k :
  Assoc.get k (runs s) = None -> Assoc.get k (runs (evict refuses s e)) = None.
Proof.
  intros H. unfold evict. destruct (refuses _); [done|].
  destruct (Fs.rmSync _ _); [|done]. simpl. by apply get_delete_None.
Qed.

Lemma sweep_never_adds refuses k l : forall s,
  Assoc.get k (runs s) = None -> Assoc.get k (runs (foldl (evict refuses) s l)) = None.
Proof.
  induction l as [|e l IH]; intros s H; [done|]. simpl. apply IH.
  by apply evict_never_adds.
Qed.

Lemma evict_absent refuses s e q :
  Fs.existsSync q (disk s) = false -> Fs.existsSync q (disk (evict refuses s e)) = false.
Proof.
  intros H. unfold evict. destruct (refuses _); [done|].
  destruct (Fs.rmSync _ _) as [d|] eqn:Hrm; [|done]. simpl.
  by apply (rmSync_absent _ _ _ _ Hrm).
Qed.

Lemma sweep_absent refuses q l : forall s,
  Fs.existsSync q (disk s) = false ->
  Fs.existsSync q (disk (foldl (evict refuses) s l)) = false.
Proof.
  induction l as [|e l IH]; intros s H; [done|]. simpl. apply IH.
  by apply evict_absent.
Qed.

(** An entry the sweep goes after, whose directory the platform lets go,
    is out of the registry and off the disk when the sweep is over. *)
Lemma sweep_takes refuses e l : forall s,
  e ∈ l -> refuses (directory s e) = false -> directory s e ≠ [] ->
  Assoc.get e.1 (runs (foldl (evict refuses) s l)) = None /\
  Fs.existsSync (directory s e) (disk (foldl (evict refuses) s l)) = false.
Proof.
  induction l as [|e0 l IH]; intros s He Hr Hp; [by apply elem_of_nil in He|].
  simpl. apply elem_of_cons in He as [<-|He].
  - assert (Assoc.get e.1 (runs (evict refuses s e)) = None /\
            Fs.existsSync (directory s e) (disk (evict refuses s e)) = false) as [H1 H2].
    { unfold evict, directory in *. rewrite Hr.
      destruct (rmSync_defined _ (disk s) Hp) as [d Hd]. rewrite Hd. simpl.
      split; [apply get_delete_eq | by apply (rmSync_gone _ _ _ Hd)]. }
    split; [by apply sweep_never_adds | by apply sweep_absent].
  - assert (directory (evict refuses s e0) e = directory s e) as Hdir
      by (unfold directory; by rewrite evict_heap).
    rewrite <- Hdir. apply IH; [done | by rewrite Hdir | by rewrite Hdir].
Qed.

(** X22. With a retention of zero, POST /start of index-improved.js sweeps
    away the run it has just accepted, the platform letting its directory
    go: the client has its 200 with the id, and when the handler returns
    the id is not in the registry, the run directory is not on the disk,
    and the queued [runCypress] for the id finds nothing and does nothing,
    so that the run never starts. *)
Theorem retention_zero_drops_the_new_run cfg isValidUrl refuses req res s f :
  file req = Some f ->
  url_passes isValidUrl req = true ->
  Js.isSpecName (originalname f) = true ->
  vacant (newRunId req) (disk s) = true ->
  maxRunsRetention cfg = 0%Z ->
  refuses ["runs"; newRunId req] = false ->
  exists s',
    Improved.start cfg isValidUrl refuses req res s = Returned () s' /\
    sent res s' = sent res s ++ [started req] /\
    pending s' = pending s ++ [newRunId req] /\
    Assoc.get (newRunId req) (runs s') = None /\
    Fs.existsSync ["runs"; newRunId req] (disk s') = false /\
    Improved.runCypress cfg (newRunId req) s' = Returned () s'.
Proof.
  intros Hf Hu Hs Hv Hmax Hr.
  destruct (Improved_start_spec cfg isValidUrl refuses req res s f Hf Hu Hs Hv)
    as (d' & -> & Hup).
  set (sA := queued_up req f res d' s).
  set (e := (newRunId req, length (heap s))).
  destruct (sweep_rest refuses (Improved.toDelete cfg sA) sA) as (Hh & Hw & Hp & _).
  assert (Hin : e ∈ Improved.toDelete cfg sA).
  { assert (e ∈ Improved.runsArray sA) as Harr.
    { rewrite runsArray_Permutation. apply get_elem. unfold sA. simpl. apply get_set_eq. }
    unfold Improved.toDelete. rewrite Hmax.
    destruct (Improved.runsArray sA) as [|x l] eqn:E; [by apply elem_of_nil in Harr|].
    replace (0 <? Z.of_nat (length (x :: l)))%Z with true
      by (symmetry; apply Z.ltb_lt; simpl; lia).
    done. }
  assert (Hdir : directory sA e = ["runs"; newRunId req]).
  { unfold directory, sA, e. simpl. by rewrite lookup_total_snoc. }
  destruct (sweep_takes refuses e (Improved.toDelete cfg sA) sA Hin) as [Hgone Hoff].
  { by rewrite Hdir. }
  { by rewrite Hdir. }
  rewrite Hdir in Hoff. simpl in Hgone.
  eexists. split; [reflexivity|]. split; [|split; [|split; [|split]]].
  - unfold sent. rewrite Hw. unfold sA. simpl. by rewrite lookup_insert_eq.
  - by rewrite Hp.
  - exact Hgone.
  - exact Hoff.
  - unfold Improved.runCypress. rewrite bind_gets. by rewrite Hgone.
Qed.

Lemma retention_zero_drops_the_new_run_witness :
  exists s',
    Improved.start keep_none (fun _ => true) (fun _ => false) start_A 0%nat (boot disk0)
    = Returned () s' /\
    sent 0%nat s' = sent 0%nat (boot disk0) ++ [started start_A] /\
    pending s' = pending (boot disk0) ++ [newRunId start_A] /\
    Assoc.get (newRunId start_A) (runs s') = None /\
    Fs.existsSync ["runs"; newRunId start_A] (disk s') = false /\
    Improved.runCypress keep_none (newRunId start_A) s' = Returned () s'.
Proof.
  apply (retention_zero_drops_the_new_run keep_none (fun _ => true) (fun _ => false)
           start_A 0%nat (boot disk0) upload_spec); reflexivity.
Defined.

(** X23. While the registry holds no more runs than the retention allows,
    the sweep of index-improved.js removes nothing and changes nothing. *)
Theorem sweep_within_bound cfg refuses s :
  (Z.of_nat (length (runs s)) <= maxRunsRetention cfg)%Z ->
  Improved.cleanupOldRuns cfg refuses s = Returned () s.
Proof.
  intros H. rewrite cleanupOldRuns_eq. unfold Improved.toDelete.
  rewrite (Permutation_length (runsArray_Permutation s)).
  by rewrite (proj2 (Z.ltb_ge _ _)) by done.
Qed.

Lemma sweep_within_bound_witness :
  Improved.cleanupOldRuns keep_one (fun _ => false) i_entered = Returned () i_entered.
Proof. apply (sweep_within_bound keep_one (fun _ => false) i_entered). simpl. lia. Defined.

(** ** The URLs of the artifacts *)

Lemma url_show baseUrl p : url baseUrl p = baseUrl +:+ Fs.show p.
Proof.
  unfold url. revert baseUrl. induction p as [|a p IH]; intros baseUrl.
  - simpl. by rewrite append_empty_r.
  - cbn [foldl]. rewrite IH. unfold Js.slash, Fs.show. cbn [foldr].
    by rewrite !append_assoc.
Qed.

Lemma mount_show mount runId kind :
  mount +:+ "/" +:+ runId +:+ "/cypress/" +:+ kind
  = mount +:+ Fs.show [runId; "cypress"; kind].
Proof.
  unfold Fs.show. cbn [foldr]. do 3 f_equal.
  change "/cypress/" with ("/" +:+ "cypress" +:+ "/"). rewrite !append_assoc.
  by rewrite append_empty_r.
Qed.

Lemma videos_base runId :
  "/videos/" +:+ runId +:+ "/cypress/videos"
  = "/videos" +:+ Fs.show [runId; "cypress"; "videos"].
Proof.
  change "/videos/" with ("/videos" +:+ "/").
  change "/cypress/videos" with ("/cypress/" +:+ "videos").
  rewrite append_assoc. apply mount_show.
Qed.

Lemma screenshots_base runId :
  "/screenshots/" +:+ runId +:+ "/cypress/screenshots"
  = "/screenshots" +:+ Fs.show [runId; "cypress"; "screenshots"].
Proof.
  change "/screenshots/" with ("/screenshots" +:+ "/").
  change "/cypress/screenshots" with ("/cypress/" +:+ "screenshots").
  rewrite append_assoc. apply mount_show.
Qed.

Lemma results_url runId :
  "/results/" +:+ runId +:+ "/results/results.json"
  = "/results" +:+ Fs.show [runId; "results"; "results.json"].
Proof.
  change "/results/" with ("/results" +:+ "/").
  change "/results/results.json" with ("/" +:+ "results" +:+ "/" +:+ "results.json").
  rewrite append_assoc. unfold Fs.show. cbn [foldr]. by rewrite append_empty_r.
Qed.

Lemma walk_urls keep n mount runId kind u :
  tidy n = true ->
  u ∈ walkDir keep n (mount +:+ Fs.show [runId; "cypress"; kind]) ->
  exists q c,
    u = mount +:+ Fs.show ([runId; "cypress"; kind] ++ q) /\
    Fs.lookup q (Some n) = Some (Fs.File c).
Proof.
  intros Ht (p & name & c & -> & Hl & _)%walkDir_sound; [|done].
  exists (p ++ [name]), c. split; [|done].
  rewrite url_show. rewrite (show_app [runId; "cypress"; kind]).
  by rewrite append_assoc.
Qed.

(** X24. The artifacts are served from the runs directory under the mounts
    /videos, /screenshots and /results. For a registered run whose object
    carries the directories of its id, as every object index.js registers
    does, on a disk where no directory holds a name twice: every URL that
    an artifact query lists is its mount followed by the path, below the
    runs directory, of a file that is there (for the results: of something
    that is there). *)
Theorem Basic_listed_urls_address_files s runId r :
  Assoc.get runId (runs s) = Some r ->
  paths (heap s !!! r) = pathsOf runId ->
  tidy (disk s) = true ->
  (forall l u, Basic.getRunVideos runId s = Returned l s -> u ∈ l ->
     exists q c, u = "/videos" +:+ Fs.show q /\
                 Fs.lookup ("runs" :: q) (Some (disk s)) = Some (Fs.File c)) /\
  (forall l u, Basic.getRunScreenshots runId s = Returned l s -> u ∈ l ->
     exists q c, u = "/screenshots" +:+ Fs.show q /\
                 Fs.lookup ("runs" :: q) (Some (disk s)) = Some (Fs.File c)) /\
  (forall u, Basic.getRunResults runId s = Returned (Some u) s ->
     exists q, u = "/results" +:+ Fs.show q /\
               Fs.existsSync ("runs" :: q) (disk s) = true).
Proof.
  intros Hget Hpaths Ht.
  unfold Basic.getRunVideos, Basic.getRunScreenshots, Basic.getRunResults.
  act. rewrite Hget. cbn beta iota. rewrite Hpaths. cbn [runPath pathsOf app].
  split; [|split].
  - intros l u. destruct (Fs.lookup _ _) as [[c|es]|] eqn:E; [done| |].
    + intros [= <-] Hu. rewrite videos_base in Hu.
      apply (walk_urls Js.matches_mp4 (Fs.Dir es)) in Hu as (q & c & -> & Hl);
        [|by eapply tidy_lookup].
      exists ([runId; "cypress"; "videos"] ++ q), c. split; [done|].
      change ("runs" :: [runId; "cypress"; "videos"] ++ q)
        with (["runs"; runId; "cypress"; "videos"] ++ q).
      by rewrite lookup_app, E.
    + intros [= <-] Hu. by apply elem_of_nil in Hu.
  - intros l u. destruct (Fs.lookup _ _) as [[c|es]|] eqn:E; [done| |].
    + intros [= <-] Hu. rewrite screenshots_base in Hu.
      apply (walk_urls Js.matches_image (Fs.Dir es)) in Hu as (q & c & -> & Hl);
        [|by eapply tidy_lookup].
      exists ([runId; "cypress"; "screenshots"] ++ q), c. split; [done|].
      change ("runs" :: [runId; "cypress"; "screenshots"] ++ q)
        with (["runs"; runId; "cypress"; "screenshots"] ++ q).
      by rewrite lookup_app, E.
    + intros [= <-] Hu. by apply elem_of_nil in Hu.
  - intros u. destruct (Fs.existsSync _ _) eqn:E; [|done].
    intros [= <-]. exists [runId; "results"; "results.json"]. split; [apply results_url | done].
Qed.

Lemma Basic_listed_urls_address_files_witness :
  (forall l u, Basic.getRunVideos id_A s_recorded = Returned l s_recorded -> u ∈ l ->
     exists q c, u = "/videos" +:+ Fs.show q /\
                 Fs.lookup ("runs" :: q) (Some (disk s_recorded)) = Some (Fs.File c)) /\
  (forall l u, Basic.getRunScreenshots id_A s_recorded = Returned l s_recorded -> u ∈ l ->
     exists q c, u = "/screenshots" +:+ Fs.show q /\
                 Fs.lookup ("runs" :: q) (Some (disk s_recorded)) = Some (Fs.File c)) /\
  (forall u, Basic.getRunResults id_A s_recorded = Returned (Some u) s_recorded ->
     exists q, u = "/results" +:+ Fs.show q /\
               Fs.existsSync ("runs" :: q) (disk s_recorded) = true).
Proof. apply (Basic_listed_urls_address_files s_recorded id_A 0%nat); reflexivity. Defined.

(** ** Copying the artifacts out of the work directory *)

Lemma merge_Dir es o :
  Fs.merge (Fs.Dir es) o
  = match o with
    | Some (Fs.File _) => None
    | Some (Fs.Dir ds) => Fs.Dir <$> merge_into es ds
    | None => Fs.Dir <$> merge_into es []
    end.
Proof. reflexivity. Qed.

Lemma merge_into_cons name c rest ds :
  merge_into ((name, c) :: rest) ds
  = c' ← Fs.merge c (Assoc.get name ds); merge_into rest (Assoc.set name c' ds).
Proof. reflexivity. Qed.

Lemma merge_into_other a es : forall ds rs,
  a ∉ es.*1 -> merge_into es ds = Some rs -> Assoc.get a rs = Assoc.get a ds.
Proof.
  induction es as [|[b c] es IH]; intros ds rs Ha H.
  - by injection H as <-.
  - rewrite fmap_cons in Ha. apply not_elem_of_cons in Ha as [Hne Ha].
    rewrite merge_into_cons in H.
    destruct (Fs.merge c (Assoc.get b ds)) as [c'|]; [|done]. simpl in H.
    rewrite (IH _ _ Ha H). apply get_set_ne. by intros ->.
Qed.

Lemma merge_into_get a n es : forall ds rs,
  NoDup es.*1 -> merge_into es ds = Some rs -> Assoc.get a es = Some n ->
  exists o r, Fs.merge n o = Some r /\ Assoc.get a rs = Some r.
Proof.
  induction es as [|[b c] es IH]; intros ds rs Hnd H Hget; [done|].
  rewrite fmap_cons in Hnd. apply NoDup_cons in Hnd as [Hb Hnd].
  rewrite merge_into_cons in H.
  destruct (Fs.merge c (Assoc.get b ds)) as [c'|] eqn:Hm; [|done]. simpl in H, Hget.
  destruct (decide (b = a)) as [->|Hne].
  - injection Hget as ->. exists (Assoc.get a ds), c'. split; [done|].
    rewrite (merge_into_other a es _ _ Hb H). apply get_set_eq.
  - eapply IH; eauto.
Qed.

(** A copy holds every file of its source. *)
Lemma merge_keeps_source : forall s,
  tidy s = true -> forall o r, Fs.merge s o = Some r ->
  forall q c, Fs.lookup q (Some s) = Some (Fs.File c) ->
              Fs.lookup q (Some r) = Some (Fs.File c).
Proof.
  apply (node_rect' (fun s => tidy s = true -> forall o r, Fs.merge s o = Some r ->
    forall q c, Fs.lookup q (Some s) = Some (Fs.File c) ->
                Fs.lookup q (Some r) = Some (Fs.File c))).
  - intros c0 _ o r Hm q c Hl. destruct q as [|a q]; [|by rewrite lookup_file in Hl].
    simpl in Hl. injection Hl as ->. simpl in Hm.
    destruct o as [[?|?]|]; [|done|]; by injection Hm as <-.
  - intros es IH Ht o r Hm q c Hl. apply tidy_dir in Ht as [Hnd Ht].
    destruct q as [|a q]; [done|].
    change (Fs.lookup q (Assoc.get a es) = Some (Fs.File c)) in Hl.
    destruct (Assoc.get a es) as [n|] eqn:Hget; [|by rewrite lookup_None in Hl].
    rewrite merge_Dir in Hm.
    assert (exists rs, r = Fs.Dir rs /\ exists ds, merge_into es ds = Some rs)
      as (rs & -> & ds & Hinto).
    { destruct o as [[?|ds]|]; [done| |].
      - destruct (merge_into es ds) as [rs|] eqn:E; [|done]. injection Hm as <-. eauto.
      - destruct (merge_into es []) as [rs|] eqn:E; [|done]. injection Hm as <-. eauto. }
    destruct (merge_into_get a n es ds rs Hnd Hinto Hget) as (o' & r' & Hm' & Hget').
    change (Fs.lookup q (Assoc.get a rs) = Some (Fs.File c)). rewrite Hget'.
    pose proof (get_elem _ _ _ Hget) as Hin.
    rewrite Forall_forall in IH. apply (IH _ Hin (Ht _ _ Hin) o' r' Hm' q c Hl).
Qed.

Lemma cpSync_copies src dst d d' s :
  Fs.lookup src (Some d) = Some s -> tidy s = true ->
  Fs.cpSync src dst d = Some d' ->
  forall q c, Fs.lookup q (Some s) = Some (Fs.File c) ->
              Fs.lookup (dst ++ q) (Some d') = Some (Fs.File c).
Proof.
  intros Hs Ht Hcp q c Hl. unfold Fs.cpSync in Hcp. rewrite Hs in Hcp.
  apply apply_at_same in Hcp.
  destruct (Fs.merge s (Fs.lookup dst (Some d))) as [r|] eqn:Hm; [|done].
  simpl in Hcp. injection Hcp as Hr. rewrite lookup_app, <- Hr.
  by apply (merge_keeps_source s Ht _ _ Hm).
Qed.

Lemma close_disk_collects runId run text d d' :
  paths run = pathsOf runId ->
  tidy d = true ->
  close_disk run text d = Some d' ->
  (forall q c,
     Fs.lookup (["runs"; runId; "work"; "cypress"; "videos"] ++ q) (Some d)
     = Some (Fs.File c) ->
     Fs.lookup (["runs"; runId; "cypress"; "videos"] ++ q) (Some d') = Some (Fs.File c)) /\
  (forall q c,
     Fs.lookup (["runs"; runId; "work"; "cypress"; "screenshots"] ++ q) (Some d)
     = Some (Fs.File c) ->
     Fs.lookup (["runs"; runId; "cypress"; "screenshots"] ++ q) (Some d')
     = Some (Fs.File c)).
Proof.
  intros Hpaths Ht Hc. unfold close_disk in Hc. rewrite Hpaths in Hc.
  cbn [runPath workPath pathsOf app] in Hc.
  destruct (Fs.writeFileSync ["runs"; runId; "exit-code.txt"] text d) as [d0|] eqn:H0;
    [|done].
  cbn [mbind option_bind] in Hc.
  assert (F0 : forall q, Fs.lookup (["runs"; runId; "work"] ++ q) (Some d0)
                         = Fs.lookup (["runs"; runId; "work"] ++ q) (Some d)).
  { intros q. apply (writeFileSync_diverge _ _ _ _ _ H0).
    apply (neq_diverge ["runs"; runId] "exit-code.txt" "work" [] q). done. }
  set (wv := ["runs"; runId; "work"; "cypress"; "videos"]) in *.
  set (ws := ["runs"; runId; "work"; "cypress"; "screenshots"]) in *.
  set (tv := ["runs"; runId; "cypress"; "videos"]) in *.
  set (ts := ["runs"; runId; "cypress"; "screenshots"]) in *.
  destruct (if Fs.existsSync wv d0 then Fs.cpSync wv tv d0 else Some d0) as [d1|] eqn:H1;
    [|done].
  cbn [mbind option_bind] in Hc.
  assert (F1 : forall q, Fs.lookup (ws ++ q) (Some d1) = Fs.lookup (ws ++ q) (Some d)).
  { intros q. etrans; [|apply (F0 (["cypress"; "screenshots"] ++ q))].
    destruct (Fs.existsSync wv d0); [|by injection H1 as <-].
    apply (cpSync_diverge _ _ _ _ _ H1).
    apply (neq_diverge ["runs"; runId] "cypress" "work" ["videos"]). done. }
  split.
  - intros q c Hl.
    assert (Hl0 : Fs.lookup (wv ++ q) (Some d0) = Some (Fs.File c)).
    { etrans; [apply (F0 (["cypress"; "videos"] ++ q)) | exact Hl]. }
    assert (Fs.lookup (tv ++ q) (Some d1) = Some (Fs.File c)) as L1.
    { rewrite lookup_app in Hl0.
      destruct (Fs.lookup wv (Some d0)) as [sv|] eqn:Hsv; [|by rewrite lookup_None in Hl0].
      unfold Fs.existsSync in H1. rewrite Hsv in H1.
      apply (cpSync_copies wv tv d0 d1 sv Hsv); [|done|done].
      apply (tidy_lookup wv d sv Ht). rewrite <- Hsv. symmetry.
      apply (F0 ["cypress"; "videos"]). }
    destruct (Fs.existsSync ws d1); [|by injection Hc as <-].
    etrans; [|exact L1]. apply (cpSync_diverge _ _ _ _ _ Hc).
    apply (neq_diverge ["runs"; runId; "cypress"] "screenshots" "videos" [] q). done.
  - intros q c Hl.
    assert (Hl1 : Fs.lookup (ws ++ q) (Some d1) = Some (Fs.File c)).
    { etrans; [apply F1 | exact Hl]. }
    rewrite lookup_app in Hl1.
    destruct (Fs.lookup ws (Some d1)) as [ss|] eqn:Hss; [|by rewrite lookup_None in Hl1].
    unfold Fs.existsSync in Hc. rewrite Hss in Hc.
    apply (cpSync_copies ws ts d1 d' ss Hss); [|done|done].
    apply (tidy_lookup ws d ss Ht). rewrite <- Hss. symmetry.
    pose proof (F1 []) as Hw. by rewrite !app_nil_r in Hw.
Qed.

Lemma Basic_getRunVideos_lists runId r s p name c :
  Assoc.get runId (runs s) = Some r ->
  paths (heap s !!! r) = pathsOf runId ->
  Fs.lookup (["runs"; runId; "cypress"; "videos"] ++ p ++ [name]) (Some (disk s))
  = Some (Fs.File c) ->
  Js.matches_mp4 name = true ->
  exists l, Basic.getRunVideos runId s = Returned l s /\
            url ("/videos/" +:+ runId +:+ "/cypress/videos") (p ++ [name]) ∈ l.
Proof.
  intros Hget Hpaths Hl Hk. unfold Basic.getRunVideos. act. rewrite Hget. cbn beta iota.
  rewrite Hpaths. cbn [runPath pathsOf app].
  rewrite lookup_app in Hl. cbn [app] in Hl.
  destruct (Fs.lookup ["runs"; runId; "cypress"; "videos"] (Some (disk s)))
    as [[c0|es]|] eqn:E.
  - rewrite lookup_file in Hl; [done | by destruct p].
  - eexists. split; [reflexivity|]. by apply (walkDir_complete _ p _ _ name c).
  - by rewrite lookup_None in Hl.
Qed.

Lemma Basic_getRunScreenshots_lists runId r s p name c :
  Assoc.get runId (runs s) = Some r ->
  paths (heap s !!! r) = pathsOf runId ->
  Fs.lookup (["runs"; runId; "cypress"; "screenshots"] ++ p ++ [name]) (Some (disk s))
  = Some (Fs.File c) ->
  Js.matches_image name = true ->
  exists l, Basic.getRunScreenshots runId s = Returned l s /\
            url ("/screenshots/" +:+ runId +:+ "/cypress/screenshots") (p ++ [name]) ∈ l.
Proof.
  intros Hget Hpaths Hl Hk. unfold Basic.getRunScreenshots. act. rewrite Hget.
  cbn beta iota. rewrite Hpaths. cbn [runPath pathsOf app].
  rewrite lookup_app in Hl. cbn [app] in Hl.
  destruct (Fs.lookup ["runs"; runId; "cypress"; "screenshots"] (Some (disk s)))
    as [[c0|es]|] eqn:E.
  - rewrite lookup_file in Hl; [done | by destruct p].
  - eexists. split; [reflexivity|]. by apply (walkDir_complete _ p _ _ name c).
  - by rewrite lookup_None in Hl.
Qed.

(** X25. What cypress has left in the work directory is collected when the
    run ends. When the 'close' listener of index.js runs for a registered
    run on exit code [c], the copies finding nothing in their way, on a
    disk where no directory holds a name twice: every file below
    work/cypress/videos is afterwards at the same path below
    cypress/videos of the run directory, with its content, and
    [getRunVideos] lists it if its name ends in .mp4; and the same for the
    screenshots and the image names. *)
Theorem Basic_close_collects_artifacts t task c s d' :
  (t_run task < length (heap s))%nat ->
  Assoc.get (t_runId task) (runs s) = Some (t_run task) ->
  paths (heap s !!! t_run task) = pathsOf (t_runId task) ->
  tidy (disk s) = true ->
  close_disk (heap s !!! t_run task) (Js.toString c) (disk s) = Some d' ->
  exists s',
    Basic.on_close t task (Some c) s = Returned () s' /\
    disk s' = d' /\
    (forall p name content,
       Fs.lookup (["runs"; t_runId task; "work"; "cypress"; "videos"] ++ p ++ [name])
                 (Some (disk s)) = Some (Fs.File content) ->
       Fs.lookup (["runs"; t_runId task; "cypress"; "videos"] ++ p ++ [name])
                 (Some (disk s')) = Some (Fs.File content) /\
       (Js.matches_mp4 name = true ->
        exists l, Basic.getRunVideos (t_runId task) s' = Returned l s' /\
                  url ("/videos/" +:+ t_runId task +:+ "/cypress/videos") (p ++ [name]) ∈ l))
    /\
    (forall p name content,
       Fs.lookup (["runs"; t_runId task; "work"; "cypress"; "screenshots"] ++ p ++ [name])
                 (Some (disk s)) = Some (Fs.File content) ->
       Fs.lookup (["runs"; t_runId task; "cypress"; "screenshots"] ++ p ++ [name])
                 (Some (disk s')) = Some (Fs.File content) /\
       (Js.matches_image name = true ->
        exists l, Basic.getRunScreenshots (t_runId task) s' = Returned l s' /\
                  url ("/screenshots/" +:+ t_runId task +:+ "/cypress/screenshots")
                      (p ++ [name]) ∈ l)).
Proof.
  intros Hlt Hget Hpaths Ht Hc.
  destruct (close_disk_collects (t_runId task) _ _ _ _ Hpaths Ht Hc) as [Hv Hs].
  rewrite (Basic_on_close_eq t task c s d' Hlt Hc).
  eexists. split; [reflexivity|]. split; [reflexivity|].
  match goal with |- context [Basic.getRunVideos _ ?s'] => set (s1 := s') end.
  assert (Hget1 : Assoc.get (t_runId task) (runs s1) = Some (t_run task)) by done.
  assert (Hpaths1 : paths (heap s1 !!! t_run task) = pathsOf (t_runId task)).
  { unfold s1. cbn [heap]. by rewrite alter_status_paths. }
  split.
  - intros p name content Hl. pose proof (Hv (p ++ [name]) content Hl) as Hl'.
    split; [exact Hl'|]. intros Hk.
    by apply (Basic_getRunVideos_lists _ (t_run task) s1 p name content).
  - intros p name content Hl. pose proof (Hs (p ++ [name]) content Hl) as Hl'.
    split; [exact Hl'|]. intros Hk.
    by apply (Basic_getRunScreenshots_lists _ (t_run task) s1 p name content).
Qed.

Lemma Basic_close_collects_artifacts_witness :
  exists s',
    Basic.on_close 0%nat task_A (Some 1%Z) s_in_work = Returned () s' /\
    disk s' = d_collected /\
    (forall p name content,
       Fs.lookup (["runs"; t_runId task_A; "work"; "cypress"; "videos"] ++ p ++ [name])
                 (Some (disk s_in_work)) = Some (Fs.File content) ->
       Fs.lookup (["runs"; t_runId task_A; "cypress"; "videos"] ++ p ++ [name])
                 (Some (disk s')) = Some (Fs.File content) /\
       (Js.matches_mp4 name = true ->
        exists l, Basic.getRunVideos (t_runId task_A) s' = Returned l s' /\
                  url ("/videos/" +:+ t_runId task_A +:+ "/cypress/videos") (p ++ [name]) ∈ l))
    /\
    (forall p name content,
       Fs.lookup (["runs"; t_runId task_A; "work"; "cypress"; "screenshots"] ++ p ++ [name])
                 (Some (disk s_in_work)) = Some (Fs.File content) ->
       Fs.lookup (["runs"; t_runId task_A; "cypress"; "screenshots"] ++ p ++ [name])
                 (Some (disk s')) = Some (Fs.File content) /\
       (Js.matches_image name = true ->
        exists l, Basic.getRunScreenshots (t_runId task_A) s' = Returned l s' /\
                  url ("/screenshots/" +:+ t_runId task_A +:+ "/cypress/screenshots")
                      (p ++ [name]) ∈ l)).
Proof.
  apply (Basic_close_collects_artifacts 0%nat task_A 1%Z s_in_work d_collected);
    try reflexivity.
  vm_compute. lia.
Defined.

(** ** POST /start of index-improved.js: one answer *)

Lemma answered_and_swept_refusal req res s c d :
  (exists m, c = Json 400 (NotOk m) \/ c = Json 500 (NotOk m)) ->
  answered_and_swept req res s (Returned () (reply res c (on_disk (fun _ => d) s))).
Proof.
  intros Hc. exists c. eexists. split; [reflexivity|].
  split; [exact (sent_reply res c (on_disk (fun _ => d) s))|].
  split; [intros other Hne; exact (sent_reply_ne res other c (on_disk (fun _ => d) s) Hne)|].
  do 3 (split; [done|]). right. done.
Qed.

(** X26. index-improved.js answers every POST /start, once, the sweep
    included: whatever the request, the disk and the removals the
    platform refuses, the handler returns having written one chunk to the
    response, the 200 with the run object made and its [runCypress]
    queued, or else a 400 or a 500 with objects, registry and queue
    untouched; the sweep, which runs after the 200 has gone out, never
    throws into the [catch] of the handler, so that no second answer is
    attempted. *)
Theorem Improved_start_always_answers cfg isValidUrl refuses req res s :
  answered_and_swept req res s (Improved.start cfg isValidUrl refuses req res s).
Proof.
  unfold Improved.start. apply try_catch_then.
  set (handler := fun _ : string => send res (Json 500 (NotOk "Failed to start Cypress run"))).
  assert (Hthrown : forall e d,
            answered_and_swept req res s (handler e (on_disk (fun _ => d) s))).
  { intros e d. apply answered_and_swept_refusal. eauto. }
  assert (Hsame : forall c,
            (exists m, c = Json 400 (NotOk m) \/ c = Json 500 (NotOk m)) ->
            answered_and_swept req res s (Returned () (reply res c s))).
  { intros c Hc.
    pose proof (answered_and_swept_refusal req res s c (disk s) Hc) as H.
    by replace (on_disk (fun _ => disk s) s) with s in H by by destruct s. }
  set (P := fun o : Outcome () =>
              match o with
              | Returned a s' => answered_and_swept req res s (Returned a s')
              | Thrown e s' => answered_and_swept req res s (handler e s')
              end).
  destruct (file req) as [f|] eqn:Hf; [|apply Hsame; eauto].
  destruct (truthy (body_baseUrl req) && _); [apply Hsame; eauto|].
  apply (disk_only_then _ _ s P); [apply disk_only_fs | intros e d; apply Hthrown|].
  intros [] d1.
  apply (disk_only_then _ _ (on_disk (fun _ => d1) s) P);
    [apply disk_only_fs | intros e d; apply Hthrown|].
  intros [] d2. cbv zeta.
  destruct (Js.endsWith (Js.toLowerCase (originalname f)) ".zip"
            || Js.isSpecName (originalname f)).
  - apply (disk_only_then _ _ (on_disk (fun _ => d2) (on_disk (fun _ => d1) s)) P).
    + apply disk_only_unpack.
    + intros e d. apply Hthrown.
    + intros [] d3. unfold alloc, send, mbind, Act_bind, gets, modify, mret, Act_ret.
      cbn beta iota. rewrite cleanupOldRuns_eq.
      match goal with |- P (Returned () (foldl _ ?sA ?D)) => 
        destruct (sweep_rest refuses D sA) as (Hh & Hw & Hp & Ht & Hc & Hti)
      end.
      exists (started req). eexists. split; [reflexivity|].
      split; [unfold sent; rewrite Hw; simpl; by rewrite lookup_insert_eq|].
      split; [intros other Hne; unfold sent; rewrite Hw; simpl;
              by rewrite lookup_insert_ne|].
      split; [by rewrite Hc|]. split; [by rewrite Ht|]. split; [by rewrite Hti|].
      left. split; [done|]. exists f. split; [done|]. split; [by rewrite Hh|].
      by rewrite Hp.
  - apply (answered_and_swept_refusal req res s _ d2). eauto.
Qed.

(** ** POST /start with an archive *)

Lemma diverge_same_prefix (p a b : Fs.path) :
  Fs.diverge (p ++ a) (p ++ b) = Fs.diverge a b.
Proof. induction p as [|x p IH]; [done|]. simpl. by rewrite decide_True. Qed.

Lemma extract_frame target q entries : forall s s',
  extractAllTo entries target s = Returned () s' ->
  (forall e, e ∈ entries -> Fs.diverge (target ++ e.1) q = true) ->
  Fs.lookup q (Some (disk s')) = Fs.lookup q (Some (disk s)).
Proof.
  unfold extractAllTo. induction entries as [|e0 rest IH]; intros s s' H Hd.
  - by injection H as <-.
  - cbn [forEach] in H. unfold mbind, Act_bind, fs at 1 in H.
    destruct (Fs.apply_at true (target ++ e0.1) _ (disk s)) as [d1|] eqn:H1; [|done].
    rewrite (IH _ _ H) by (intros; apply Hd; by apply list_elem_of_further).
    simpl. apply (apply_at_diverge _ _ _ _ _ _ H1). apply Hd. apply list_elem_of_here.
Qed.

Lemma extract_files target entries : forall s s',
  extractAllTo entries target s = Returned () s' ->
  forall i e, stays entries i e ->
    Fs.lookup (target ++ e.1) (Some (disk s')) = Some (Fs.File e.2).
Proof.
  induction entries as [|e0 rest IH]; intros s s' H i e [Hi Hlater]; [done|].
  unfold extractAllTo in H. cbn [forEach] in H. unfold mbind, Act_bind, fs at 1 in H.
  destruct (Fs.apply_at true (target ++ e0.1) _ (disk s)) as [d1|] eqn:H1; [|done].
  fold (extractAllTo rest target) in H.
  destruct i as [|i].
  - injection Hi as <-. rewrite (extract_frame target _ rest _ _ H).
    + simpl. apply apply_at_same in H1.
      destruct (Fs.lookup (target ++ e0.1) (Some (disk s))) as [[?|?]|]; [|done|];
        by injection H1 as <-.
    + intros e' He'. apply list_elem_of_lookup in He' as [j Hj].
      rewrite diverge_same_prefix. apply (Hlater (S j) e'); [lia | done].
  - apply (IH _ _ H i e). split; [done|]. intros j e' Hij Hj.
    apply (Hlater (S j) e'); [lia | done].
Qed.

(** X27. POST /start of index.js with an archive. Either something throws on
    the way, the making of the directories or the extraction, and then
    nothing is registered and nothing is answered; or the handler returns
    with the run registered and queued and the 200 on the response, every
    file of the archive that no later entry overwrites or displaces is
    below the work directory at its path with its content, and nothing
    outside the run directory has changed. *)
Theorem Basic_start_unpacks_archive req res s f entries :
  file req = Some f ->
  Js.endsWith (originalname f) ".zip" = true ->
  archive f = Some entries ->
  match Basic.start req res s with
  | Returned _ s' =>
      control s' = (heap s ++ [newRun req f],
                    Assoc.set (newRunId req) (length (heap s)) (runs s),
                    tasks s, [newRunId req]) /\
      sent res s' = sent res s ++ [started req] /\
      (forall i e, stays entries i e ->
         Fs.lookup (["runs"; newRunId req; "work"] ++ e.1) (Some (disk s'))
         = Some (Fs.File e.2)) /\
      (forall q, Fs.diverge ["runs"; newRunId req] q = true ->
         Fs.lookup q (Some (disk s')) = Fs.lookup q (Some (disk s)))
  | Thrown _ s' => only_disk_changed s s'
  end.
Proof.
  intros Hf Hz Ha. unfold Basic.start. rewrite Hf, bind_ret. cbv zeta.
  apply fs_then; [intros _; exists (disk s); by destruct s|]. intros d1 H1.
  apply fs_then; [intros _; by exists d1|]. intros d2 H2. cbn [disk on_disk] in H2.
  rewrite Hz, Ha. cbn [orb].
  set (s2 := on_disk (fun _ => d2) (on_disk (fun _ => d1) s)).
  unfold mbind at 1, Act_bind at 1.
  pose proof (disk_only_extractAllTo entries (["runs"; newRunId req] ++ ["work"]) s2) as Hdo.
  destruct (extractAllTo entries (["runs"; newRunId req] ++ ["work"]) s2)
    as [[] s3|e s3] eqn:E; destruct Hdo as [d3 Hs3]; [|subst s3; by exists d3].
  unfold alloc, send, mbind, Act_bind, gets, modify, mret, Act_ret. cbn beta iota.
  split; [by subst s3|]. split; [|split].
  - subst s3. unfold sent. simpl. by rewrite lookup_insert_eq.
  - intros i e0 Hstays. cbn [disk on_pending on_wire on_runs on_heap].
    apply (extract_files _ entries s2 s3 E i e0 Hstays).
  - intros q Hq. cbn [disk on_pending on_wire on_runs on_heap].
    rewrite (extract_frame _ q entries s2 s3 E)
      by (intros; rewrite <- app_assoc; by apply diverge_prefix).
    unfold s2. cbn [disk on_disk].
    rewrite (mkdirSync_diverge _ _ _ _ H2)
      by apply (diverge_prefix ["runs"; newRunId req] ["work"] _ Hq).
    by rewrite (mkdirSync_diverge _ _ _ _ H1).
Qed.

Lemma Basic_start_unpacks_archive_witness :
  match Basic.start start_zip 0%nat (boot disk0) with
  | Returned _ s' =>
      control s' = (heap (boot disk0) ++ [newRun start_zip upload_zip],
                    Assoc.set (newRunId start_zip) (length (heap (boot disk0)))
                              (runs (boot disk0)),
                    tasks (boot disk0), [newRunId start_zip]) /\
      sent 0%nat s' = sent 0%nat (boot disk0) ++ [started start_zip] /\
      (forall i e,
         stays [(["cypress.config.js"], "module.exports = {}");
                (["cypress"; "e2e"; "login.cy.js"], "it('logs in', () => {})")] i e ->
         Fs.lookup (["runs"; newRunId start_zip; "work"] ++ e.1) (Some (disk s'))
         = Some (Fs.File e.2)) /\
      (forall q, Fs.diverge ["runs"; newRunId start_zip] q = true ->
         Fs.lookup q (Some (disk s')) = Fs.lookup q (Some (disk (boot disk0))))
  | Thrown _ s' => only_disk_changed (boot disk0) s'
  end.
Proof.
  apply (Basic_start_unpacks_archive start_zip 0%nat (boot disk0) upload_zip); reflexivity.
Defined.

(** ** Who writes to a response *)

Section Private.
Context (c : nat).

Lemma leaves_ret {A} (a : A) : leaves c (mret a).
Proof. by intros s Hs. Qed.

Lemma leaves_throw {A} e : leaves c (@throw A e).
Proof. by intros s Hs. Qed.

Lemma leaves_gets {A} (f : Server -> A) : leaves c (gets f).
Proof. by intros s Hs. Qed.

Lemma leaves_bind {A B} (m : Act A) (f : A -> Act B) :
  leaves c m -> (forall a, leaves c (f a)) -> leaves c (m ≫= f).
Proof.
  intros Hm Hf s Hs. unfold mbind, Act_bind. specialize (Hm s Hs).
  destruct (m s) as [a s1|e s1]; [|done]. destruct Hm as [Hw Hu].
  specialize (Hf a s1 Hu). destruct (f a s1); by rewrite <- Hw.
Qed.

Lemma leaves_modify f :
  (forall s, wire (f s) = wire s /\ clients (f s) = clients s) -> leaves c (modify f).
Proof.
  intros Hf s Hs. destruct (Hf s) as [Hw Hc]. unfold modify, sent, unsubscribed,
    Basic.runClients in *. by rewrite Hw, Hc.
Qed.

Lemma leaves_fs op e : leaves c (fs op e).
Proof. intros s Hs. unfold fs. by destruct (op (disk s)). Qed.

Lemma leaves_send res x : res ≠ c -> leaves c (send res x).
Proof.
  intros Hne s Hs. unfold send, modify, sent. simpl. by rewrite lookup_insert_ne.
Qed.

Lemma leaves_forEach {A} (l : list A) f : (forall x, leaves c (f x)) -> leaves c (forEach l f).
Proof.
  intros Hf. induction l as [|x l IH]; simpl; [apply leaves_ret|].
  apply leaves_bind; auto.
Qed.

Lemma leaves_if {A} (b : bool) (m1 m2 : Act A) :
  leaves c m1 -> leaves c m2 -> leaves c (if b then m1 else m2).
Proof. by destruct b. Qed.

Lemma leaves_set_status r st : leaves c (set_status r st).
Proof. by apply leaves_modify. Qed.

Lemma leaves_set_phase t ph : leaves c (set_phase t ph).
Proof. by apply leaves_modify. Qed.

Lemma leaves_deref r : leaves c (deref r).
Proof. apply leaves_gets. Qed.

Lemma leaves_alloc run : leaves c (alloc run).
Proof.
  unfold alloc. apply leaves_bind; [apply leaves_gets|]. intros r.
  apply leaves_bind; [by apply leaves_modify | intros; apply leaves_ret].
Qed.

Lemma leaves_Basic_broadcast runId data : leaves c (Basic.broadcast runId data).
Proof.
  intros s Hs. rewrite Basic_broadcast_eq. split; [|done].
  unfold sent. simpl. rewrite deliver_times, times_absent by apply Hs.
  by rewrite app_nil_r.
Qed.

Lemma leaves_Basic_on_timeout runId : leaves c (Basic.on_timeout runId).
Proof.
  intros s Hs. rewrite Basic_on_timeout_eq. split.
  - unfold sent. simpl. rewrite deliver_times, times_absent by apply Hs.
    by rewrite app_nil_r.
  - intros r. unfold Basic.runClients. simpl.
    destruct (decide (runId = r)) as [->|Hne].
    + rewrite lookup_delete_eq. apply not_elem_of_nil.
    + rewrite lookup_delete_ne by done. apply Hs.
Qed.

Lemma leaves_Basic_stream runId res : res ≠ c -> leaves c (Basic.stream runId res).
Proof.
  intros Hne s Hs. rewrite Basic_stream_opens. split.
  - unfold sent. simpl. by rewrite lookup_insert_ne.
  - intros r. unfold Basic.runClients. simpl.
    destruct (decide (runId = r)) as [->|Hne'].
    + rewrite lookup_insert_eq. simpl. rewrite elem_of_app, list_elem_of_singleton.
      intros [H|H]; [by apply (Hs r) | congruence].
    + rewrite lookup_insert_ne by done. apply Hs.
Qed.

Lemma leaves_Basic_stream_closed runId res : leaves c (Basic.stream_closed runId res).
Proof.
  intros s Hs. split; [done|]. intros r. unfold Basic.runClients. simpl.
  destruct (decide (runId = r)) as [->|Hne'].
  - rewrite lookup_insert_eq. simpl. intros [_ H]%list_elem_of_filter. by apply (Hs r).
  - rewrite lookup_insert_ne by done. apply Hs.
Qed.

End Private.

Create HintDb leaves.

#[local] Hint Resolve leaves_ret leaves_throw leaves_gets leaves_fs leaves_set_status
  leaves_set_phase leaves_deref leaves_alloc leaves_Basic_broadcast : leaves.
#[local] Hint Extern 1 (leaves _ (send _ _)) => apply leaves_send; assumption : leaves.
#[local] Hint Extern 1 (leaves _ (modify _)) => apply leaves_modify; done : leaves.
#[local] Hint Extern 2 (leaves _ (_ ≫= _)) => apply leaves_bind; [|intros ?] : leaves.
#[local] Hint Extern 2 (leaves _ (forEach _ _)) => apply leaves_forEach; intros ? : leaves.
#[local] Hint Extern 2 (leaves _ (if _ then _ else _)) => apply leaves_if : leaves.
#[local] Hint Extern 3 (leaves _ (match ?x with _ => _ end)) => destruct x : leaves.

Lemma leaves_Basic_start c req res : res ≠ c -> leaves c (Basic.start req res).
Proof. intros Hne. unfold Basic.start, extractAllTo. auto 20 with leaves. Qed.

Lemma leaves_Basic_runCypress c runId : leaves c (Basic.runCypress runId).
Proof. unfold Basic.runCypress. auto 20 with leaves. Qed.

Lemma leaves_Basic_resumed c t task sp : leaves c (Basic.runCypress_resumed t task sp).
Proof. unfold Basic.runCypress_resumed. auto 20 with leaves. Qed.

Lemma leaves_Basic_on_close c t task code : leaves c (Basic.on_close t task code).
Proof. unfold Basic.on_close. auto 30 with leaves. Qed.

Lemma leaves_Basic_views c l : leaves c (Basic.views l).
Proof.
  induction l as [|run l IH]; simpl; [apply leaves_ret|].
  apply leaves_bind.
  - unfold Basic.view, Basic.getRunVideos, Basic.getRunScreenshots, Basic.getRunResults.
    auto 30 with leaves.
  - intros v. apply leaves_bind; [done | intros; apply leaves_ret].
Qed.

Lemma leaves_Basic_list_runs c res : res ≠ c -> leaves c (Basic.list_runs res).
Proof.
  intros Hne. unfold Basic.list_runs.
  apply leaves_bind; [apply leaves_gets | intros l].
  apply leaves_bind; [apply leaves_Basic_views | intros vs]. by apply leaves_send.
Qed.

Lemma leaves_Basic_get_run c runId res : res ≠ c -> leaves c (Basic.get_run runId res).
Proof.
  intros Hne. unfold Basic.get_run, Basic.view, Basic.getRunVideos,
    Basic.getRunScreenshots, Basic.getRunResults.
  auto 30 with leaves.
Qed.

Lemma leaves_uncaught c (m : Act ()) s s' :
  leaves c m -> unsubscribed c s -> Basic.uncaught (m s) = Basic.Continue s' ->
  sent c s' = sent c s /\ unsubscribed c s'.
Proof.
  intros Hm Hs. specialize (Hm s Hs). destruct (m s); simpl; [|done]. by intros [= <-].
Qed.

Lemma leaves_guarded c (m : Act ()) res s s' :
  res ≠ c -> leaves c m -> unsubscribed c s ->
  Basic.guarded res (m s) = Basic.Continue s' ->
  sent c s' = sent c s /\ unsubscribed c s'.
Proof.
  intros Hne Hm Hs. specialize (Hm s Hs).
  destruct (m s) as [[] s1|e s1]; simpl; intros [= <-]; [done|].
  destruct Hm as [Hw Hu]. split; [|done]. rewrite <- Hw. unfold sent. simpl.
  by rewrite lookup_insert_ne.
Qed.

Lemma leaves_rejected c (m : Act ()) s s' :
  leaves c m -> unsubscribed c s -> Basic.rejected (m s) = Basic.Continue s' ->
  sent c s' = sent c s /\ unsubscribed c s'.
Proof.
  intros Hm Hs. specialize (Hm s Hs). destruct (m s); simpl; by intros [= <-].
Qed.

Lemma private_step c ev s s' :
  names_response c ev = false -> unsubscribed c s ->
  Basic.step ev s = Basic.Continue s' ->
  sent c s' = sent c s /\ unsubscribed c s'.
Proof.
  intros Hev Hs H. unfold Basic.step in H.
  destruct (pending s) as [|runId rest] eqn:Hp.
  - destruct ev as [req res| |t sp|t data|t|t code|runId|runId res|runId res|res|runId res];
      simpl in Hev; try apply bool_decide_eq_false in Hev.
    + eapply leaves_rejected; [|done|exact H]. by apply leaves_Basic_start.
    + done.
    + destruct (tasks s !! t) as [task|]; [|done].
      destruct (t_phase task); try done.
      eapply leaves_uncaught; [|done|exact H]. apply leaves_Basic_resumed.
    + destruct (tasks s !! t) as [task|]; [|done].
      destruct (t_phase task); try done.
      eapply leaves_uncaught; [|done|exact H]. apply leaves_Basic_broadcast.
    + destruct (tasks s !! t) as [task|]; [|done]. destruct (t_phase task); done.
    + destruct (tasks s !! t) as [task|]; [|done].
      destruct (t_phase task); try done.
      eapply leaves_uncaught; [|done|exact H]. apply leaves_Basic_on_close.
    + destruct (Basic.remove_first runId (timers s)) as [l|]; [|done].
      apply (leaves_uncaught c _ _ _ (leaves_Basic_on_timeout c runId)) in H; done.
    + eapply leaves_uncaught; [|done|exact H]. by apply leaves_Basic_stream.
    + eapply leaves_uncaught; [|done|exact H]. apply leaves_Basic_stream_closed.
    + eapply leaves_guarded; [| |done|exact H]; [done|]. by apply leaves_Basic_list_runs.
    + eapply leaves_guarded; [| |done|exact H]; [done|]. by apply leaves_Basic_get_run.
  - destruct ev; try done.
    apply (leaves_uncaught c _ _ _ (leaves_Basic_runCypress c runId)) in H; done.
Qed.

Lemma private_after c evs : forall s s',
  forallb (fun ev => negb (names_response c ev)) evs = true ->
  unsubscribed c s ->
  Basic.after evs s = Basic.Continue s' ->
  sent c s' = sent c s /\ unsubscribed c s'.
Proof.
  induction evs as [|ev evs IH]; intros s s' Hevs Hs H; simpl in *.
  - by injection H as <-.
  - apply andb_prop in Hevs as [Hev Hevs]. apply negb_true_iff in Hev.
    destruct (Basic.step ev s) as [s1| |] eqn:Hstep; [|done..].
    destruct (private_step c ev s s1 Hev Hs Hstep) as [Hw Hu].
    destruct (IH s1 s' Hevs Hu H) as [Hw' Hu']. split; [congruence | done].
Qed.

Lemma unsubscribed_boot c d : unsubscribed c (boot d).
Proof. intros runId. unfold Basic.runClients. simpl. apply not_elem_of_nil. Qed.

(** X28. Responses are private in index.js. A response that is subscribed to
    no run is written to by nobody but the handler of its own request:
    whatever events the process goes through, uploads, runs starting,
    output, exits, timers, other requests and other subscribers, as long as
    none of them is a request with this response, nothing goes out on it and
    it is subscribed to nothing. *)
Theorem responses_are_private c evs s s' :
  unsubscribed c s ->
  forallb (fun ev => negb (names_response c ev)) evs = true ->
  Basic.after evs s = Basic.Continue s' ->
  sent c s' = sent c s /\ unsubscribed c s'.
Proof. intros Hs Hevs. by apply private_after. Qed.

Lemma responses_are_private_witness :
  sent 7%nat s_live = sent 7%nat (boot disk0) /\ unsubscribed 7%nat s_live.
Proof.
  apply (responses_are_private 7%nat s_live_events (boot disk0) s_live);
    [apply unsubscribed_boot | reflexivity | reflexivity].
Defined.

(** ** Requests that end index.js *)

(** X29. POST /start without a file. index.js throws on reading the name of
    the file, before it has done anything: no directory, no run, no
    answer; the exception rejects the promise of the handler, which
    nothing handles, and the process ends there, whatever it was
    supervising. Its revision and index-improved.js answer 400 No file
    uploaded and do nothing else. *)
Theorem start_without_file cfg isValidUrl refuses req res s :
  file req = None ->
  ((exists e, Basic.start req res s = Thrown e s) /\
   (pending s = [] ->
    forall evs, Basic.after (Basic.PostStart req res :: evs) s = Basic.Crash)) /\
  Fixed.start req res s
  = Returned () (reply res (Json 400 (NotOk "No file uploaded")) s) /\
  Improved.start cfg isValidUrl refuses req res s
  = Returned () (reply res (Json 400 (NotOk "No file uploaded")) s).
Proof.
  intros Hf.
  assert (Hthrows : Basic.start req res s
                    = Thrown "TypeError: Cannot read properties of undefined" s).
  { unfold Basic.start. act. by rewrite Hf. }
  split; [split|split].
  - eauto.
  - intros Hp evs. cbn [Basic.after]. unfold Basic.step. by rewrite Hp, Hthrows.
  - unfold Fixed.start. act. by rewrite Hf.
  - unfold Improved.start. act. by rewrite Hf.
Qed.

Lemma start_without_file_witness :
  ((exists e, Basic.start start_empty 2%nat s_live = Thrown e s_live) /\
   (forall evs, Basic.after (Basic.PostStart start_empty 2%nat :: evs) s_live
                = Basic.Crash)) /\
  Fixed.start start_empty 2%nat s_live
  = Returned () (reply 2%nat (Json 400 (NotOk "No file uploaded")) s_live) /\
  Improved.start defaults (fun _ => true) (fun _ => false) start_empty 2%nat s_live
  = Returned () (reply 2%nat (Json 400 (NotOk "No file uploaded")) s_live).
Proof.
  destruct (start_without_file defaults (fun _ => true) (fun _ => false) start_empty 2%nat
              s_live eq_refl) as ((H1 & H2) & H3).
  split; [split; [exact H1|]|exact H3].
  apply H2. reflexivity.
Defined.

(** X30. POST /start with a file named as an archive whose bytes are no
    archive. index.js throws out of the handler after it has made what
    directories it could: nothing is registered, nothing is written to
    the response, and the process ends on the rejection. Its revision
    answers 500 with the message of the exception, index-improved.js 500
    with its own message; both register nothing and go on. *)
Theorem start_with_corrupt_archive cfg isValidUrl refuses req res s f :
  file req = Some f ->
  Js.endsWith (originalname f) ".zip" = true ->
  archive f = None ->
  truthy (body_baseUrl req) && negb (isValidUrl (default "" (body_baseUrl req))) = false ->
  ((exists e s1, Basic.start req res s = Thrown e s1 /\ only_disk_changed s s1) /\
   (pending s = [] ->
    forall evs, Basic.after (Basic.PostStart req res :: evs) s = Basic.Crash)) /\
  (exists m s' s'',
     Fixed.start req res s = Returned () s'' /\
     s'' = reply res (Json 500 (NotOk m)) s' /\ only_disk_changed s s' /\
     (m = "Invalid or unsupported zip format" \/
      exists e, m = "Failed to create run directories: " +:+ e)) /\
  (exists s' s'',
     Improved.start cfg isValidUrl refuses req res s = Returned () s'' /\
     s'' = reply res (Json 500 (NotOk "Failed to start Cypress run")) s' /\
     only_disk_changed s s').
Proof.
  intros Hf Hz Ha Hu. pose proof (zip_lower _ Hz) as Hzl.
  assert (Hbasic : exists e s1, Basic.start req res s = Thrown e s1 /\
                                only_disk_changed s s1).
  { unfold Basic.start, only_disk_changed. act. rewrite Hf. cbn [app disk on_disk].
    destruct (Fs.mkdirSync ["runs"; newRunId req] (disk s)) as [d1|]; cbn [disk on_disk].
    - destruct (Fs.mkdirSync ["runs"; newRunId req; "work"] d1) as [d2|];
        cbn [disk on_disk].
      + rewrite Hz, Ha. cbn [orb]. eexists _, _. split; [reflexivity|]. by exists d2.
      + eexists _, _. split; [reflexivity|]. by exists d1.
    - eexists _, _. split; [reflexivity|]. exists (disk s). by destruct s. }
  split; [split|split].
  - exact Hbasic.
  - intros Hp evs. destruct Hbasic as (e & s1 & Hstart & _).
    cbn [Basic.after]. unfold Basic.step. by rewrite Hp, Hstart.
  - unfold Fixed.start, only_disk_changed. act. rewrite Hf. cbn [app disk on_disk].
    destruct (Fs.mkdirSync ["runs"; newRunId req] (disk s)) as [d1|]; cbn [disk on_disk].
    + destruct (Fs.mkdirSync ["runs"; newRunId req; "work"] d1) as [d2|];
        cbn [disk on_disk].
      * rewrite Hzl, Ha. cbn [orb]. eexists _, _, _. split; [reflexivity|].
        split; [reflexivity|]. split; [by exists d2 | by left].
      * eexists _, _, _. split; [reflexivity|]. split; [reflexivity|].
        split; [by exists d1 | right; by eexists].
    + eexists _, _, _. split; [reflexivity|]. split; [reflexivity|].
      split; [exists (disk s); by destruct s | right; by eexists].
  - unfold Improved.start, only_disk_changed. act. rewrite Hf, Hu. cbn [app disk on_disk].
    destruct (Fs.mkdirSync ["runs"; newRunId req] (disk s)) as [d1|]; cbn [disk on_disk].
    + destruct (Fs.mkdirSync ["runs"; newRunId req; "work"] d1) as [d2|];
        cbn [disk on_disk].
      * rewrite Hzl, Ha. cbn [orb]. eexists _, _. split; [reflexivity|].
        split; [reflexivity|]. by exists d2.
      * eexists _, _. split; [reflexivity|]. split; [reflexivity|]. by exists d1.
    + eexists _, _. split; [reflexivity|]. split; [reflexivity|].
      exists (disk s). by destruct s.
Qed.

Lemma start_with_corrupt_archive_witness :
  ((exists e s1, Basic.start start_corrupt 2%nat s_live = Thrown e s1 /\
                 only_disk_changed s_live s1) /\
   (forall evs, Basic.after (Basic.PostStart start_corrupt 2%nat :: evs) s_live
                = Basic.Crash)) /\
  (exists m s' s'',
     Fixed.start start_corrupt 2%nat s_live = Returned () s'' /\
     s'' = reply 2%nat (Json 500 (NotOk m)) s' /\ only_disk_changed s_live s' /\
     (m = "Invalid or unsupported zip format" \/
      exists e, m = "Failed to create run directories: " +:+ e)) /\
  (exists s' s'',
     Improved.start defaults (fun _ => true) (fun _ => false) start_corrupt 2%nat
       s_live = Returned () s'' /\
     s'' = reply 2%nat (Json 500 (NotOk "Failed to start Cypress run")) s' /\
     only_disk_changed s_live s').
Proof.
  destruct (start_with_corrupt_archive defaults (fun _ => true) (fun _ => false)
              start_corrupt 2%nat s_live upload_corrupt eq_refl eq_refl eq_refl eq_refl)
    as ((H1 & H2) & H3).
  split; [split; [exact H1|]|exact H3].
  apply H2. reflexivity.
Defined.
